(** * Course Module Loader: the archive extraction engine of [main.ts]

    A shallow embedding of [CourseMaterialPlugin.ensureFolderExists] and
    [CourseMaterialPlugin.downloadAndUnzip] (src/main.ts), together with the
    properties of the extraction engine: path resolution, metadata filtering,
    the non-destructive conflict policy, directory memoisation and error
    containment.

    The Obsidian vault, the network and the JSZip decoder are collaborators
    of the plugin; they appear here as an interface ([Host]) over which the
    program is parametric.  An event trace records every call the program
    issues to them, and every notice and console message it emits. *)

From Stdlib Require Import ZArith Ascii.
From stdpp Require Import base strings gmap list.

Local Open Scope Z_scope.

(** ** JavaScript string operations used by the plugin *)

Module JS.

Definition slash : ascii := "/"%char.
Definition backslash : ascii := "\"%char.

(** [s.startsWith(p)] *)
Fixpoint startsWith (s p : string) : bool :=
  match p with
  | EmptyString => true
  | String c p' =>
      match s with
      | EmptyString => false
      | String d s' => if Ascii.eqb c d then startsWith s' p' else false
      end
  end.

(** [s.includes(p)] *)
Fixpoint includes (s p : string) : bool :=
  if startsWith s p then true
  else match s with
       | EmptyString => false
       | String _ s' => includes s' p
       end.

(** [s.endsWith(p)] for a one-character [p] *)
Fixpoint endsWithChar (s : string) (c : ascii) : bool :=
  match s with
  | EmptyString => false
  | String d EmptyString => Ascii.eqb d c
  | String _ s' => endsWithChar s' c
  end.

(** [s.slice(0, -1)] *)
Fixpoint sliceInit (s : string) : string :=
  match s with
  | EmptyString => EmptyString
  | String _ EmptyString => EmptyString
  | String c s' => String c (sliceInit s')
  end.

(** [s.substring(1)] *)
Definition substring1 (s : string) : string :=
  match s with
  | EmptyString => EmptyString
  | String _ s' => s'
  end.

(** [s.substring(0, n)] for [0 <= n] *)
Fixpoint substring0 (n : nat) (s : string) : string :=
  match n, s with
  | S n', String c s' => String c (substring0 n' s')
  | _, _ => EmptyString
  end.

(** [s.split(sep)] for a one-character separator; the result is never
    empty ([''.split('/')] is [['']]). *)
Fixpoint split (sep : ascii) (s : string) : list string :=
  match s with
  | EmptyString => [EmptyString]
  | String c s' =>
      if Ascii.eqb c sep then EmptyString :: split sep s'
      else match split sep s' with
           | seg :: rest => String c seg :: rest
           | [] => [String c EmptyString]
           end
  end.

(** [a.pop()] on a non-empty array of strings: its last element. *)
Definition pop (a : list string) : string := List.last a EmptyString.

(** [s.lastIndexOf(c)]: the index of the last occurrence, or [-1]. *)
Fixpoint lastIndexOfFrom (c : ascii) (s : string) (i acc : Z) : Z :=
  match s with
  | EmptyString => acc
  | String d s' =>
      lastIndexOfFrom c s' (i + 1) (if Ascii.eqb d c then i else acc)
  end.

Definition lastIndexOf (s : string) (c : ascii) : Z :=
  lastIndexOfFrom c s 0 (-1).

(** [s.replace(/\\/g, '/')] *)
Fixpoint replaceBackslashes (s : string) : string :=
  match s with
  | EmptyString => EmptyString
  | String c s' =>
      String (if Ascii.eqb c backslash then slash else c)
             (replaceBackslashes s')
  end.

(** [s.replace(/\/+/g, '/')]: every run of slashes becomes one slash. *)
Fixpoint collapseSlashes (s : string) : string :=
  match s with
  | EmptyString => EmptyString
  | String c s' =>
      if Ascii.eqb c slash then
        match s' with
        | String d _ =>
            if Ascii.eqb d slash then collapseSlashes s'
            else String c (collapseSlashes s')
        | EmptyString => String c EmptyString
        end
      else String c (collapseSlashes s')
  end.

(** [s.replace(/^\/|\/$/g, '')]: at most one leading and one trailing
    slash are removed (the two alternatives never match the same
    character). *)
Definition trimSlashes (s : string) : string :=
  let s1 := if startsWith s "/" then substring1 s else s in
  if endsWithChar s1 slash then sliceInit s1 else s1.

(** [s.replace(p, r)] with a string pattern: the first occurrence only. *)
Fixpoint replaceFirst (s p r : string) : string :=
  if startsWith s p then r +:+ String.substring (String.length p) (String.length s) s
  else match s with
       | EmptyString => EmptyString
       | String c s' => String c (replaceFirst s' p r)
       end.

Definition lowerChar (c : ascii) : ascii :=
  let n := nat_of_ascii c in
  if (Nat.leb 65 n && Nat.leb n 90)%bool then ascii_of_nat (n + 32) else c.

(** [s.toLowerCase()] on the ASCII range *)
Fixpoint toLowerCase (s : string) : string :=
  match s with
  | EmptyString => EmptyString
  | String c s' => String (lowerChar c) (toLowerCase s')
  end.

(** A template literal renders a number in decimal. *)
Fixpoint digitsOf (fuel n : nat) (acc : string) : string :=
  match fuel with
  | O => acc
  | S fuel' =>
      let acc' := String (ascii_of_nat (48 + n mod 10)) acc in
      match (n / 10)%nat with
      | O => acc'
      | q => digitsOf fuel' q acc'
      end
  end.

Definition numberToString (n : nat) : string := digitsOf (S n) n EmptyString.

(** The string of the given UTF-8 bytes. *)
Definition utf8 (bytes : list nat) : string :=
  String.string_of_list_ascii (List.map ascii_of_nat bytes).

(** The code points that [trim] removes, the WhiteSpace and LineTerminator
    of ECMAScript: U+0009 to U+000D, U+0020, U+00A0, U+1680, U+2000 to
    U+200A, U+2028, U+2029, U+202F, U+205F, U+3000 and U+FEFF.  A string
    stands for a JavaScript string by its UTF-8 bytes, so each of them is
    the string of one, two or three bytes of its encoding. *)
Definition whiteSpace : list string :=
  Eval cbv in
    List.map utf8
      [[9]; [10]; [11]; [12]; [13]; [32];
       [194; 160];
       [225; 154; 128];
       [226; 128; 128]; [226; 128; 129]; [226; 128; 130]; [226; 128; 131];
       [226; 128; 132]; [226; 128; 133]; [226; 128; 134]; [226; 128; 135];
       [226; 128; 136]; [226; 128; 137]; [226; 128; 138];
       [226; 128; 168]; [226; 128; 169];
       [226; 128; 175];
       [226; 129; 159];
       [227; 128; 128];
       [239; 187; 191]]%nat.

Fixpoint dropChars (n : nat) (s : string) : string :=
  match n, s with
  | S n', String _ s' => dropChars n' s'
  | _, _ => s
  end.

(** Removes one leading occurrence of a string of [ws], if there is one. *)
Definition stripOne (ws : list string) (s : string) : option string :=
  match List.find (fun w => startsWith s w) ws with
  | Some w => Some (dropChars (String.length w) s)
  | None => None
  end.

(** Removes leading occurrences of the strings of [ws] as long as there
    are some; each removal takes a byte at least, so that the length of
    the string is fuel enough. *)
Fixpoint stripAll (ws : list string) (fuel : nat) (s : string) : string :=
  match fuel with
  | O => s
  | S fuel' =>
      match stripOne ws s with
      | Some s' => stripAll ws fuel' s'
      | None => s
      end
  end.

Definition reverseString (s : string) : string :=
  String.string_of_list_ascii (List.rev (String.list_ascii_of_string s)).

(** [s.trimStart()] *)
Definition trimStart (s : string) : string :=
  stripAll whiteSpace (String.length s) s.

(** [s.trimEnd()]: the same from the end, on the reversed bytes. *)
Definition trimEnd (s : string) : string :=
  reverseString
    (stripAll (List.map reverseString whiteSpace) (String.length s)
       (reverseString s)).

(** [s.trim()] *)
Definition trim (s : string) : string := trimEnd (trimStart s).

End JS.


(** ** Data of the plugin and of its collaborators *)

(** An [ArrayBuffer]. *)
Definition ArrayBuffer : Type := list Byte.byte.

(** A thrown error: an object, whose [message] may be undefined (the code
    reads it through [error.message?.toLowerCase()]).  The collaborators
    reject with error objects; a rejection with [null] or [undefined],
    whose [message] cannot be read, is not represented. *)
Record Error : Type := mkError { message : option string }.

(** Obsidian's [TFolder]: the plugin only reads its [path]. *)
Record TFolder : Type := mkTFolder { path : string }.

(** Obsidian's [TAbstractFile], told apart by [instanceof]. *)
Inductive TAbstractFile : Type :=
| AFile (filePath : string)
| AFolder (folder : TFolder).

(** A JSZip [ZipObject]: the [dir] flag and the outcome of
    [async('arraybuffer')], which rejects when the entry cannot be
    decompressed. *)
Record ZipObject : Type := mkZipObject {
  dir : bool;
  async : Error + ArrayBuffer
}.

(** [CourseMaterialPluginSettings] *)
Record CourseMaterialPluginSettings : Type := mkSettings {
  targetFolder : string
}.

Definition DEFAULT_SETTINGS : CourseMaterialPluginSettings :=
  {| targetFolder := "Course Modules" |}.

(** What the plugin does that can be observed from outside: the calls it
    issues to the vault, to the network and to the decoder (with their
    outcome), the notices it shows and the console messages it prints (the
    first argument of each [console] call). *)
Inductive Event : Type :=
| NewNotice (msg : string)
| ConsoleLog (msg : string)
| ConsoleWarn (msg : string)
| ConsoleError (msg : string)
| VaultGetAbstractFileByPath (p : string) (found : option TAbstractFile)
| VaultCreateFolder (p : string) (ok : bool)
| VaultCreateBinary (p : string) (data : ArrayBuffer) (ok : bool)
| RequestUrl (url : string) (ok : bool)
| JSZipLoadAsync (data : ArrayBuffer) (ok : bool).

(** The collaborators.  [createFolder] and [createBinary] either return or
    throw, and yield the vault as it stands afterwards; [readBinary] is how
    a file's bytes are observed (the plugin never calls it);
    [loadAsync] yields the own properties of [zip.files] in the order in
    which [for ... in] enumerates them. *)
Class Host (Vault : Type) : Type := {
  getRoot : Vault -> TFolder;
  getAbstractFileByPath : Vault -> string -> option TAbstractFile;
  createFolder : Vault -> string -> Vault * (Error + TFolder);
  createBinary : Vault -> string -> ArrayBuffer -> Vault * (Error + unit);
  readBinary : Vault -> string -> option ArrayBuffer;
  requestUrl : string -> Error + ArrayBuffer;
  loadAsync : ArrayBuffer -> Error + list (string * ZipObject)
}.

(** ** The monad of the plugin's code: vault state, event trace, exceptions *)

Inductive Completion (A : Type) : Type :=
| Normal (a : A)
| Throw (e : Error).
Arguments Normal {A} a.
Arguments Throw {A} e.

Definition M (Vault : Type) (A : Type) : Type :=
  Vault -> Vault * list Event * Completion A.

Section Monad.
Context {Vault : Type}.

Definition ret {A} (a : A) : M Vault A := fun v => (v, [], Normal a).

Definition bind {A B} (m : M Vault A) (f : A -> M Vault B) : M Vault B :=
  fun v =>
    match m v with
    | (v1, t1, Normal a) =>
        match f a v1 with
        | (v2, t2, r) => (v2, t1 ++ t2, r)
        end
    | (v1, t1, Throw e) => (v1, t1, Throw e)
    end.

(** [try { m } catch (e) { h e }] *)
Definition tryCatch {A} (m : M Vault A) (h : Error -> M Vault A) : M Vault A :=
  fun v =>
    match m v with
    | (v1, t1, Throw e) =>
        match h e v1 with
        | (v2, t2, r) => (v2, t1 ++ t2, r)
        end
    | r => r
    end.

Definition emit (ev : Event) : M Vault unit := fun v => (v, [ev], Normal tt).

Definition when (b : bool) (m : M Vault unit) : M Vault unit :=
  if b then m else ret tt.
End Monad.

Notation "'let*' x ':=' c1 'in' c2" := (bind c1 (fun x => c2))
  (at level 10, x binder, c1 at level 100, c2 at level 200).
Notation "c1 ';;' c2" := (bind c1 (fun _ => c2))
  (at level 100, c2 at level 200, right associativity).

(** ** The plugin *)

Section Plugin.
Context {Vault : Type} `{Host Vault}.

Definition notice (msg : string) : M Vault unit := emit (NewNotice msg).
Definition consoleLog (msg : string) : M Vault unit := emit (ConsoleLog msg).
Definition consoleWarn (msg : string) : M Vault unit := emit (ConsoleWarn msg).
Definition consoleError (msg : string) : M Vault unit := emit (ConsoleError msg).

(** [this.app.vault.getAbstractFileByPath(p)] *)
Definition vaultGetAbstractFileByPath (p : string)
  : M Vault (option TAbstractFile) :=
  fun v =>
    let r := getAbstractFileByPath v p in
    (v, [VaultGetAbstractFileByPath p r], Normal r).

(** [await this.app.vault.createFolder(p)] *)
Definition vaultCreateFolder (p : string) : M Vault TFolder :=
  fun v =>
    match createFolder v p with
    | (v', inr d) => (v', [VaultCreateFolder p true], Normal d)
    | (v', inl e) => (v', [VaultCreateFolder p false], Throw e)
    end.

(** [await this.app.vault.createBinary(p, data, { mtime: Date.now() })] *)
Definition vaultCreateBinary (p : string) (data : ArrayBuffer) : M Vault unit :=
  fun v =>
    match createBinary v p data with
    | (v', inr _) => (v', [VaultCreateBinary p data true], Normal tt)
    | (v', inl e) => (v', [VaultCreateBinary p data false], Throw e)
    end.

(** [await requestUrl({ url: url })], then [response.arrayBuffer] *)
Definition doRequestUrl (url : string) : M Vault ArrayBuffer :=
  fun v =>
    match requestUrl url with
    | inr data => (v, [RequestUrl url true], Normal data)
    | inl e => (v, [RequestUrl url false], Throw e)
    end.

(** [await JSZip.loadAsync(zipData)], then [zip.files] *)
Definition jszipLoadAsync (zipData : ArrayBuffer)
  : M Vault (list (string * ZipObject)) :=
  fun v =>
    match loadAsync zipData with
    | inr files => (v, [JSZipLoadAsync zipData true], Normal files)
    | inl e => (v, [JSZipLoadAsync zipData false], Throw e)
    end.

(** [await zipEntry.async('arraybuffer')] *)
Definition zipEntryAsync (zipEntry : ZipObject) : M Vault ArrayBuffer :=
  fun v =>
    match async zipEntry with
    | inr data => (v, [], Normal data)
    | inl e => (v, [], Throw e)
    end.

(** A string in a condition is true when it is not empty. *)
Definition truthy (s : string) : bool := negb (String.eqb s "").

(** [error.message?.toLowerCase().includes("file already exists")] *)
Definition saysFileAlreadyExists (e : Error) : bool :=
  match message e with
  | Some m => JS.includes (JS.toLowerCase m) "file already exists"
  | None => false
  end.

(** [${error.message}] *)
Definition messageText (e : Error) : string :=
  match message e with
  | Some m => m
  | None => "undefined"
  end.

Definition dquote : string := String (ascii_of_nat 34) EmptyString.

(** [ensureFolderExists(path)], main.ts lines 249-296.  The result is the
    folder, or [None] for [null]. *)
Definition ensureFolderExists (path : string) : M Vault (option TFolder) :=
  if (String.eqb path "/" || String.eqb path "")%bool then
    fun v => (v, [], Normal (Some (getRoot v)))
  else
    let normalizedPath := JS.trimSlashes path in
    if String.eqb normalizedPath "" then
      fun v => (v, [], Normal (Some (getRoot v)))
    else
      tryCatch
        (let* existingItem := vaultGetAbstractFileByPath normalizedPath in
         match existingItem with
         | Some (AFolder d) => ret (Some d)
         | Some (AFile _) =>
             consoleError ("Cannot create folder '" +:+ normalizedPath
                           +:+ "', a file with this name already exists.");;
             notice ("Cannot create folder '" +:+ normalizedPath
                     +:+ "', a file exists there.");;
             ret None
         | None =>
             consoleLog ("Attempting to create folder: " +:+ normalizedPath);;
             tryCatch
               (let* newFolder := vaultCreateFolder normalizedPath in
                notice ("Created folder: " +:+ normalizedPath);;
                ret (Some newFolder))
               (fun creationError =>
                  consoleError ("Error creating folder '" +:+ normalizedPath
                                +:+ "':");;
                  let* checkAgain := vaultGetAbstractFileByPath normalizedPath in
                  match checkAgain with
                  | Some (AFolder d) =>
                      consoleLog ("Folder '" +:+ normalizedPath
                                  +:+ "' found after initial creation attempt failed.");;
                      ret (Some d)
                  | _ =>
                      notice ("Error creating folder '" +:+ normalizedPath
                              +:+ "'. Check console.");;
                      ret None
                  end)
         end)
        (fun error =>
           consoleError ("Unexpected error ensuring folder exists '"
                         +:+ normalizedPath +:+ "':");;
           notice ("Unexpected error checking folder '" +:+ normalizedPath
                   +:+ "'. Check console.");;
           ret None).

(** The two variables of the extraction loop, main.ts lines 349-350. *)
Record LoopState : Type := mkLoopState {
  fileCount : nat;
  folderPathsCreated : gset string
}.

Definition has (s : gset string) (p : string) : bool := bool_decide (p ∈ s).

Definition addFolder (p : string) (st : LoopState) : LoopState :=
  {| fileCount := fileCount st;
     folderPathsCreated := {[p]} ∪ folderPathsCreated st |}.

Definition countFile (st : LoopState) : LoopState :=
  {| fileCount := S (fileCount st);
     folderPathsCreated := folderPathsCreated st |}.

(** The condition of main.ts line 355. *)
Definition isIgnored (relativePath : string) : bool :=
  let fileName := JS.pop (JS.split JS.slash relativePath) in
  (JS.startsWith relativePath "__MACOSX/"
   || String.eqb fileName ".DS_Store"
   || negb (truthy relativePath))%bool.

(** main.ts line 364 *)
Definition fullDestPath (cleanTargetFolderPath relativePath : string) : string :=
  if truthy cleanTargetFolderPath
  then cleanTargetFolderPath +:+ "/" +:+ relativePath
  else relativePath.

(** main.ts line 365 *)
Definition normalizedDestPath (cleanTargetFolderPath relativePath : string)
  : string :=
  JS.collapseSlashes
    (JS.replaceBackslashes (fullDestPath cleanTargetFolderPath relativePath)).

(** main.ts line 370 *)
Definition dirPathOf (normalizedDestPath : string) : string :=
  if JS.endsWithChar normalizedDestPath JS.slash
  then JS.sliceInit normalizedDestPath
  else normalizedDestPath.

(** main.ts lines 384-385 *)
Definition parentPathOf (normalizedDestPath : string) : string :=
  let lastSlashIndex := JS.lastIndexOf normalizedDestPath JS.slash in
  if 0 <? lastSlashIndex
  then JS.substring0 (Z.to_nat lastSlashIndex) normalizedDestPath
  else if lastSlashIndex =? 0 then "/" else "".

(** main.ts line 402 *)
Definition pathToCheckOf (normalizedDestPath : string) : string :=
  if JS.startsWith normalizedDestPath "/"
  then JS.substring1 normalizedDestPath
  else normalizedDestPath.

(** The directory branch of the loop body, main.ts lines 368-379. *)
Definition extractDirectory (normalizedDestPath : string) (st : LoopState)
  : M Vault LoopState :=
  let dirPath := dirPathOf normalizedDestPath in
  if (truthy dirPath && negb (has (folderPathsCreated st) dirPath))%bool then
    let* folderExists := ensureFolderExists dirPath in
    match folderExists with
    | None =>
        consoleWarn ("Could not ensure directory exists: " +:+ dirPath
                     +:+ ". Skipping contents.");;
        ret st
    | Some _ => ret (addFolder dirPath st)
    end
  else ret st.

(** Lines 388-397: the parent directory of a file entry.  [None] stands
    for the [continue] of line 393. *)
Definition ensureParent (cleanTargetFolderPath normalizedDestPath : string)
    (st : LoopState) : M Vault (option LoopState) :=
  let parentPath := parentPathOf normalizedDestPath in
  if (truthy parentPath
      && negb (String.eqb parentPath cleanTargetFolderPath)
      && negb (has (folderPathsCreated st) parentPath))%bool then
    let* parentFolderExists := ensureFolderExists parentPath in
    match parentFolderExists with
    | None =>
        consoleWarn ("Could not ensure parent directory exists: "
                     +:+ parentPath +:+ ". Skipping file: "
                     +:+ normalizedDestPath);;
        ret None
    | Some _ => ret (Some (addFolder parentPath st))
    end
  else ret (Some st).

(** Lines 399-441: the conflict policy for a file entry. *)
Definition writeEntry (normalizedDestPath : string) (fileData : ArrayBuffer)
    (st : LoopState) : M Vault LoopState :=
  let pathToCheck := pathToCheckOf normalizedDestPath in
  if (String.eqb pathToCheck "" && String.eqb normalizedDestPath "/")%bool then
    consoleWarn "Attempting to check root path '/' for a file. Skipping.";;
    ret st
  else
    let* existingItem :=
      if truthy pathToCheck then vaultGetAbstractFileByPath pathToCheck
      else ret None in
    match existingItem with
    | Some (AFile _) =>
        consoleLog ("Skipping extraction for existing file: "
                    +:+ normalizedDestPath);;
        ret st
    | Some (AFolder _) =>
        consoleError ("Skipping file write: A folder exists at path "
                      +:+ normalizedDestPath);;
        notice ("Skipping file write: Folder exists at " +:+ normalizedDestPath);;
        ret st
    | None =>
        tryCatch
          (consoleLog ("Creating new file: " +:+ normalizedDestPath);;
           vaultCreateBinary normalizedDestPath fileData;;
           ret (countFile st))
          (fun writeError =>
             if saysFileAlreadyExists writeError then
               consoleWarn ("Caught 'File already exists' on createBinary for "
                            +:+ normalizedDestPath +:+ ". Skipping.");;
               ret st
             else
               consoleError ("Error creating file '" +:+ normalizedDestPath
                             +:+ "':");;
               notice ("Error creating file '" +:+ normalizedDestPath
                       +:+ "'. Check console.");;
               ret st)
    end.

(** The file branch of the loop body, main.ts lines 381-442. *)
Definition extractFile (cleanTargetFolderPath normalizedDestPath : string)
    (zipEntry : ZipObject) (st : LoopState) : M Vault LoopState :=
  let* fileData := zipEntryAsync zipEntry in
  let* parent := ensureParent cleanTargetFolderPath normalizedDestPath st in
  match parent with
  | None => ret st
  | Some st1 => writeEntry normalizedDestPath fileData st1
  end.

(** One iteration of the loop, main.ts lines 352-443. *)
Definition extractEntry (cleanTargetFolderPath : string) (st : LoopState)
    (relativePath : string) (zipEntry : ZipObject) : M Vault LoopState :=
  let fileName := JS.pop (JS.split JS.slash relativePath) in
  if isIgnored relativePath then
    when (JS.startsWith relativePath "__MACOSX/")
         (consoleLog ("Ignoring macOS metadata folder: " +:+ relativePath));;
    when (String.eqb fileName ".DS_Store")
         (consoleLog ("Ignoring .DS_Store file: " +:+ relativePath));;
    ret st
  else
    let normalizedDestPath :=
      normalizedDestPath cleanTargetFolderPath relativePath in
    if dir zipEntry
    then extractDirectory normalizedDestPath st
    else extractFile cleanTargetFolderPath normalizedDestPath zipEntry st.

(** [for (const relativePath in zip.files) { ... }] *)
Fixpoint forIn (cleanTargetFolderPath : string)
    (files : list (string * ZipObject)) (st : LoopState) : M Vault LoopState :=
  match files with
  | [] => ret st
  | (relativePath, zipEntry) :: rest =>
      let* st' := extractEntry cleanTargetFolderPath st relativePath zipEntry in
      forIn cleanTargetFolderPath rest st'
  end.

Definition initialLoopState : LoopState :=
  {| fileCount := 0; folderPathsCreated := ∅ |}.

(** The notice of line 445. *)
Definition summaryNotice (count : nat) (target : TFolder) : string :=
  "Successfully extracted " +:+ JS.numberToString count
  +:+ " new file(s) to '" +:+ path target +:+ "'.".

(** Step 4 of [downloadAndUnzip], main.ts lines 346-457: decode the
    archive and extract its entries into the target folder. *)
Definition unzipAndWrite (target : TFolder) (cleanTargetFolderPath : string)
    (zipData : ArrayBuffer) : M Vault unit :=
  tryCatch
    (let* files := jszipLoadAsync zipData in
     let* st := forIn cleanTargetFolderPath files initialLoopState in
     notice (summaryNotice (fileCount st) target);;
     consoleLog ("Extraction complete to folder: " +:+ path target))
    (fun error =>
       consoleError "Unzip/Write Error:";;
       if saysFileAlreadyExists error then
         consoleWarn "Caught 'File already exists' error during unzip/write phase, possibly handled. Check logic if files were missed.";;
         notice "An unexpected 'File already exists' error occurred during processing. Some files might not have been processed correctly. Check console."
       else
         notice ("Failed to unzip or write files: " +:+ messageText error
                 +:+ ". Check console.")).

(** main.ts line 328 *)
Definition cleanTargetFolderPathOf (target : TFolder) : string :=
  if String.eqb (path target) "/" then "" else path target.

(** Step 1, main.ts lines 314-317. *)
Definition dropboxFix (url : string) : string :=
  let url := JS.replaceFirst url "www.dropbox.com" "dl.dropboxusercontent.com" in
  if (JS.includes url "dropbox.com" && negb (JS.includes url "dl=1"))%bool
  then if JS.includes url "?" then url +:+ "&dl=1" else url +:+ "?dl=1"
  else url.

(** Step 3, main.ts lines 332-344; [None] stands for the [return] of
    line 343. *)
Definition download (url : string) : M Vault (option ArrayBuffer) :=
  tryCatch
    (notice "Downloading module...";;
     consoleLog ("Requesting URL: " +:+ url);;
     let* zipData := doRequestUrl url in
     notice "Download complete. Unzipping...";;
     consoleLog ("Downloaded " +:+ JS.numberToString (length zipData)
                 +:+ " bytes.");;
     ret (Some zipData))
    (fun error =>
       consoleError "Download Error:";;
       notice ("Failed to download file: " +:+ messageText error
               +:+ ". Check console (Ctrl+Shift+I or Cmd+Opt+I).");;
       ret None).

(** [downloadAndUnzip(url)], main.ts lines 308-458. *)
Definition downloadAndUnzip (settings : CourseMaterialPluginSettings)
    (url : string) : M Vault unit :=
  if (negb (JS.startsWith url "http://")
      && negb (JS.startsWith url "https://"))%bool then
    notice "Invalid URL received. Must start with http:// or https://"
  else
    let url := dropboxFix url in
    let targetFolderPath := targetFolder settings in
    let* target := ensureFolderExists targetFolderPath in
    match target with
    | None =>
        notice ("Target folder " +:+ dquote +:+ targetFolderPath +:+ dquote
                +:+ " could not be found or created. Aborting.")
    | Some target =>
        let cleanTargetFolderPath := cleanTargetFolderPathOf target in
        let* zipData := download url in
        match zipData with
        | None => ret tt
        | Some zipData => unzipAndWrite target cleanTargetFolderPath zipData
        end
    end.

End Plugin.

(** ** A reference host: an in-memory vault

    A vault kept as a finite map from paths to what they hold.  Paths are
    taken as given and a path can be created whatever its parent holds;
    creating a path that is taken throws, as Obsidian's [createFolder] and
    [createBinary] do.  The instances of the theorems below are run on
    it. *)

Module MemVault.

(** What a path holds. *)
Inductive Node : Type :=
| FileNode (data : ArrayBuffer)
| FolderNode.

(** The behaviour of the collaborators that the vault's content does not
    determine: which paths the storage refuses, which creations lose a
    race (the call throws, the folder is there afterwards), what the
    network returns and how a byte buffer decodes. *)
Record Config : Type := mkConfig {
  refusesFolder : string -> bool;
  racesFolder : string -> bool;
  refusesBinary : string -> option Error;
  network : string -> Error + ArrayBuffer;
  decoder : ArrayBuffer -> Error + list (string * ZipObject)
}.

Definition lookupNode (v : gmap string Node) (p : string)
  : option TAbstractFile :=
  match v !! p with
  | Some (FileNode _) => Some (AFile p)
  | Some FolderNode => Some (AFolder {| path := p |})
  | None => if String.eqb p "/" then Some (AFolder {| path := "/" |}) else None
  end.

Definition mkdir (cfg : Config) (v : gmap string Node) (p : string)
  : gmap string Node * (Error + TFolder) :=
  match lookupNode v p with
  | Some _ => (v, inl {| message := Some "Folder already exists." |})
  | None =>
      if racesFolder cfg p then
        (<[p := FolderNode]> v, inl {| message := Some "Folder already exists." |})
      else if refusesFolder cfg p then
        (v, inl {| message := Some "Operation not permitted." |})
      else (<[p := FolderNode]> v, inr {| path := p |})
  end.

Definition writeBinary (cfg : Config) (v : gmap string Node) (p : string)
    (data : ArrayBuffer) : gmap string Node * (Error + unit) :=
  match lookupNode v p with
  | Some _ => (v, inl {| message := Some "File already exists." |})
  | None =>
      match refusesBinary cfg p with
      | Some e => (v, inl e)
      | None => (<[p := FileNode data]> v, inr tt)
      end
  end.

Definition contents (v : gmap string Node) (p : string) : option ArrayBuffer :=
  match v !! p with
  | Some (FileNode d) => Some d
  | _ => None
  end.

Definition host (cfg : Config) : Host (gmap string Node) := {|
  getRoot := fun _ => {| path := "/" |};
  getAbstractFileByPath := lookupNode;
  createFolder := mkdir cfg;
  createBinary := writeBinary cfg;
  readBinary := contents;
  requestUrl := network cfg;
  loadAsync := decoder cfg
|}.

(** A storage that refuses nothing, a network that returns the bytes
    [zip] for every URL, and a decoder that reads them as [files]. *)
Definition plain (zip : ArrayBuffer) (files : list (string * ZipObject))
  : Config := {|
  refusesFolder := fun _ => false;
  racesFolder := fun _ => false;
  refusesBinary := fun _ => None;
  network := fun _ => inr zip;
  decoder := fun _ => inr files
|}.

(** A decoder that rejects every buffer. *)
Definition corrupt : Config := {|
  refusesFolder := fun _ => false;
  racesFolder := fun _ => false;
  refusesBinary := fun _ => None;
  network := fun _ => inr [];
  decoder := fun _ =>
    inl {| message := Some "Can't find end of central directory" |}
|}.

(** A storage on which the creation of the folder [p] loses a race. *)
Definition racing (p : string) : Config := {|
  refusesFolder := fun _ => false;
  racesFolder := String.eqb p;
  refusesBinary := fun _ => None;
  network := fun _ => inr [];
  decoder := fun _ => inr []
|}.

(** A storage that refuses to create the folder [p] and the file [q]. *)
Definition refusing (p q : string) : Config := {|
  refusesFolder := String.eqb p;
  racesFolder := fun _ => false;
  refusesBinary := fun x =>
    if String.eqb q x then Some {| message := Some "EACCES: permission denied" |}
    else None;
  network := fun _ => inr [];
  decoder := fun _ => inr []
|}.

(** A storage on which the file [q] is taken although no look-up shows it
    (another writer, or a name that differs by case only). *)
Definition colliding (q : string) : Config := {|
  refusesFolder := fun _ => false;
  racesFolder := fun _ => false;
  refusesBinary := fun x =>
    if String.eqb q x then Some {| message := Some "File already exists." |}
    else None;
  network := fun _ => inr [];
  decoder := fun _ => inr []
|}.

(** A network that fails. *)
Definition offline : Config := {|
  refusesFolder := fun _ => false;
  racesFolder := fun _ => false;
  refusesBinary := fun _ => None;
  network := fun _ => inl {| message := Some "net::ERR_INTERNET_DISCONNECTED" |};
  decoder := fun _ => inr []
|}.

End MemVault.

(** A file entry and a directory entry of an archive. *)
Definition fileEntry (data : ArrayBuffer) : ZipObject :=
  {| dir := false; async := inr data |}.
Definition dirEntry : ZipObject := {| dir := true; async := inr [] |}.


(** ** Observations on traces *)

(** The notices shown, in order. *)
Definition notices (t : list Event) : list string :=
  omap (fun ev => match ev with NewNotice m => Some m | _ => None end) t.

(** The paths of the files written: the successful [createBinary] calls. *)
Definition filesWritten (t : list Event) : list string :=
  omap (fun ev => match ev with
                  | VaultCreateBinary p _ true => Some p
                  | _ => None
                  end) t.

(** The paths of the folders created: the successful [createFolder] calls. *)
Definition foldersCreated (t : list Event) : list string :=
  omap (fun ev => match ev with
                  | VaultCreateFolder p true => Some p
                  | _ => None
                  end) t.

(** A call to the vault, to the network or to the decoder. *)
Definition isCall (ev : Event) : bool :=
  match ev with
  | NewNotice _ | ConsoleLog _ | ConsoleWarn _ | ConsoleError _ => false
  | _ => true
  end.

(** A call that may change the vault. *)
Definition isCreationCall (ev : Event) : bool :=
  match ev with
  | VaultCreateFolder _ _ | VaultCreateBinary _ _ _ => true
  | _ => false
  end.

(** A report to the user or to the console: a notice, a warning or an
    error. *)
Definition isReport (ev : Event) : bool :=
  match ev with
  | NewNotice _ | ConsoleError _ | ConsoleWarn _ => true
  | _ => false
  end.

(** ** What a path denotes

    A path denotes a location by its segments: empty segments and [.] stay
    in place, [..] moves to the parent.  Moving above the root of the vault
    denotes nothing inside the vault. *)

Module PathSemantics.

Definition segments (p : string) : list string :=
  filter (fun s => s ≠ EmptyString) (JS.split JS.slash p).

(** [walk here segs]: the location reached from [here] (innermost
    segment first). *)
Fixpoint walk (here : list string) (segs : list string)
  : option (list string) :=
  match segs with
  | [] => Some here
  | seg :: rest =>
      if bool_decide (seg = "..") then
        match here with
        | [] => None
        | _ :: up => walk up rest
        end
      else if bool_decide (seg = ".") then walk here rest
      else walk (seg :: here) rest
  end.

(** The location a path denotes, outermost segment first. *)
Definition locate (p : string) : option (list string) :=
  reverse <$> walk [] (segments p).

(** [inside root p]: [p] denotes a location in the subtree of [root]. *)
Definition inside (root p : string) : Prop :=
  ∃ r q, locate root = Some r ∧ locate p = Some (r ++ q).

(** The segments of an archive entry name, either separator. *)
Definition entrySegments (relativePath : string) : list string :=
  segments (JS.replaceBackslashes relativePath).

End PathSemantics.

(** ** Properties of a host *)

Section HostProperties.
Context {Vault : Type} `{Host Vault}.

(** One creation call, whatever its outcome. *)
Inductive step : Vault -> Vault -> Prop :=
| step_createFolder v p : step v (createFolder v p).1
| step_createBinary v p d : step v (createBinary v p d).1.

(** The vault as it may stand after any number of creation calls. *)
Definition reach : Vault -> Vault -> Prop := rtc step.

(** The directory that [ensureFolderExists p] looks up and creates. *)
Definition folderKey (p : string) : string := JS.trimSlashes p.

(** The folder that the re-check of line 281 finds, if any. *)
Definition recheck (v : Vault) (p : string) : option TFolder :=
  match getAbstractFileByPath v (folderKey p) with
  | Some (AFolder d) => Some d
  | _ => None
  end.

(** [p] is the root, or a folder of the vault [v]. *)
Definition isFolderIn (v : Vault) (p : string) : Prop :=
  folderKey p = "" ∨ ∃ d, getAbstractFileByPath v (folderKey p) = Some (AFolder d).

(** A host whose creation calls never touch an existing file. *)
Class NonDestructive : Prop := {
  createFolder_keeps_bytes v p q b :
    readBinary v q = Some b -> readBinary (createFolder v p).1 q = Some b;
  createBinary_keeps_bytes v p d q b :
    readBinary v q = Some b -> readBinary (createBinary v p d).1 q = Some b
}.

(** A host without transient behaviour: a refused call changes nothing,
    what exists keeps existing, a created folder is found, and what was
    refused once stays refused: a folder that could not be created is not
    created later, and a file whose creation was attempted in an existing
    folder (it was written, or the host refused it) is refused from then
    on. *)
Class Stable : Prop := {
  refused_folder_unchanged v p v' e :
    createFolder v p = (v', inl e) -> v' = v;
  refused_binary_unchanged v p d v' e :
    createBinary v p d = (v', inl e) -> v' = v;
  lookup_stable v w p x :
    step v w ->
    getAbstractFileByPath v p = Some x -> getAbstractFileByPath w p = Some x;
  created_folder_found v p v' d :
    createFolder v p = (v', inr d) ->
    ∃ d', getAbstractFileByPath v' p = Some (AFolder d');
  refused_folder_stays v p v' e w :
    createFolder v p = (v', inl e) ->
    (∀ d, getAbstractFileByPath v' p ≠ Some (AFolder d)) ->
    reach v' w ->
    (∀ d, getAbstractFileByPath w p ≠ Some (AFolder d))
    ∧ (getAbstractFileByPath w p = None ->
       ∃ e', createFolder w p = (w, inl e'));
  binary_created_once v p d v' r w :
    createBinary v p d = (v', r) ->
    isFolderIn v (parentPathOf p) ->
    reach v' w ->
    ∃ e', createBinary w p d = (w, inl e')
}.

(** The parent directory of the destination needs no creation: the loop
    does not ensure it, or it is a folder of the vault. *)
Definition parentReady (cleanTargetFolderPath normalizedDestPath : string)
    (st : LoopState) (v : Vault) : Prop :=
  let parentPath := parentPathOf normalizedDestPath in
  parentPath = "" ∨ parentPath = cleanTargetFolderPath
  ∨ parentPath ∈ folderPathsCreated st ∨ isFolderIn v parentPath.

(** The single-entry failures of the extraction, as the code meets them:
    the directory that an entry needs cannot be ensured (a file is in the
    way, or its creation fails); a folder occupies the destination of a
    file; [createBinary] throws something else than "file already
    exists". *)
Inductive EntryFailure : Type :=
| DirectoryConflict
| WriteConflict
| WriteError.

Inductive fails (cleanTargetFolderPath : string) (st : LoopState)
    (relativePath : string) (zipEntry : ZipObject) (v : Vault)
  : EntryFailure -> Prop :=
| fails_directory v' t :
    isIgnored relativePath = false ->
    dir zipEntry = true ->
    let dirPath :=
      dirPathOf (normalizedDestPath cleanTargetFolderPath relativePath) in
    truthy dirPath = true ->
    dirPath ∉ folderPathsCreated st ->
    ensureFolderExists dirPath v = (v', t, Normal None) ->
    fails cleanTargetFolderPath st relativePath zipEntry v DirectoryConflict
| fails_parent v' t :
    isIgnored relativePath = false ->
    dir zipEntry = false ->
    ensureParent cleanTargetFolderPath
      (normalizedDestPath cleanTargetFolderPath relativePath) st v
    = (v', t, Normal None) ->
    fails cleanTargetFolderPath st relativePath zipEntry v DirectoryConflict
| fails_write_conflict v' t st' d :
    isIgnored relativePath = false ->
    dir zipEntry = false ->
    let dest := normalizedDestPath cleanTargetFolderPath relativePath in
    ensureParent cleanTargetFolderPath dest st v = (v', t, Normal (Some st')) ->
    truthy (pathToCheckOf dest) = true ->
    getAbstractFileByPath v' (pathToCheckOf dest) = Some (AFolder d) ->
    fails cleanTargetFolderPath st relativePath zipEntry v WriteConflict
| fails_write_error v' t st' data v'' e :
    isIgnored relativePath = false ->
    dir zipEntry = false ->
    async zipEntry = inr data ->
    let dest := normalizedDestPath cleanTargetFolderPath relativePath in
    ensureParent cleanTargetFolderPath dest st v = (v', t, Normal (Some st')) ->
    truthy (pathToCheckOf dest) = true ->
    getAbstractFileByPath v' (pathToCheckOf dest) = None ->
    createBinary v' dest data = (v'', inl e) ->
    saysFileAlreadyExists e = false ->
    fails cleanTargetFolderPath st relativePath zipEntry v WriteError.

(** The look-up of line 410, as a trace. *)
Definition checkTrace (v : Vault) (dest : string) : list Event :=
  if truthy (pathToCheckOf dest)
  then [VaultGetAbstractFileByPath (pathToCheckOf dest)
          (getAbstractFileByPath v (pathToCheckOf dest))]
  else [].

(** The condition of line 389: the parent directory is to be ensured. *)
Definition needsParent (cleanTargetFolderPath normalizedDestPath : string)
    (st : LoopState) : bool :=
  let parentPath := parentPathOf normalizedDestPath in
  (truthy parentPath
   && negb (String.eqb parentPath cleanTargetFolderPath)
   && negb (has (folderPathsCreated st) parentPath))%bool.

(** The trace shows that the directory [p] was found or created. *)
Definition confirmedIn (t : list Event) (p : string) : Prop :=
  folderKey p = ""
  ∨ VaultCreateFolder (folderKey p) true ∈ t
  ∨ ∃ d, VaultGetAbstractFileByPath (folderKey p) (Some (AFolder d)) ∈ t.

(** Every memoised path is a folder of the vault. *)
Definition sound (st : LoopState) (v : Vault) : Prop :=
  ∀ p, p ∈ folderPathsCreated st -> isFolderIn v p.

(** [ensureFolderExists p] changes nothing in the vault [w]. *)
Definition ensureQuiet (p : string) (w : Vault) : Prop :=
  ∃ t r, ensureFolderExists p w = (w, t, Normal r)
         ∧ foldersCreated t = [] ∧ filesWritten t = []
         ∧ (∀ d, r = Some d -> isFolderIn w p).

(** [writeEntry dest data] changes nothing in the vault [w]. *)
Definition writeQuiet (dest : string) (data : ArrayBuffer) (w : Vault) : Prop :=
  ∀ st, ∃ t, writeEntry dest data st w = (w, t, Normal st)
             ∧ foldersCreated t = [] ∧ filesWritten t = [].

(** The iteration for an entry changes nothing in the vault [w], from any
    sound loop state. *)
Definition entryQuiet (cleanTargetFolderPath relativePath : string)
    (zipEntry : ZipObject) (w : Vault) : Prop :=
  ∀ st, sound st w ->
    ∃ t r, extractEntry cleanTargetFolderPath st relativePath zipEntry w
           = (w, t, r)
           ∧ foldersCreated t = [] ∧ filesWritten t = []
           ∧ (∀ st', r = Normal st' ->
                fileCount st' = fileCount st ∧ sound st' w)
           ∧ (∀ e, r = Throw e ->
                isIgnored relativePath = false ∧ dir zipEntry = false
                ∧ async zipEntry = inl e).

(** [Q] holds of [v] and of every vault that creation calls lead to. *)
Definition settled (Q : Vault -> Prop) (v : Vault) : Prop :=
  ∀ w, reach v w -> Q w.

(** An entry whose data can be read: a directory, or a file whose
    [async('arraybuffer')] resolves. *)
Definition readable (zipEntry : ZipObject) : Prop :=
  dir zipEntry = true ∨ ∃ data, async zipEntry = inr data.


End HostProperties.

(** ** Further observations and the dialogs of the plugin *)

(** The URLs requested, in order. *)
Definition requests (t : list Event) : list string :=
  omap (fun ev => match ev with RequestUrl url _ => Some url | _ => None end) t.

(** The creation calls issued, whatever their outcome. *)
Definition creationCalls (t : list Event) : list Event :=
  List.filter isCreationCall t.

(** A path as the vault names its folders: not empty, without backslash,
    without repeated slash, without trailing slash. *)
Definition plainPath (p : string) : Prop :=
  p ≠ ""
  ∧ JS.includes p "\" = false
  ∧ JS.includes p "//" = false
  ∧ JS.endsWithChar p JS.slash = false.

(** The calls that [ensureFolderExists p] may issue: look-ups and creations
    of its key. *)
Definition folderEvent (p : string) (ev : Event) : Prop :=
  match ev with
  | VaultGetAbstractFileByPath q _ | VaultCreateFolder q _ => q = folderKey p
  | VaultCreateBinary _ _ _ | RequestUrl _ _ | JSZipLoadAsync _ _ => False
  | _ => True
  end.

(** The calls that [writeEntry dest data] may issue: the look-up of the path
    to check and the creation of the file with the data. *)
Definition writeEvent (dest : string) (data : ArrayBuffer) (ev : Event)
  : Prop :=
  match ev with
  | VaultGetAbstractFileByPath q _ => q = pathToCheckOf dest
  | VaultCreateBinary p d _ => p = dest ∧ d = data
  | VaultCreateFolder _ _ | RequestUrl _ _ | JSZipLoadAsync _ _ => False
  | _ => True
  end.

(** The calls that the iteration for an entry may issue: for a directory
    entry, calls on its folder; for a file entry, calls on its parent
    folder, the look-up of its path to check, and the creation of the file
    with the data of the entry. *)
Definition callOfEntry (cleanTargetFolderPath relativePath : string)
    (zipEntry : ZipObject) (ev : Event) : Prop :=
  let dest := normalizedDestPath cleanTargetFolderPath relativePath in
  let folder := if dir zipEntry then dirPathOf dest else parentPathOf dest in
  isIgnored relativePath = false
  ∧ match ev with
    | VaultCreateBinary p d _ =>
        dir zipEntry = false ∧ async zipEntry = inr d ∧ p = dest
    | VaultCreateFolder q _ => q = folderKey folder
    | VaultGetAbstractFileByPath q _ =>
        q = folderKey folder ∨ (dir zipEntry = false ∧ q = pathToCheckOf dest)
    | _ => False
    end.

(** An entry whose data cannot be read. *)
Definition unreadable (relativePath : string) (zipEntry : ZipObject)
    (e : Error) : Prop :=
  isIgnored relativePath = false ∧ dir zipEntry = false
  ∧ async zipEntry = inl e.

(** An input of white space only: a sequence of the code points that
    [trim] removes. *)
Definition blank (value : string) : Prop :=
  ∃ ws, Forall (fun w => w ∈ JS.whiteSpace) ws
        ∧ value = foldr String.append "" ws.

Section Dialogs.
Context {Vault : Type} `{Host Vault}.

(** [UrlInputModal]: the [onChange] handler of the text field, main.ts
    lines 48-50; the result is the new value of [this.result]. *)
Definition onChange (value : string) : string := JS.trim value.

(** [UrlInputModal]: the [onClick] handler of the button, main.ts lines
    59-66, with the [onSubmit] that [showUrlInputModal] passes (lines
    301-303).  [result] is [this.result], empty while nothing was typed
    (line 31).  Closing the modal leaves no event. *)
Definition onClick (settings : CourseMaterialPluginSettings) (result : string)
  : M Vault unit :=
  if truthy result then downloadAndUnzip settings result
  else notice "Please enter a URL.".

(** [UrlInputModal]: the [keypress] listener, main.ts lines 69-79. *)
Definition onKeypress (settings : CourseMaterialPluginSettings) (key : string)
    (result : string) : M Vault unit :=
  if String.eqb key "Enter" then
    if truthy result then downloadAndUnzip settings result
    else notice "Please enter a URL."
  else ret tt.

End Dialogs.

(** [file instanceof TFolder], as a filter. *)
Definition asFolder (file : TAbstractFile) : option TFolder :=
  match file with
  | AFolder d => Some d
  | AFile _ => None
  end.

(** [folders.some(f => f.path === '/')] *)
Definition someRoot (folders : list TFolder) : bool :=
  existsb (fun f => String.eqb (path f) "/") folders.

(** [CourseMaterialSettingTab]: the folder list that the click on 'Change
    Folder' fetches, main.ts lines 192-198, from
    [this.app.vault.getAllLoadedFiles()] and [this.app.vault.getRoot()]. *)
Definition currentFolders (loaded : list TAbstractFile) (root : TFolder)
  : list TFolder :=
  let folders := omap asFolder loaded in
  if negb (someRoot folders) then root :: folders else folders.

(** [FolderSuggestModal.getItems()], main.ts lines 109-125, without its
    console lines; [preFetchedFolders] is [None] for [null] (an array, even
    empty, is true in a condition). *)
Definition getItems (preFetchedFolders : option (list TFolder))
    (loaded : list TAbstractFile) (root : TFolder) : list TFolder :=
  match preFetchedFolders with
  | Some folders => folders
  | None =>
      let folders := omap asFolder loaded in
      if negb (someRoot folders) then root :: folders else folders
  end.

(** ** Facts about paths *)

Section StringFacts.

Lemma truthy_true s : truthy s = true <-> s ≠ "".
Proof.
  unfold truthy. rewrite negb_true_iff. apply String.eqb_neq.
Qed.

Lemma truthy_false s : truthy s = false <-> s = "".
Proof.
  unfold truthy. rewrite negb_false_iff. apply String.eqb_eq.
Qed.

Lemma split_nonempty sep s : JS.split sep s ≠ [].
Proof.
  destruct s as [|c s]; simpl; [done|].
  destruct (Ascii.eqb c sep); [done|]. by destruct (JS.split sep s).
Qed.

Lemma split_app sep a b :
  JS.split sep (a +:+ String sep b) = JS.split sep a ++ JS.split sep b.
Proof.
  induction a as [|c a IH]; simpl.
  - by rewrite Ascii.eqb_refl.
  - destruct (Ascii.eqb c sep); [by rewrite IH|].
    rewrite IH. pose proof (split_nonempty sep a).
    by destruct (JS.split sep a).
Qed.

Lemma segments_app a b :
  PathSemantics.segments (a +:+ "/" +:+ b)
  = PathSemantics.segments a ++ PathSemantics.segments b.
Proof.
  unfold PathSemantics.segments.
  change ("/" +:+ b) with (String JS.slash b).
  by rewrite split_app, filter_app.
Qed.

Lemma split_collapse s :
  ∃ hd tl tl',
    JS.split JS.slash s = hd :: tl
    ∧ JS.split JS.slash (JS.collapseSlashes s) = hd :: tl'
    ∧ filter (fun x => x ≠ EmptyString) tl
      = filter (fun x => x ≠ EmptyString) tl'.
Proof.
  induction s as [|c s (hd & tl & tl' & E1 & E2 & E3)].
  { by exists "", [], []. }
  destruct (Ascii.eqb c JS.slash) eqn:Hc.
  - apply Ascii.eqb_eq in Hc as ->.
    destruct s as [|d s].
    { by exists "", [""], [""]. }
    change (JS.collapseSlashes (String JS.slash (String d s)))
      with (if Ascii.eqb d JS.slash then JS.collapseSlashes (String d s)
            else String JS.slash (JS.collapseSlashes (String d s))).
    change (JS.split JS.slash (String JS.slash (String d s)))
      with ("" :: JS.split JS.slash (String d s)).
    destruct (Ascii.eqb d JS.slash) eqn:Hd.
    + apply Ascii.eqb_eq in Hd as ->.
      assert (hd = "") as -> by (simpl in E1; congruence).
      exists "", ("" :: tl), tl'. rewrite E1, E2. done.
    + exists "", (hd :: tl), (hd :: tl').
      change (JS.split JS.slash (String JS.slash ?x))
        with ("" :: JS.split JS.slash x).
      rewrite E1, E2. split; [done|]. split; [done|].
      rewrite !filter_cons. by rewrite E3.
  - exists (String c hd), tl, tl'. simpl. rewrite Hc.
    fold (JS.collapseSlashes s). 
    simpl. rewrite Hc. rewrite E1, E2. done.
Qed.

Lemma segments_collapse s :
  PathSemantics.segments (JS.collapseSlashes s) = PathSemantics.segments s.
Proof.
  destruct (split_collapse s) as (hd & tl & tl' & E1 & E2 & E3).
  unfold PathSemantics.segments. rewrite E1, E2, !filter_cons.
  by rewrite E3.
Qed.

Lemma replaceBackslashes_app a b :
  JS.replaceBackslashes (a +:+ b)
  = JS.replaceBackslashes a +:+ JS.replaceBackslashes b.
Proof. induction a as [|c a IH]; simpl; [done|]. by rewrite IH. Qed.

(** The segments of the destination are those of the target followed by
    those of the entry name. *)
Lemma segments_normalizedDestPath cleanTargetFolderPath relativePath :
  PathSemantics.segments (normalizedDestPath cleanTargetFolderPath relativePath)
  = PathSemantics.entrySegments cleanTargetFolderPath
    ++ PathSemantics.entrySegments relativePath.
Proof.
  unfold normalizedDestPath, fullDestPath, PathSemantics.entrySegments.
  rewrite segments_collapse.
  destruct (truthy cleanTargetFolderPath) eqn:Ht.
  - rewrite !replaceBackslashes_app. apply segments_app.
  - apply truthy_false in Ht as ->. done.
Qed.

Lemma walk_no_dotdot here segs :
  ".." ∉ segs ->
  PathSemantics.walk here segs
  = Some (reverse (filter (fun s => s ≠ ".") segs) ++ here).
Proof.
  revert here. induction segs as [|seg segs IH]; intros here Hno; [done|].
  apply not_elem_of_cons in Hno as [Hne Hno]. simpl.
  rewrite bool_decide_eq_false_2 by done.
  rewrite filter_cons. case_bool_decide as Hdot.
  - subst seg. rewrite decide_False by naive_solver. by apply IH.
  - rewrite decide_True by done. rewrite IH by done.
    by rewrite reverse_cons, <- app_assoc.
Qed.

Lemma walk_app here a b :
  PathSemantics.walk here (a ++ b)
  = PathSemantics.walk here a ≫= fun there => PathSemantics.walk there b.
Proof.
  revert here. induction a as [|seg a IH]; intros here; [done|]. simpl.
  case_bool_decide; [destruct here; [done|apply IH]|].
  case_bool_decide; apply IH.
Qed.


Lemma lastIndexOfFrom_bound c s i acc :
  acc < i ->
  JS.lastIndexOfFrom c s i acc = acc
  ∨ (i <= JS.lastIndexOfFrom c s i acc < i + Z.of_nat (String.length s)).
Proof.
  revert i acc. induction s as [|d s IH]; intros i acc Hlt; simpl; [by left|].
  destruct (Ascii.eqb d c).
  - destruct (IH (i + 1) i) as [->|?]; lia.
  - destruct (IH (i + 1) acc) as [->|?]; lia.
Qed.

Lemma lastIndexOfFrom_first c s i acc :
  acc < i -> JS.lastIndexOfFrom c s i acc = i ->
  ∃ s', s = String c s'.
Proof.
  destruct s as [|d s]; simpl; [lia|]. intros Hlt Heq.
  destruct (Ascii.eqb_spec d c) as [->|Hne]; [eauto|].
  destruct (lastIndexOfFrom_bound c s (i + 1) acc) as [E|E]; lia.
Qed.

Lemma length_substring0 n s : (String.length (JS.substring0 n s) <= n)%nat.
Proof.
  revert s. induction n as [|n IH]; intros [|c s]; simpl; try lia.
  specialize (IH s). lia.
Qed.

Lemma length_sliceInit s :
  (String.length (JS.sliceInit s) <= String.length s)%nat.
Proof.
  induction s as [|c s IH]; simpl; [lia|]. destruct s; simpl in *; lia.
Qed.

Lemma length_trimSlashes s :
  (String.length (JS.trimSlashes s) <= String.length s)%nat
  ∧ (JS.startsWith s "/" = true ->
     (String.length (JS.trimSlashes s) < String.length s)%nat).
Proof.
  unfold JS.trimSlashes.
  destruct (JS.startsWith s "/") eqn:Hs.
  - destruct s as [|c s]; [done|]. simpl.
    pose proof (length_sliceInit s).
    destruct (JS.endsWithChar s JS.slash); lia.
  - pose proof (length_sliceInit s).
    destruct (JS.endsWithChar s JS.slash); split; try lia; done.
Qed.

Lemma startsWith_slash s :
  JS.startsWith s "/" = true <-> ∃ s', s = String "/" s'.
Proof.
  destruct s as [|c s]; cbn [JS.startsWith].
  - split; [done|]. by intros [? ?].
  - destruct (Ascii.eqb_spec "/" c) as [<-|Hne].
    + split; [eauto|]. by destruct s.
    + split; [done|]. intros [? ?]. congruence.
Qed.

Lemma pathToCheckOf_slash s : pathToCheckOf (String "/" s) = s.
Proof.
  unfold pathToCheckOf.
  assert (JS.startsWith (String "/" s) "/" = true) as ->; [|done].
  apply startsWith_slash. eauto.
Qed.

Lemma pathToCheckOf_other s :
  JS.startsWith s "/" = false -> pathToCheckOf s = s.
Proof. unfold pathToCheckOf. by intros ->. Qed.

(** The path that [writeEntry] looks up is never the one under which the
    parent directory is looked up and created. *)
Lemma pathToCheck_not_parent_key dest :
  pathToCheckOf dest ≠ "" ->
  pathToCheckOf dest ≠ folderKey (parentPathOf dest).
Proof.
  intros Hne Heq. apply (f_equal String.length) in Heq.
  unfold folderKey, parentPathOf, JS.lastIndexOf in Heq.
  pose proof (lastIndexOfFrom_bound JS.slash dest 0 (-1)) as Hb.
  pose proof (lastIndexOfFrom_first JS.slash dest 0 (-1)) as Hf.
  set (i := JS.lastIndexOfFrom JS.slash dest 0 (-1)) in *.
  destruct (JS.startsWith dest "/") eqn:Hs.
  - apply startsWith_slash in Hs as [s' ->].
    rewrite pathToCheckOf_slash in *.
    destruct (Z.ltb_spec 0 i) as [Hpos|Hnpos].
    + destruct (Z.to_nat i) as [|n] eqn:Hn; [lia|].
      cbn [JS.substring0] in Heq.
      pose proof (length_substring0 n s') as Hl.
      pose proof (length_trimSlashes (String "/" (JS.substring0 n s')))
        as [_ Ht].
      cbn [String.length] in *.
      assert (JS.startsWith (String "/" (JS.substring0 n s')) "/" = true) as Hst
        by (apply startsWith_slash; eauto).
      specialize (Ht Hst). lia.
    + destruct (Z.eqb_spec i 0); by destruct s'.
  - rewrite pathToCheckOf_other in * by done.
    destruct (Z.ltb_spec 0 i) as [Hpos|Hnpos].
    + pose proof (length_substring0 (Z.to_nat i) dest) as Hl.
      pose proof (length_trimSlashes (JS.substring0 (Z.to_nat i) dest))
        as [Ht _].
      lia.
    + destruct (Z.eqb_spec i 0) as [Hz|Hnz].
      * destruct Hf as [s' ->]; [lia|done|].
        assert (JS.startsWith (String JS.slash s') "/" = true)
          by (apply startsWith_slash; eauto).
        congruence.
      * by destruct dest.
Qed.

End StringFacts.

(** ** Equations of [ensureFolderExists] *)

Section EnsureFolder.
Context {Vault : Type} `{Host Vault}.

Lemma folderKey_nonroot p :
  folderKey p ≠ "" ->
  (String.eqb p "/" || String.eqb p "")%bool = false
  ∧ String.eqb (JS.trimSlashes p) "" = false.
Proof.
  intros Hk. split.
  - destruct (String.eqb_spec p "/") as [->|]; [by destruct Hk|].
    destruct (String.eqb_spec p "") as [->|]; [by destruct Hk|]. done.
  - by apply String.eqb_neq.
Qed.

Lemma ensure_root p v :
  folderKey p = "" ->
  ensureFolderExists p v = (v, [], Normal (Some (getRoot v))).
Proof.
  unfold folderKey, ensureFolderExists. intros ->.
  by destruct (String.eqb p "/" || String.eqb p "")%bool.
Qed.

Lemma ensure_found_folder p v d :
  folderKey p ≠ "" ->
  getAbstractFileByPath v (folderKey p) = Some (AFolder d) ->
  ensureFolderExists p v
  = (v, [VaultGetAbstractFileByPath (folderKey p) (Some (AFolder d))],
     Normal (Some d)).
Proof.
  intros [E1 E2]%folderKey_nonroot Hget.
  unfold ensureFolderExists, folderKey in *. rewrite E1, E2.
  unfold tryCatch, bind, vaultGetAbstractFileByPath. by rewrite Hget.
Qed.

Lemma ensure_found_file p v f :
  folderKey p ≠ "" ->
  getAbstractFileByPath v (folderKey p) = Some (AFile f) ->
  ∃ t, ensureFolderExists p v = (v, t, Normal None)
       ∧ (∃ m, NewNotice m ∈ t) ∧ (∃ m, ConsoleError m ∈ t)
       ∧ Forall (fun ev => isCreationCall ev = false) t.
Proof.
  intros [E1 E2]%folderKey_nonroot Hget.
  unfold ensureFolderExists, folderKey in *. rewrite E1, E2.
  unfold tryCatch, bind, vaultGetAbstractFileByPath. rewrite Hget. simpl.
  eexists. split; [done|]. split; [|split].
  - eexists. apply list_elem_of_In. simpl. eauto.
  - eexists. apply list_elem_of_In. simpl. eauto.
  - repeat constructor.
Qed.

Lemma ensure_created p v v' d :
  folderKey p ≠ "" ->
  getAbstractFileByPath v (folderKey p) = None ->
  createFolder v (folderKey p) = (v', inr d) ->
  ensureFolderExists p v
  = (v', [VaultGetAbstractFileByPath (folderKey p) None;
          ConsoleLog ("Attempting to create folder: " +:+ folderKey p);
          VaultCreateFolder (folderKey p) true;
          NewNotice ("Created folder: " +:+ folderKey p)],
     Normal (Some d)).
Proof.
  intros [E1 E2]%folderKey_nonroot Hget Hmk.
  unfold ensureFolderExists, folderKey in *. rewrite E1, E2.
  unfold tryCatch, bind, vaultGetAbstractFileByPath, vaultCreateFolder.
  rewrite Hget. simpl. by rewrite Hmk.
Qed.

Lemma ensure_refused p v v' e :
  folderKey p ≠ "" ->
  getAbstractFileByPath v (folderKey p) = None ->
  createFolder v (folderKey p) = (v', inl e) ->
  ∃ t, ensureFolderExists p v = (v', t, Normal (recheck v' p))
       ∧ foldersCreated t = [] ∧ filesWritten t = []
       ∧ (∃ m, ConsoleError m ∈ t)
       ∧ (recheck v' p = None -> ∃ m, NewNotice m ∈ t)
       ∧ (∀ d, recheck v' p = Some d ->
               VaultGetAbstractFileByPath (folderKey p) (Some (AFolder d)) ∈ t).
Proof.
  intros [E1 E2]%folderKey_nonroot Hget Hmk.
  unfold ensureFolderExists, recheck. unfold folderKey in *. rewrite E1, E2.
  unfold tryCatch, bind, vaultGetAbstractFileByPath, vaultCreateFolder.
  rewrite Hget. simpl. rewrite Hmk. simpl.
  destruct (getAbstractFileByPath v' (JS.trimSlashes p)) as [[f|d]|] eqn:Hre;
    simpl; eexists; (split; [reflexivity|]);
    (split; [done|]); (split; [done|]);
    (split; [eexists; apply list_elem_of_In; simpl; eauto 10|]);
    (split; [try done; intros _; eexists; apply list_elem_of_In; simpl;
             eauto 10|]);
    intros d' Hd'; simplify_eq; apply list_elem_of_In; simpl; eauto 10.
Qed.

End EnsureFolder.

(** ** Equations of the loop body *)

Section LoopBody.
Context {Vault : Type} `{Host Vault}.

Lemma has_true (S : gset string) p : has S p = true <-> p ∈ S.
Proof. unfold has. by rewrite bool_decide_eq_true. Qed.

Lemma has_false (S : gset string) p : has S p = false <-> p ∉ S.
Proof. unfold has. by rewrite bool_decide_eq_false. Qed.

(** [ensureFolderExists] never throws, and only a creation call can
    change the vault. *)
Lemma ensure_cases p v :
  ∃ v' t r,
    ensureFolderExists p v = (v', t, Normal r)
    ∧ filesWritten t = []
    ∧ ((v' = v ∧ foldersCreated t = []
        ∧ Forall (fun ev => isCreationCall ev = false) t
        ∧ ((folderKey p = "" ∧ t = [] ∧ r = Some (getRoot v))
           ∨ (folderKey p ≠ "" ∧ notices t = []
              ∧ ∃ d, getAbstractFileByPath v (folderKey p) = Some (AFolder d)
                     ∧ t = [VaultGetAbstractFileByPath (folderKey p)
                              (Some (AFolder d))]
                     ∧ r = Some d)
           ∨ (folderKey p ≠ "" ∧ r = None
              ∧ (∃ f, getAbstractFileByPath v (folderKey p) = Some (AFile f))
              ∧ (∃ m, NewNotice m ∈ t) ∧ (∃ m, ConsoleError m ∈ t))))
       ∨ (folderKey p ≠ ""
          ∧ getAbstractFileByPath v (folderKey p) = None
          ∧ ((∃ d, createFolder v (folderKey p) = (v', inr d)
                   ∧ r = Some d
                   ∧ VaultCreateFolder (folderKey p) true ∈ t)
             ∨ (∃ e, createFolder v (folderKey p) = (v', inl e)
                     ∧ r = recheck v' p
                     ∧ foldersCreated t = []
                     ∧ (∃ m, ConsoleError m ∈ t)
                     ∧ (r = None -> ∃ m, NewNotice m ∈ t)
                     ∧ (∀ d, r = Some d ->
                             VaultGetAbstractFileByPath (folderKey p)
                               (Some (AFolder d)) ∈ t))))).
Proof.
  destruct (decide (folderKey p = "")) as [Hk|Hk].
  { exists v, [], (Some (getRoot v)). rewrite ensure_root by done.
    split; [done|]. split; [done|]. left. repeat split; try done. by left. }
  destruct (getAbstractFileByPath v (folderKey p)) as [[f|d]|] eqn:Hget.
  - destruct (ensure_found_file p v f Hk Hget) as (t & Heq & Hn & He & Hc).
    exists v, t, None. split; [done|].
    assert (filesWritten t = [] ∧ foldersCreated t = []) as [??].
    { clear -Hc. induction Hc as [|ev t Hev _ [IH1 IH2]]; [done|].
      destruct ev as [| | | | | |? ? []| |]; simpl in *; try done;
        destruct ok; simpl in *; done. }
    split; [done|]. left. repeat split; try done.
    right; right. eauto 10.
  - exists v, [VaultGetAbstractFileByPath (folderKey p) (Some (AFolder d))],
      (Some d).
    rewrite (ensure_found_folder p v d) by done.
    split; [done|]. split; [done|]. left. repeat split; try done.
    { by repeat constructor. }
    right; left. eauto 10.
  - destruct (createFolder v (folderKey p)) as [v' [e|d]] eqn:Hmk.
    + destruct (ensure_refused p v v' e Hk Hget Hmk)
        as (t & Heq & Hfc & Hfw & Herr & Hnot & Hfound).
      exists v', t, (recheck v' p). split; [done|]. split; [done|].
      right. split; [done|]. split; [done|]. right. exists e.
      split; [done|]. split; [done|]. split; [done|]. split; [done|].
      split; done.
    + rewrite (ensure_created p v v' d) by done.
      eexists v', _, (Some d). split; [reflexivity|]. split; [done|].
      right. split; [done|]. split; [done|].
      left. exists d. repeat split. apply list_elem_of_In. simpl. eauto.
Qed.

Lemma ensureParent_skip cleanTargetFolderPath dest st v :
  needsParent cleanTargetFolderPath dest st = false ->
  ensureParent cleanTargetFolderPath dest st v = (v, [], Normal (Some st)).
Proof.
  unfold needsParent, ensureParent. by intros ->.
Qed.

Lemma ensureParent_call cleanTargetFolderPath dest st v v' t r :
  needsParent cleanTargetFolderPath dest st = true ->
  ensureFolderExists (parentPathOf dest) v = (v', t, Normal r) ->
  ∃ m, ensureParent cleanTargetFolderPath dest st v
       = (v', t ++ match r with Some _ => [] | None => [ConsoleWarn m] end,
          Normal (match r with
                  | Some _ => Some (addFolder (parentPathOf dest) st)
                  | None => None
                  end)).
Proof.
  unfold needsParent, ensureParent. intros -> Hens.
  unfold bind. rewrite Hens. destruct r; simpl; [by exists ""|eauto].
Qed.

Lemma extractDirectory_skip dest st v :
  (truthy (dirPathOf dest)
   && negb (has (folderPathsCreated st) (dirPathOf dest)))%bool = false ->
  extractDirectory dest st v = (v, [], Normal st).
Proof. unfold extractDirectory. by intros ->. Qed.

Lemma extractDirectory_call dest st v v' t r :
  (truthy (dirPathOf dest)
   && negb (has (folderPathsCreated st) (dirPathOf dest)))%bool = true ->
  ensureFolderExists (dirPathOf dest) v = (v', t, Normal r) ->
  ∃ m, extractDirectory dest st v
       = (v', t ++ match r with Some _ => [] | None => [ConsoleWarn m] end,
          Normal (match r with
                  | Some _ => addFolder (dirPathOf dest) st
                  | None => st
                  end)).
Proof.
  unfold extractDirectory. intros -> Hens.
  unfold bind. rewrite Hens. destruct r; simpl; [by exists ""|eauto].
Qed.

(** The conflict policy, case by case. *)
Lemma writeEntry_root dest data st v :
  pathToCheckOf dest = "" -> dest = "/" ->
  ∃ m, writeEntry dest data st v = (v, [ConsoleWarn m], Normal st).
Proof.
  intros Hc ->. unfold writeEntry. rewrite Hc. simpl. eauto.
Qed.

Lemma writeEntry_existing_file dest data st v f :
  truthy (pathToCheckOf dest) = true ->
  getAbstractFileByPath v (pathToCheckOf dest) = Some (AFile f) ->
  writeEntry dest data st v
  = (v, [VaultGetAbstractFileByPath (pathToCheckOf dest) (Some (AFile f));
         ConsoleLog ("Skipping extraction for existing file: " +:+ dest)],
     Normal st).
Proof.
  intros Ht Hget. unfold writeEntry. rewrite Ht.
  apply truthy_true, String.eqb_neq in Ht. rewrite Ht. simpl.
  unfold bind, vaultGetAbstractFileByPath. by rewrite Hget.
Qed.

Lemma writeEntry_existing_folder dest data st v d :
  truthy (pathToCheckOf dest) = true ->
  getAbstractFileByPath v (pathToCheckOf dest) = Some (AFolder d) ->
  writeEntry dest data st v
  = (v, [VaultGetAbstractFileByPath (pathToCheckOf dest) (Some (AFolder d));
         ConsoleError ("Skipping file write: A folder exists at path " +:+ dest);
         NewNotice ("Skipping file write: Folder exists at " +:+ dest)],
     Normal st).
Proof.
  intros Ht Hget. unfold writeEntry. rewrite Ht.
  apply truthy_true, String.eqb_neq in Ht. rewrite Ht. simpl.
  unfold bind, vaultGetAbstractFileByPath. by rewrite Hget.
Qed.

Lemma writeEntry_absent dest data st v :
  ¬ (pathToCheckOf dest = "" ∧ dest = "/") ->
  (truthy (pathToCheckOf dest) = true ->
   getAbstractFileByPath v (pathToCheckOf dest) = None) ->
  ∃ t,
    (∀ v', createBinary v dest data = (v', inr tt) ->
       writeEntry dest data st v
       = (v', checkTrace v dest
              ++ [ConsoleLog ("Creating new file: " +:+ dest);
                  VaultCreateBinary dest data true],
          Normal (countFile st)))
    ∧ (∀ v' e, createBinary v dest data = (v', inl e) ->
         writeEntry dest data st v
         = (v', checkTrace v dest
                ++ ConsoleLog ("Creating new file: " +:+ dest)
                   :: VaultCreateBinary dest data false :: t e,
            Normal st)
         ∧ Forall (fun ev => isCall ev = false) (t e)
         ∧ (saysFileAlreadyExists e = false ->
            (∃ m, NewNotice m ∈ t e) ∧ (∃ m, ConsoleError m ∈ t e))).
Proof.
  intros Hroot Hget.
  exists (fun e =>
    if saysFileAlreadyExists e then
      [ConsoleWarn ("Caught 'File already exists' on createBinary for "
                    +:+ dest +:+ ". Skipping.")]
    else [ConsoleError ("Error creating file '" +:+ dest +:+ "':");
          NewNotice ("Error creating file '" +:+ dest +:+ "'. Check console.")]).
  assert ((String.eqb (pathToCheckOf dest) "" && String.eqb dest "/")%bool
          = false) as Hb.
  { apply andb_false_iff.
    destruct (String.eqb_spec (pathToCheckOf dest) "") as [E1|]; [|by left].
    destruct (String.eqb_spec dest "/") as [E2|]; [|by right].
    by destruct Hroot. }
  split.
  - intros v' Hmk. unfold writeEntry, checkTrace. rewrite Hb.
    destruct (truthy (pathToCheckOf dest)) eqn:Ht.
    + unfold bind, tryCatch, vaultGetAbstractFileByPath, vaultCreateBinary,
        consoleLog, emit, ret.
      rewrite Hget by done. simpl. by rewrite Hmk.
    + unfold bind, tryCatch, vaultGetAbstractFileByPath, vaultCreateBinary,
        consoleLog, emit, ret. simpl. by rewrite Hmk.
  - intros v' e Hmk. split; [|split].
    + unfold writeEntry, checkTrace. rewrite Hb.
      destruct (truthy (pathToCheckOf dest)) eqn:Ht;
        unfold bind, tryCatch, vaultGetAbstractFileByPath, vaultCreateBinary,
          consoleLog, consoleWarn, consoleError, notice, emit, ret;
        rewrite ?Hget by done; simpl; rewrite Hmk;
        by destruct (saysFileAlreadyExists e).
    + destruct (saysFileAlreadyExists e); repeat constructor.
    + intros ->. split; eexists; apply list_elem_of_In; simpl; eauto.
Qed.

End LoopBody.

(** ** The guards of [downloadAndUnzip] and of the loop *)

Section Guards.
Context {Vault : Type} `{Host Vault}.

(** C10.  A URL that starts neither with [http://] nor with [https://]
    makes [downloadAndUnzip] return after a single notice: the trace holds
    no request, no vault call, and the vault is the one it was given. *)
Theorem invalid_url_returns_at_once settings url v :
  JS.startsWith url "http://" = false ->
  JS.startsWith url "https://" = false ->
  downloadAndUnzip settings url v
  = (v, [NewNotice "Invalid URL received. Must start with http:// or https://"],
     Normal tt).
Proof.
  intros H1 H2. unfold downloadAndUnzip. by rewrite H1, H2.
Qed.

(** C4.  An entry whose name starts with [__MACOSX/], whose last segment
    is [.DS_Store], or whose name is empty leaves the vault and the loop
    state as they are, whatever the vault holds; the only events are
    console logs: no vault call, no warning, no notice. *)
Theorem metadata_entry_dropped cleanTargetFolderPath st relativePath zipEntry v :
  JS.startsWith relativePath "__MACOSX/" = true
  ∨ JS.pop (JS.split JS.slash relativePath) = ".DS_Store"
  ∨ relativePath = "" ->
  ∃ t, extractEntry cleanTargetFolderPath st relativePath zipEntry v
       = (v, t, Normal st)
       ∧ Forall (fun ev => ∃ m, ev = ConsoleLog m) t.
Proof.
  intros Hcase. unfold extractEntry.
  assert (isIgnored relativePath = true) as ->.
  { unfold isIgnored. destruct Hcase as [->| [->| ->]]; [done| |done].
    by rewrite orb_true_r. }
  unfold bind, when, ret, consoleLog, emit.
  destruct (JS.startsWith relativePath "__MACOSX/"),
    (String.eqb (JS.pop (JS.split JS.slash relativePath)) ".DS_Store");
    simpl; eexists; (split; [reflexivity|]); repeat constructor; eauto.
Qed.


(** C8.  When the first look-up finds nothing and [createFolder] throws,
    [ensureFolderExists] returns what the re-check finds: the folder if
    there is one now, and [null] only if there is none. *)
Theorem creation_race_recovered p v v' e :
  folderKey p ≠ "" ->
  getAbstractFileByPath v (folderKey p) = None ->
  createFolder v (folderKey p) = (v', inl e) ->
  (∀ d, getAbstractFileByPath v' (folderKey p) = Some (AFolder d) ->
        ∃ t, ensureFolderExists p v = (v', t, Normal (Some d)))
  ∧ ((∀ d, getAbstractFileByPath v' (folderKey p) ≠ Some (AFolder d)) ->
     ∃ t, ensureFolderExists p v = (v', t, Normal None)).
Proof.
  intros Hk Hget Hmk.
  destruct (ensure_refused p v v' e Hk Hget Hmk) as (t & Heq & _).
  unfold recheck in Heq. split.
  - intros d Hd. rewrite Hd in Heq. eauto.
  - intros Hno. exists t. rewrite Heq.
    destruct (getAbstractFileByPath v' (folderKey p)) as [[f|d]|]; try done.
    by destruct (Hno d).
Qed.

End Guards.

Lemma invalid_url_returns_at_once_witness :
  @downloadAndUnzip _ (MemVault.host MemVault.corrupt) DEFAULT_SETTINGS
    "ftp://example.org/module.zip" ∅
  = (∅, [NewNotice "Invalid URL received. Must start with http:// or https://"],
     Normal tt).
Proof.
  apply (@invalid_url_returns_at_once _ (MemVault.host MemVault.corrupt));
    reflexivity.
Defined.

Lemma metadata_entry_dropped_witness :
  ∃ t, @extractEntry _ (MemVault.host MemVault.corrupt) "Course Modules"
         initialLoopState "__MACOSX/foo.txt" (fileEntry [Byte.x41]) ∅
       = (∅, t, Normal initialLoopState)
       ∧ Forall (fun ev => ∃ m, ev = ConsoleLog m) t.
Proof.
  apply (@metadata_entry_dropped _ (MemVault.host MemVault.corrupt)).
  left. reflexivity.
Defined.



Lemma creation_race_recovered_witness :
  (∀ d, @getAbstractFileByPath _ (MemVault.host (MemVault.racing "week1"))
          {["week1" := MemVault.FolderNode]} (folderKey "week1/")
        = Some (AFolder d) ->
        ∃ t, @ensureFolderExists _ (MemVault.host (MemVault.racing "week1"))
               "week1/" ∅
             = ({["week1" := MemVault.FolderNode]}, t, Normal (Some d)))
  ∧ ((∀ d, @getAbstractFileByPath _ (MemVault.host (MemVault.racing "week1"))
             {["week1" := MemVault.FolderNode]} (folderKey "week1/")
           ≠ Some (AFolder d)) ->
     ∃ t, @ensureFolderExists _ (MemVault.host (MemVault.racing "week1"))
            "week1/" ∅
          = ({["week1" := MemVault.FolderNode]}, t, Normal None)).
Proof.
  apply (@creation_race_recovered _ (MemVault.host (MemVault.racing "week1"))
           "week1/" ∅ _ {| message := Some "Folder already exists." |}).
  - discriminate.
  - reflexivity.
  - reflexivity.
Defined.

(** ** One iteration of the loop *)

Section Entry.
Context {Vault : Type} `{Host Vault}.

Lemma bind_assoc {A B C} (m : M Vault A) (f : A -> M Vault B)
    (g : B -> M Vault C) v :
  bind (bind m f) g v = bind m (fun x => bind (f x) g) v.
Proof.
  unfold bind. destruct (m v) as [[v1 t1] [a|e]]; [|done].
  destruct (f a v1) as [[v2 t2] [b|e]]; [|done].
  destruct (g b v2) as [[v3 t3] r]. by rewrite app_assoc.
Qed.

Lemma bind_ret_l {A B} (a : A) (f : A -> M Vault B) v :
  bind (ret a) f v = f a v.
Proof. unfold bind, ret. by destruct (f a v) as [[??]?]. Qed.

Lemma extractEntry_dir cleanTargetFolderPath st relativePath zipEntry v :
  isIgnored relativePath = false ->
  dir zipEntry = true ->
  extractEntry cleanTargetFolderPath st relativePath zipEntry v
  = extractDirectory (normalizedDestPath cleanTargetFolderPath relativePath) st v.
Proof. unfold extractEntry. by intros -> ->. Qed.

Lemma extractEntry_file cleanTargetFolderPath st relativePath zipEntry data v :
  isIgnored relativePath = false ->
  dir zipEntry = false ->
  async zipEntry = inr data ->
  extractEntry cleanTargetFolderPath st relativePath zipEntry v
  = bind (ensureParent cleanTargetFolderPath
            (normalizedDestPath cleanTargetFolderPath relativePath) st)
         (fun parent =>
            match parent with
            | None => ret st
            | Some st1 =>
                writeEntry (normalizedDestPath cleanTargetFolderPath relativePath)
                  data st1
            end) v.
Proof.
  unfold extractEntry, extractFile. intros -> -> Hd.
  unfold bind at 1. unfold zipEntryAsync. rewrite Hd.
  by destruct (bind _ _ v) as [[??]?].
Qed.

Lemma extractEntry_unreadable cleanTargetFolderPath st relativePath zipEntry e v :
  isIgnored relativePath = false ->
  dir zipEntry = false ->
  async zipEntry = inl e ->
  extractEntry cleanTargetFolderPath st relativePath zipEntry v
  = (v, [], Throw e).
Proof.
  unfold extractEntry, extractFile. intros -> -> Hd.
  unfold bind, zipEntryAsync. by rewrite Hd.
Qed.

Lemma extractEntry_ignored cleanTargetFolderPath st relativePath zipEntry v :
  isIgnored relativePath = true ->
  ∃ t, extractEntry cleanTargetFolderPath st relativePath zipEntry v
       = (v, t, Normal st)
       ∧ Forall (fun ev => ∃ m, ev = ConsoleLog m) t.
Proof.
  intros Hi. unfold extractEntry. rewrite Hi.
  unfold bind, when, ret, consoleLog, emit.
  destruct (JS.startsWith relativePath "__MACOSX/"),
    (String.eqb (JS.pop (JS.split JS.slash relativePath)) ".DS_Store");
    simpl; eexists; (split; [reflexivity|]); repeat constructor; eauto.
Qed.

Lemma needsParent_true cleanTargetFolderPath dest st :
  needsParent cleanTargetFolderPath dest st = true <->
  parentPathOf dest ≠ "" ∧ parentPathOf dest ≠ cleanTargetFolderPath
  ∧ parentPathOf dest ∉ folderPathsCreated st.
Proof.
  unfold needsParent.
  rewrite !andb_true_iff, !negb_true_iff, truthy_true, has_false.
  rewrite String.eqb_neq. tauto.
Qed.

Lemma ensure_folder_present p v :
  isFolderIn v p ->
  ∃ t d, ensureFolderExists p v = (v, t, Normal (Some d))
         ∧ Forall (fun ev => isCreationCall ev = false ∧ isReport ev = false) t.
Proof.
  intros Hin. destruct (decide (folderKey p = "")) as [Hk|Hk].
  - rewrite ensure_root by done. by eexists [], _.
  - destruct Hin as [?|[d Hd]]; [done|].
    rewrite (ensure_found_folder p v d) by done.
    eexists _, _. split; [done|]. by repeat constructor.
Qed.

(** When the parent directory is ready, the parent phase only looks it up. *)
Lemma ensureParent_ready cleanTargetFolderPath dest st v :
  parentReady cleanTargetFolderPath dest st v ->
  ∃ tp stp,
    ensureParent cleanTargetFolderPath dest st v = (v, tp, Normal (Some stp))
    ∧ fileCount stp = fileCount st
    ∧ Forall (fun ev => isCreationCall ev = false ∧ isReport ev = false) tp.
Proof.
  intros Hready.
  destruct (needsParent cleanTargetFolderPath dest st) eqn:Hneed.
  - apply needsParent_true in Hneed as (Hne & Hclean & Hset).
    destruct Hready as [?|[?|[?|Hin]]]; try done.
    destruct (ensure_folder_present _ _ Hin) as (t & d & Hens & Ht).
    destruct (ensureParent_call cleanTargetFolderPath dest st v v t (Some d))
      as (m & Heq); [by apply needsParent_true|done|].
    rewrite Heq, app_nil_r. by eexists _, _.
  - rewrite ensureParent_skip by done. by eexists [], _.
Qed.

End Entry.

(** ** The conflict policy and what the loop may change *)

Section Policy.
Context {Vault : Type} `{Host Vault}.

Lemma no_creation_call_traces t :
  Forall (fun ev => isCreationCall ev = false) t ->
  filesWritten t = [] ∧ foldersCreated t = [].
Proof.
  induction 1 as [|ev t Hev _ [IH1 IH2]]; [done|].
  destruct ev; simpl in *; try done.
Qed.

Lemma filesWritten_app t1 t2 :
  filesWritten (t1 ++ t2) = filesWritten t1 ++ filesWritten t2.
Proof. apply omap_app. Qed.

Lemma foldersCreated_app t1 t2 :
  foldersCreated (t1 ++ t2) = foldersCreated t1 ++ foldersCreated t2.
Proof. apply omap_app. Qed.

Lemma notices_app t1 t2 : notices (t1 ++ t2) = notices t1 ++ notices t2.
Proof. apply omap_app. Qed.

Lemma quiet_trace_notices t :
  Forall (fun ev => isCreationCall ev = false ∧ isReport ev = false) t ->
  notices t = [] ∧ filesWritten t = [] ∧ foldersCreated t = [].
Proof.
  induction 1 as [|ev t [Hc Hr] _ (IH1 & IH2 & IH3)]; [done|].
  destruct ev; simpl in *; try done.
Qed.

(** [writeEntry] never throws; it changes the vault through one
    [createBinary] call at most, and counts a file only when that call
    returns. *)
Lemma writeEntry_cases dest data st v :
  ∃ v' t st',
    writeEntry dest data st v = (v', t, Normal st')
    ∧ foldersCreated t = []
    ∧ folderPathsCreated st' = folderPathsCreated st
    ∧ ((v' = v ∧ st' = st ∧ Forall (fun ev => isCreationCall ev = false) t)
       ∨ (createBinary v dest data = (v', inr tt)
          ∧ st' = countFile st ∧ filesWritten t = [dest])
       ∨ (∃ e, createBinary v dest data = (v', inl e)
               ∧ st' = st ∧ filesWritten t = []
               ∧ (saysFileAlreadyExists e = false ->
                  (∃ m, NewNotice m ∈ t) ∧ (∃ m, ConsoleError m ∈ t)))).
Proof.
  destruct (decide (pathToCheckOf dest = "" ∧ dest = "/")) as [[Hc Hd]|Hroot].
  { destruct (writeEntry_root dest data st v Hc Hd) as [m Heq].
    rewrite Heq. eexists _, _, _. split; [reflexivity|]. split; [done|].
    split; [done|]. left. by repeat constructor. }
  destruct (truthy (pathToCheckOf dest)) eqn:Ht.
  - destruct (getAbstractFileByPath v (pathToCheckOf dest)) as [[f|d]|] eqn:Hget.
    + rewrite (writeEntry_existing_file dest data st v f) by done.
      eexists _, _, _. split; [reflexivity|]. split; [done|]. split; [done|].
      left. by repeat constructor.
    + rewrite (writeEntry_existing_folder dest data st v d) by done.
      eexists _, _, _. split; [reflexivity|]. split; [done|]. split; [done|].
      left. by repeat constructor.
    + destruct (writeEntry_absent dest data st v Hroot) as (te & Hok & Hko);
        [done|].
      destruct (createBinary v dest data) as [v' [e|[]]] eqn:Hmk.
      * destruct (Hko v' e eq_refl) as (Heq & Hcalls & Hrep).
        rewrite Heq. eexists _, _, _. split; [reflexivity|].
        assert (filesWritten (te e) = [] ∧ foldersCreated (te e) = []) as [??].
        { apply no_creation_call_traces. eapply Forall_impl; [done|].
          by intros []. }
        unfold checkTrace. rewrite Ht. simpl.
        split; [done|]. split; [done|]. right; right. exists e.
        split; [done|]. split; [done|]. split; [done|].
        intros Hs. destruct (Hrep Hs) as [[m1 Hm1] [m2 Hm2]].
        split; eexists; rewrite !elem_of_cons; eauto 10.
      * rewrite (Hok v') by done. eexists _, _, _. split; [reflexivity|].
        unfold checkTrace. rewrite Ht. simpl.
        split; [done|]. split; [done|]. right; left. done.
  - destruct (writeEntry_absent dest data st v Hroot) as (te & Hok & Hko);
      [by rewrite Ht|].
    destruct (createBinary v dest data) as [v' [e|[]]] eqn:Hmk.
    + destruct (Hko v' e eq_refl) as (Heq & Hcalls & Hrep).
      rewrite Heq. eexists _, _, _. split; [reflexivity|].
      assert (filesWritten (te e) = [] ∧ foldersCreated (te e) = []) as [??].
      { apply no_creation_call_traces. eapply Forall_impl; [done|].
        by intros []. }
      unfold checkTrace. rewrite Ht. simpl.
      split; [done|]. split; [done|]. right; right. exists e.
      split; [done|]. split; [done|]. split; [done|].
      intros Hs. destruct (Hrep Hs) as [[m1 Hm1] [m2 Hm2]].
      split; eexists; rewrite !elem_of_cons; eauto 10.
    + rewrite (Hok v') by done. eexists _, _, _. split; [reflexivity|].
      unfold checkTrace. rewrite Ht. simpl.
      split; [done|]. split; [done|]. right; left. done.
Qed.

Lemma ensure_reach p v v' t r :
  ensureFolderExists p v = (v', t, r) -> reach v v'.
Proof.
  intros Heq. destruct (ensure_cases p v) as (v1 & t1 & r1 & Heq1 & _ & Hc).
  rewrite Heq in Heq1. simplify_eq.
  destruct Hc as [(-> & _)|(_ & _ & [(d & Hmk & _)|(e & Hmk & _)])].
  - apply rtc_refl.
  - apply rtc_once. pose proof (step_createFolder v (folderKey p)) as Hs.
    by rewrite Hmk in Hs.
  - apply rtc_once. pose proof (step_createFolder v (folderKey p)) as Hs.
    by rewrite Hmk in Hs.
Qed.

Lemma writeEntry_reach dest data st v v' t r :
  writeEntry dest data st v = (v', t, r) -> reach v v'.
Proof.
  intros Heq.
  destruct (writeEntry_cases dest data st v) as (v1 & t1 & st1 & Heq1 & _ & _ & Hc).
  rewrite Heq in Heq1. simplify_eq.
  destruct Hc as [(-> & _)|[(Hmk & _)|(e & Hmk & _)]].
  - apply rtc_refl.
  - apply rtc_once. pose proof (step_createBinary v dest data) as Hs.
    by rewrite Hmk in Hs.
  - apply rtc_once. pose proof (step_createBinary v dest data) as Hs.
    by rewrite Hmk in Hs.
Qed.

Lemma ensureParent_cases cleanTargetFolderPath dest st v :
  ∃ v' t r,
    ensureParent cleanTargetFolderPath dest st v = (v', t, Normal r)
    ∧ reach v v' ∧ filesWritten t = []
    ∧ (r = Some st ∨ r = Some (addFolder (parentPathOf dest) st) ∨ r = None).
Proof.
  destruct (needsParent cleanTargetFolderPath dest st) eqn:Hneed.
  - destruct (ensure_cases (parentPathOf dest) v) as (v' & t & r & Heq & Hfw & _).
    destruct (ensureParent_call _ _ _ _ _ _ _ Hneed Heq) as [m Hp].
    rewrite Hp. eexists _, _, _. split; [reflexivity|].
    split; [by eapply ensure_reach|]. split.
    + rewrite filesWritten_app, Hfw. by destruct r.
    + destruct r; eauto.
  - rewrite ensureParent_skip by done. eexists _, _, _.
    split; [reflexivity|]. split; [apply rtc_refl|]. split; [done|]. by left.
Qed.

Lemma extractEntry_reach cleanTargetFolderPath st relativePath zipEntry v v' t r :
  extractEntry cleanTargetFolderPath st relativePath zipEntry v = (v', t, r) ->
  reach v v'.
Proof.
  intros Heq. destruct (isIgnored relativePath) eqn:Hi.
  { destruct (extractEntry_ignored cleanTargetFolderPath st relativePath
                zipEntry v Hi) as (t1 & Heq1 & _).
    rewrite Heq in Heq1. simplify_eq. apply rtc_refl. }
  destruct (dir zipEntry) eqn:Hd.
  - rewrite extractEntry_dir in Heq by done.
    set (dest := normalizedDestPath cleanTargetFolderPath relativePath) in *.
    destruct (truthy (dirPathOf dest)
              && negb (has (folderPathsCreated st) (dirPathOf dest)))%bool
      eqn:Hg.
    + destruct (ensure_cases (dirPathOf dest) v) as (v1 & t1 & r1 & Hens & _).
      destruct (extractDirectory_call dest st v v1 t1 r1 Hg Hens) as [m Hx].
      rewrite Heq in Hx. simplify_eq. by eapply ensure_reach.
    + rewrite extractDirectory_skip in Heq by done. simplify_eq.
      apply rtc_refl.
  - destruct (async zipEntry) as [e|data] eqn:Ha.
    + rewrite (extractEntry_unreadable _ _ _ _ e) in Heq by done.
      simplify_eq. apply rtc_refl.
    + rewrite (extractEntry_file _ _ _ _ data) in Heq by done.
      set (dest := normalizedDestPath cleanTargetFolderPath relativePath) in *.
      destruct (ensureParent_cases cleanTargetFolderPath dest st v)
        as (v1 & t1 & r1 & Hp & Hreach & _).
      unfold bind in Heq. rewrite Hp in Heq.
      destruct r1 as [st1|].
      * destruct (writeEntry dest data st1 v1) as [[v2 t2] r2] eqn:Hw.
        simplify_eq. etrans; [done|]. by eapply writeEntry_reach.
      * simpl in Heq. by simplify_eq.
Qed.

Lemma forIn_reach cleanTargetFolderPath files st v v' t r :
  forIn cleanTargetFolderPath files st v = (v', t, r) -> reach v v'.
Proof.
  revert st v t. induction files as [|[rel ze] files IH]; intros st v t Heq.
  - simpl in Heq. unfold ret in Heq. simplify_eq. apply rtc_refl.
  - simpl in Heq. unfold bind in Heq.
    destruct (extractEntry cleanTargetFolderPath st rel ze v)
      as [[v1 t1] [st1|e]] eqn:He.
    + destruct (forIn cleanTargetFolderPath files st1 v1) as [[v2 t2] r2] eqn:Hf.
      simplify_eq. etrans; [by eapply extractEntry_reach|]. by eapply IH.
    + simplify_eq. by eapply extractEntry_reach.
Qed.

Lemma reach_keeps_bytes `{!NonDestructive} v w q b :
  reach v w -> readBinary v q = Some b -> readBinary w q = Some b.
Proof.
  induction 1 as [|v1 v2 v3 Hstep _ IH]; [done|]. intros Hb. apply IH.
  destruct Hstep.
  - by apply createFolder_keeps_bytes.
  - by apply createBinary_keeps_bytes.
Qed.

End Policy.

(** ** The conflict policy: claims *)

Section PolicyClaims.
Context {Vault : Type} `{Host Vault}.


(** C3.  On a host whose creation calls never touch an existing file: a
    file entry whose destination is occupied by a file (its parent directory
    being ready) is skipped without a creation call, a notice, a warning or
    an error, whatever its data; the vault and the file count stay as they
    are.  And whatever the archive, every file that the vault held before
    the loop holds the same bytes after it. *)
Theorem existing_file_kept `{!NonDestructive} cleanTargetFolderPath st
    relativePath zipEntry data v f :
  isIgnored relativePath = false ->
  dir zipEntry = false ->
  async zipEntry = inr data ->
  parentReady cleanTargetFolderPath
    (normalizedDestPath cleanTargetFolderPath relativePath) st v ->
  truthy (pathToCheckOf (normalizedDestPath cleanTargetFolderPath relativePath))
  = true ->
  getAbstractFileByPath v
    (pathToCheckOf (normalizedDestPath cleanTargetFolderPath relativePath))
  = Some (AFile f) ->
  (∃ t st',
     extractEntry cleanTargetFolderPath st relativePath zipEntry v
     = (v, t, Normal st')
     ∧ Forall (fun ev => isCreationCall ev = false ∧ isReport ev = false) t
     ∧ fileCount st' = fileCount st)
  ∧ (∀ files st0 v0 v' t r,
       forIn cleanTargetFolderPath files st0 v0 = (v', t, r) ->
       ∀ q b, readBinary v0 q = Some b -> readBinary v' q = Some b).
Proof.
  intros Hi Hd Ha Hready Ht Hget. split.
  - rewrite (extractEntry_file _ _ _ _ data) by done.
    set (dest := normalizedDestPath cleanTargetFolderPath relativePath) in *.
    destruct (ensureParent_ready _ _ _ _ Hready) as (tp & stp & Hp & Hcount & Hq).
    unfold bind. rewrite Hp.
    rewrite (writeEntry_existing_file dest data stp v f) by done.
    eexists _, _. split; [reflexivity|]. split; [|done].
    apply Forall_app. split; [done|]. by repeat constructor.
  - intros files st0 v0 v' t r Hrun q b Hb.
    eapply reach_keeps_bytes; [|done]. by eapply forIn_reach.
Qed.

End PolicyClaims.

(** The in-memory vault never touches an existing file. *)
Lemma MemVault_nondestructive cfg : @NonDestructive _ (MemVault.host cfg).
Proof.
  split; simpl.
  - intros v p q b Hb. unfold MemVault.mkdir, MemVault.lookupNode.
    destruct (v !! p) as [[]|] eqn:Hp; simpl; try done.
    destruct (String.eqb p "/"); [done|].
    assert (MemVault.contents (<[p:=MemVault.FolderNode]> v) q = Some b).
    { unfold MemVault.contents in *. rewrite lookup_insert_ne; [done|].
      intros ->. by rewrite Hp in Hb. }
    destruct (MemVault.racesFolder cfg p); [done|].
    by destruct (MemVault.refusesFolder cfg p).
  - intros v p d q b Hb. unfold MemVault.writeBinary, MemVault.lookupNode.
    destruct (v !! p) as [[]|] eqn:Hp; simpl; try done.
    destruct (String.eqb p "/"); [done|].
    destruct (MemVault.refusesBinary cfg p); [done|]. simpl.
    unfold MemVault.contents in *. rewrite lookup_insert_ne; [done|].
    intros ->. by rewrite Hp in Hb.
Qed.


Lemma existing_file_kept_witness :
  (∃ t st',
     @extractEntry _ (MemVault.host MemVault.corrupt) "Course Modules"
       initialLoopState "a.txt" (fileEntry [Byte.x42])
       {["Course Modules" := MemVault.FolderNode;
         "Course Modules/a.txt" := MemVault.FileNode [Byte.x41]]}
     = ({["Course Modules" := MemVault.FolderNode;
          "Course Modules/a.txt" := MemVault.FileNode [Byte.x41]]}, t,
        Normal st')
     ∧ Forall (fun ev => isCreationCall ev = false ∧ isReport ev = false) t
     ∧ fileCount st' = 0%nat)
  ∧ (∀ files st0 v0 v' t r,
       @forIn _ (MemVault.host MemVault.corrupt) "Course Modules" files st0 v0
       = (v', t, r) ->
       ∀ q b, MemVault.contents v0 q = Some b -> MemVault.contents v' q = Some b).
Proof.
  apply (@existing_file_kept _ (MemVault.host MemVault.corrupt)
           (MemVault_nondestructive MemVault.corrupt)
           "Course Modules" initialLoopState "a.txt" (fileEntry [Byte.x42])
           [Byte.x42] _ "Course Modules/a.txt").
  - reflexivity.
  - reflexivity.
  - reflexivity.
  - right. left. reflexivity.
  - reflexivity.
  - reflexivity.
Defined.

(** ** The set of created folders *)

Section CreatedFolders.
Context {Vault : Type} `{Host Vault}.

Lemma ensure_some_confirmed p v v' t d :
  ensureFolderExists p v = (v', t, Normal (Some d)) -> confirmedIn t p.
Proof.
  intros Heq. destruct (ensure_cases p v) as (v1 & t1 & r1 & Heq1 & _ & Hc).
  rewrite Heq in Heq1. injection Heq1 as <- <- <-. unfold confirmedIn.
  destruct Hc as [(_ & _ & _ & [(Hk & _)|[(_ & _ & d' & _ & Ht & Hr)|(_ & ? & _)]])
                 |(_ & _ & [(d' & _ & _ & Hin)|(e & _ & Hr & _ & _ & _ & Hin)])].
  - by left.
  - right; right. exists d'. rewrite Ht. by apply list_elem_of_singleton.
  - done.
  - right; left. done.
  - right; right. exists d. by apply Hin.
Qed.

Lemma confirmedIn_app_l t1 t2 p : confirmedIn t1 p -> confirmedIn (t1 ++ t2) p.
Proof.
  unfold confirmedIn. intros [?|[?|[d ?]]]; [by left| |].
  - right; left. apply elem_of_app. by left.
  - right; right. exists d. apply elem_of_app. by left.
Qed.

Lemma confirmedIn_app_r t1 t2 p : confirmedIn t2 p -> confirmedIn (t1 ++ t2) p.
Proof.
  unfold confirmedIn. intros [?|[?|[d ?]]]; [by left| |].
  - right; left. apply elem_of_app. by right.
  - right; right. exists d. apply elem_of_app. by right.
Qed.

(** A path enters the set only in the iteration that ensured it, after
    [ensureFolderExists] returned a folder for it. *)
Lemma extractEntry_inserts cleanTargetFolderPath st relativePath zipEntry
    v v' t st' p :
  extractEntry cleanTargetFolderPath st relativePath zipEntry v
  = (v', t, Normal st') ->
  p ∈ folderPathsCreated st' ->
  p ∈ folderPathsCreated st
  ∨ ∃ v1 t1 d, ensureFolderExists p v = (v1, t1, Normal (Some d))
               ∧ t1 `prefix_of` t.
Proof.
  intros Heq Hp. destruct (isIgnored relativePath) eqn:Hi.
  { destruct (extractEntry_ignored cleanTargetFolderPath st relativePath
                zipEntry v Hi) as (t1 & Heq1 & _).
    rewrite Heq in Heq1. simplify_eq. by left. }
  set (dest := normalizedDestPath cleanTargetFolderPath relativePath) in *.
  destruct (dir zipEntry) eqn:Hd.
  - rewrite extractEntry_dir in Heq by done. fold dest in Heq.
    destruct (truthy (dirPathOf dest)
              && negb (has (folderPathsCreated st) (dirPathOf dest)))%bool
      eqn:Hg.
    + destruct (ensure_cases (dirPathOf dest) v) as (v1 & t1 & r1 & Hens & _).
      destruct (extractDirectory_call dest st v v1 t1 r1 Hg Hens) as [m Hx].
      rewrite Heq in Hx. destruct r1 as [d|]; simplify_eq; [|by left].
      simpl in Hp. apply elem_of_union in Hp as [->%elem_of_singleton|?];
        [|by left].
      right. eexists _, _, _. split; [exact Hens|]. by rewrite app_nil_r.
    + rewrite extractDirectory_skip in Heq by done. simplify_eq. by left.
  - destruct (async zipEntry) as [e|data] eqn:Ha.
    { by rewrite (extractEntry_unreadable _ _ _ _ e) in Heq. }
    rewrite (extractEntry_file _ _ _ _ data) in Heq by done. fold dest in Heq.
    destruct (needsParent cleanTargetFolderPath dest st) eqn:Hneed.
    + destruct (ensure_cases (parentPathOf dest) v) as (v1 & t1 & r1 & Hens & _).
      destruct (ensureParent_call _ _ _ _ _ _ _ Hneed Hens) as [m Hx].
      unfold bind in Heq. rewrite Hx in Heq. destruct r1 as [d|].
      * destruct (writeEntry_cases dest data
                    (addFolder (parentPathOf dest) st) v1)
          as (v2 & t2 & st2 & Hw & _ & Hset & _).
        rewrite Hw in Heq. simplify_eq. rewrite Hset in Hp. simpl in Hp.
        apply elem_of_union in Hp as [->%elem_of_singleton|?]; [|by left].
        right. eexists _, _, _. split; [exact Hens|].
        rewrite app_nil_r. by apply prefix_app_r.
      * simpl in Heq. simplify_eq. by left.
    + unfold bind in Heq. rewrite (ensureParent_skip _ _ _ _ Hneed) in Heq.
      destruct (writeEntry_cases dest data st v)
        as (v2 & t2 & st2 & Hw & _ & Hset & _).
      rewrite Hw in Heq. simplify_eq. rewrite Hset in Hp. by left.
Qed.

(** The events of [writeEntry]: one look-up of the path to check, one
    [createBinary], console messages and notices. *)
Lemma writeEntry_events dest data st v v' t r :
  writeEntry dest data st v = (v', t, r) ->
  Forall (fun ev =>
            match ev with
            | VaultGetAbstractFileByPath q _ =>
                q = pathToCheckOf dest ∧ q ≠ ""
            | VaultCreateFolder _ _ => False
            | _ => True
            end) t.
Proof.
  unfold writeEntry.
  destruct (String.eqb (pathToCheckOf dest) "" && String.eqb dest "/")%bool.
  { intros [= <- <- <-]. by repeat constructor. }
  unfold bind, tryCatch, vaultGetAbstractFileByPath, vaultCreateBinary,
    consoleLog, consoleWarn, consoleError, notice, emit, ret.
  destruct (truthy (pathToCheckOf dest)) eqn:Ht.
  - apply truthy_true in Ht.
    destruct (getAbstractFileByPath v (pathToCheckOf dest)) as [[f|d]|];
      simpl.
    + intros [= <- <- <-]. by repeat constructor.
    + intros [= <- <- <-]. by repeat constructor.
    + destruct (createBinary v dest data) as [v1 [e|[]]]; simpl.
      * destruct (saysFileAlreadyExists e); intros [= <- <- <-];
          by repeat constructor.
      * intros [= <- <- <-]. by repeat constructor.
  - simpl. destruct (createBinary v dest data) as [v1 [e|[]]]; simpl.
    + destruct (saysFileAlreadyExists e); intros [= <- <- <-];
        by repeat constructor.
    + intros [= <- <- <-]. by repeat constructor.
Qed.

(** C9.  Throughout the loop, every path of the created-folder set that was
    not in it at the start was confirmed by the trace (found as a folder, or
    created); a path enters the set only after [ensureFolderExists] returned
    a folder for it, at the start of the same iteration.  A directory entry
    whose path is in the set issues no call at all, and a file entry whose
    parent path is in the set goes straight to the conflict policy, whose
    trace holds no [createFolder] call and no look-up of the parent. *)
Theorem created_folder_set_memoises cleanTargetFolderPath :
  (∀ files st v v' t st' p,
     forIn cleanTargetFolderPath files st v = (v', t, Normal st') ->
     p ∈ folderPathsCreated st' ->
     p ∈ folderPathsCreated st ∨ confirmedIn t p)
  ∧ (∀ st relativePath zipEntry v v' t st' p,
       extractEntry cleanTargetFolderPath st relativePath zipEntry v
       = (v', t, Normal st') ->
       p ∈ folderPathsCreated st' ->
       p ∈ folderPathsCreated st
       ∨ ∃ v1 t1 d, ensureFolderExists p v = (v1, t1, Normal (Some d))
                    ∧ t1 `prefix_of` t)
  ∧ (∀ st relativePath zipEntry v,
       isIgnored relativePath = false ->
       dir zipEntry = true ->
       dirPathOf (normalizedDestPath cleanTargetFolderPath relativePath)
       ∈ folderPathsCreated st ->
       extractEntry cleanTargetFolderPath st relativePath zipEntry v
       = (v, [], Normal st))
  ∧ (∀ st relativePath zipEntry data v,
       isIgnored relativePath = false ->
       dir zipEntry = false ->
       async zipEntry = inr data ->
       parentPathOf (normalizedDestPath cleanTargetFolderPath relativePath)
       ∈ folderPathsCreated st ->
       extractEntry cleanTargetFolderPath st relativePath zipEntry v
       = writeEntry (normalizedDestPath cleanTargetFolderPath relativePath)
           data st v
       ∧ ∀ v' t r,
           extractEntry cleanTargetFolderPath st relativePath zipEntry v
           = (v', t, r) ->
           ∀ ev, ev ∈ t ->
             match ev with
             | VaultGetAbstractFileByPath q _ =>
                 q ≠ folderKey
                       (parentPathOf
                          (normalizedDestPath cleanTargetFolderPath relativePath))
             | VaultCreateFolder _ _ => False
             | _ => True
             end).
Proof.
  split; [|split; [|split]].
  - intros files. induction files as [|[rel ze] files IH];
      intros st v v' t st' p Heq Hp.
    { simpl in Heq. unfold ret in Heq. simplify_eq. by left. }
    simpl in Heq. unfold bind in Heq.
    destruct (extractEntry cleanTargetFolderPath st rel ze v)
      as [[v1 t1] [st1|e]] eqn:He; [|done].
    destruct (forIn cleanTargetFolderPath files st1 v1) as [[v2 t2] r2] eqn:Hf.
    simplify_eq.
    destruct (IH _ _ _ _ _ _ Hf Hp) as [Hp1|Hc].
    + destruct (extractEntry_inserts _ _ _ _ _ _ _ _ _ He Hp1)
        as [?|(v3 & t3 & d & Hens & [k ->])]; [by left|].
      right. apply confirmedIn_app_l, confirmedIn_app_l.
      by eapply ensure_some_confirmed.
    + right. by apply confirmedIn_app_r.
  - intros. by eapply extractEntry_inserts.
  - intros st rel ze v Hi Hd Hin. rewrite extractEntry_dir by done.
    apply extractDirectory_skip. apply andb_false_iff. right.
    apply negb_false_iff, has_true. done.
  - intros st rel ze data v Hi Hd Ha Hin.
    rewrite (extractEntry_file _ _ _ _ data) by done.
    set (dest := normalizedDestPath cleanTargetFolderPath rel) in *.
    assert (needsParent cleanTargetFolderPath dest st = false) as Hneed.
    { unfold needsParent. apply andb_false_iff. right.
      apply negb_false_iff, has_true. done. }
    unfold bind. rewrite (ensureParent_skip _ _ _ _ Hneed).
    destruct (writeEntry dest data st v) as [[v2 t2] r2] eqn:Hw.
    split; [done|]. intros v' t r [= <- <- <-] ev Hev.
    pose proof (writeEntry_events _ _ _ _ _ _ _ Hw) as Hall.
    rewrite Forall_forall in Hall. specialize (Hall ev Hev).
    destruct ev; try done. destruct Hall as [-> Hne].
    by apply pathToCheck_not_parent_key.
Qed.

End CreatedFolders.

(** ** Containment of single-entry failures *)

Section Containment.
Context {Vault : Type} `{Host Vault}.

Lemma ensure_none_reports p v v' t :
  ensureFolderExists p v = (v', t, Normal None) ->
  (∃ m, NewNotice m ∈ t) ∧ (∃ m, ConsoleError m ∈ t)
  ∧ filesWritten t = [] ∧ foldersCreated t = [].
Proof.
  intros Heq. destruct (ensure_cases p v) as (v1 & t1 & r1 & Heq1 & Hfw & Hc).
  rewrite Heq in Heq1. injection Heq1 as <- <- <-.
  destruct Hc as [(_ & Hfc & _ & [(_ & _ & ?)|[(_ & _ & d' & _ & _ & ?)
                                              |(_ & _ & _ & Hn & He)]])
                 |(_ & _ & [(d' & _ & ? & _)|(e & _ & Hr & Hfc & He & Hn & _)])];
    try done.
  split; [by apply Hn|]. done.
Qed.

Lemma bind_ext {A B} (m : M Vault A) (f g : A -> M Vault B) v :
  (∀ a w, f a w = g a w) -> bind m f v = bind m g v.
Proof.
  intros Hfg. unfold bind. destruct (m v) as [[v1 t1] [a|e]]; [|done].
  by rewrite Hfg.
Qed.

Lemma forIn_app cleanTargetFolderPath pre post st v :
  forIn cleanTargetFolderPath (pre ++ post) st v
  = bind (forIn cleanTargetFolderPath pre st)
         (fun st1 => forIn cleanTargetFolderPath post st1) v.
Proof.
  revert st v. induction pre as [|[rel ze] pre IH]; intros st v; simpl.
  - by rewrite bind_ret_l.
  - rewrite bind_assoc. apply bind_ext. intros st1 v1. apply IH.
Qed.

Lemma extractEntry_readable cleanTargetFolderPath st relativePath zipEntry v :
  readable zipEntry ->
  ∃ v' t st',
    extractEntry cleanTargetFolderPath st relativePath zipEntry v
    = (v', t, Normal st').
Proof.
  intros Hr. destruct (isIgnored relativePath) eqn:Hi.
  { destruct (extractEntry_ignored cleanTargetFolderPath st relativePath
                zipEntry v Hi) as (t & Heq & _). eauto. }
  set (dest := normalizedDestPath cleanTargetFolderPath relativePath).
  destruct (dir zipEntry) eqn:Hd.
  - rewrite extractEntry_dir by done. fold dest.
    destruct (truthy (dirPathOf dest)
              && negb (has (folderPathsCreated st) (dirPathOf dest)))%bool
      eqn:Hg.
    + destruct (ensure_cases (dirPathOf dest) v) as (v1 & t1 & r1 & Hens & _).
      destruct (extractDirectory_call dest st v v1 t1 r1 Hg Hens) as [m Hx].
      rewrite Hx. eauto.
    + rewrite extractDirectory_skip by done. eauto.
  - destruct Hr as [?|[data Ha]]; [congruence|].
    rewrite (extractEntry_file _ _ _ _ data) by done. fold dest.
    destruct (ensureParent_cases cleanTargetFolderPath dest st v)
      as (v1 & t1 & r1 & Hp & _).
    unfold bind. rewrite Hp. destruct r1 as [st1|]; [|simpl; eauto].
    destruct (writeEntry_cases dest data st1 v1) as (v2 & t2 & st2 & Hw & _).
    rewrite Hw. eauto.
Qed.

Lemma forIn_readable cleanTargetFolderPath files st v :
  Forall (fun entry => readable entry.2) files ->
  ∃ v' t st', forIn cleanTargetFolderPath files st v = (v', t, Normal st').
Proof.
  intros Hall. revert st v.
  induction Hall as [|[rel ze] files Hr _ IH]; intros st v; simpl.
  - unfold ret. eauto.
  - destruct (extractEntry_readable cleanTargetFolderPath st rel ze v Hr)
      as (v1 & t1 & st1 & He).
    destruct (IH st1 v1) as (v2 & t2 & st2 & Hf).
    unfold bind. rewrite He, Hf. eauto.
Qed.

Lemma ensureParent_none cleanTargetFolderPath dest st v v' t :
  ensureParent cleanTargetFolderPath dest st v = (v', t, Normal None) ->
  (∃ m, NewNotice m ∈ t) ∧ (∃ m, ConsoleError m ∈ t) ∧ filesWritten t = [].
Proof.
  intros Heq. destruct (needsParent cleanTargetFolderPath dest st) eqn:Hneed.
  - destruct (ensure_cases (parentPathOf dest) v) as (v1 & t1 & r1 & Hens & _).
    destruct (ensureParent_call _ _ _ _ _ _ _ Hneed Hens) as [m Hx].
    rewrite Heq in Hx. destruct r1 as [d|]; [done|].
    injection Hx as -> ->.
    destruct (ensure_none_reports _ _ _ _ Hens) as ([m1 ?] & [m2 ?] & Hfw & _).
    split; [|split].
    + exists m1. apply elem_of_app. by left.
    + exists m2. apply elem_of_app. by left.
    + by rewrite filesWritten_app, Hfw.
  - by rewrite ensureParent_skip in Heq.
Qed.

Lemma ensureParent_some_count cleanTargetFolderPath dest st v v' t st' :
  ensureParent cleanTargetFolderPath dest st v = (v', t, Normal (Some st')) ->
  fileCount st' = fileCount st ∧ filesWritten t = [].
Proof.
  intros Heq.
  destruct (ensureParent_cases cleanTargetFolderPath dest st v)
    as (v1 & t1 & r1 & Hp & _ & Hfw & Hr).
  rewrite Heq in Hp. injection Hp as <- <- <-.
  split; [|done]. destruct Hr as [?|[?|?]]; by simplify_eq.
Qed.

(** A failed entry is reported and writes nothing. *)
Lemma entry_failure_reported cleanTargetFolderPath st relativePath zipEntry
    v k v2 t2 st2 :
  fails cleanTargetFolderPath st relativePath zipEntry v k ->
  extractEntry cleanTargetFolderPath st relativePath zipEntry v
  = (v2, t2, Normal st2) ->
  (∃ m, NewNotice m ∈ t2) ∧ (∃ m, ConsoleError m ∈ t2)
  ∧ fileCount st2 = fileCount st ∧ filesWritten t2 = [].
Proof.
  intros Hfail Heq.
  destruct Hfail as [v' t Hi Hd dirPath Ht Hnin Hens
                    |v' t Hi Hd Hp
                    |v' t st' d Hi Hd dest Hp Ht Hget
                    |v' t st' data v'' e Hi Hd Ha dest Hp Ht Hget Hmk Hsays].
  - rewrite extractEntry_dir in Heq by done.
    destruct (extractDirectory_call
                (normalizedDestPath cleanTargetFolderPath relativePath)
                st v v' t None) as [m Hx]; [|done|].
    { fold dirPath. rewrite Ht. simpl. apply negb_true_iff, has_false. done. }
    rewrite Heq in Hx. injection Hx as -> -> ->.
    destruct (ensure_none_reports _ _ _ _ Hens) as ([m1 ?] & [m2 ?] & Hfw & _).
    split; [|split; [|split]]; try done.
    + exists m1. apply elem_of_app. by left.
    + exists m2. apply elem_of_app. by left.
    + by rewrite filesWritten_app, Hfw.
  - destruct (async zipEntry) as [e|data] eqn:Ha.
    { by rewrite (extractEntry_unreadable _ _ _ _ e) in Heq. }
    rewrite (extractEntry_file _ _ _ _ data) in Heq by done.
    unfold bind in Heq. rewrite Hp in Heq. simpl in Heq.
    injection Heq as <- <- <-. rewrite app_nil_r.
    destruct (ensureParent_none _ _ _ _ _ _ Hp) as (? & ? & ?). done.
  - destruct (async zipEntry) as [e|data] eqn:Ha.
    { by rewrite (extractEntry_unreadable _ _ _ _ e) in Heq. }
    rewrite (extractEntry_file _ _ _ _ data) in Heq by done.
    unfold bind in Heq. fold dest in Heq. rewrite Hp in Heq.
    rewrite (writeEntry_existing_folder dest data st' v' d) in Heq by done.
    injection Heq as <- <- <-.
    destruct (ensureParent_some_count _ _ _ _ _ _ _ Hp) as [Hc Hfw].
    split; [|split; [|split]]; try done.
    + eexists. apply elem_of_app. right. rewrite !elem_of_cons. eauto.
    + eexists. apply elem_of_app. right. rewrite !elem_of_cons. eauto.
    + by rewrite filesWritten_app, Hfw.
  - rewrite (extractEntry_file _ _ _ _ data) in Heq by done.
    unfold bind in Heq. fold dest in Heq. rewrite Hp in Heq.
    destruct (writeEntry_absent dest data st' v') as (te & _ & Hko).
    { intros [Hc _]. apply truthy_true in Ht. done. }
    { done. }
    destruct (Hko v'' e Hmk) as (Hw & Hcalls & Hrep).
    rewrite Hw in Heq. injection Heq as <- <- <-.
    destruct (ensureParent_some_count _ _ _ _ _ _ _ Hp) as [Hc Hfw].
    destruct (Hrep Hsays) as [[m1 ?] [m2 ?]].
    split; [|split; [|split]]; try done.
    + exists m1. rewrite !elem_of_app, !elem_of_cons. eauto 10.
    + exists m2. rewrite !elem_of_app, !elem_of_cons. eauto 10.
    + rewrite !filesWritten_app, Hfw. unfold checkTrace. rewrite Ht. simpl.
      apply no_creation_call_traces. eapply Forall_impl; [done|]. by intros [].
Qed.

Lemma extractEntry_throw_unreadable cleanTargetFolderPath st relativePath
    zipEntry v v1 t1 e :
  extractEntry cleanTargetFolderPath st relativePath zipEntry v
  = (v1, t1, Throw e) ->
  unreadable relativePath zipEntry e ∧ v1 = v ∧ t1 = [].
Proof.
  intros Heq. destruct (isIgnored relativePath) eqn:Hi.
  { destruct (extractEntry_ignored cleanTargetFolderPath st relativePath
                zipEntry v Hi) as (tl & Heq1 & _). congruence. }
  destruct (dir zipEntry) eqn:Hd.
  { destruct (extractEntry_readable cleanTargetFolderPath st relativePath
                zipEntry v) as (? & ? & ? & Heq1); [by left|congruence]. }
  destruct (async zipEntry) as [e'|data] eqn:Ha.
  - rewrite (extractEntry_unreadable _ _ _ _ e') in Heq by done.
    by injection Heq as <- <- <-.
  - destruct (extractEntry_readable cleanTargetFolderPath st relativePath
                zipEntry v) as (? & ? & ? & Heq1); [right; eauto|congruence].
Qed.

Lemma forIn_throws cleanTargetFolderPath files st v v' t e :
  forIn cleanTargetFolderPath files st v = (v', t, Throw e) ->
  ∃ pre relativePath zipEntry post st1,
    files = pre ++ (relativePath, zipEntry) :: post
    ∧ unreadable relativePath zipEntry e
    ∧ forIn cleanTargetFolderPath pre st v = (v', t, Normal st1).
Proof.
  revert st v v' t. induction files as [|[rel ze] files IH];
    intros st v v' t Heq; [done|].
  simpl in Heq. unfold bind in Heq.
  destruct (extractEntry cleanTargetFolderPath st rel ze v)
    as [[v1 t1] [st1|e1]] eqn:He.
  - destruct (forIn cleanTargetFolderPath files st1 v1) as [[v2 t2] c2] eqn:Hf.
    injection Heq as <- <- ->.
    destruct (IH _ _ _ _ Hf) as (pre & rel' & ze' & post & st2 & -> & Hun & Hpre).
    exists ((rel, ze) :: pre), rel', ze', post, st2.
    split; [done|]. split; [done|].
    simpl. unfold bind. by rewrite He, Hpre.
  - injection Heq as <- <- <-.
    destruct (extractEntry_throw_unreadable _ _ _ _ _ _ _ _ He)
      as (Hun & -> & ->).
    by exists [], rel, ze, files, st.
Qed.

(** C6.  For every archive and every vault: an entry that the loop
    reaches, and that is ignored or has data that can be read, is processed
    from the state its predecessors left, and the loop goes on with the
    entries after it from the state it leaves.  If the entry meets a
    directory conflict, a write conflict or a write error, this is reported
    by a notice and a console error, no file is written and the counter
    stays.  The loop ends with an exception only at a file entry whose data
    cannot be read: what the entries before it did stays, and no entry
    after it is processed. *)
Theorem entry_failures_contained cleanTargetFolderPath files st v :
  ∃ v' t c,
    forIn cleanTargetFolderPath files st v = (v', t, c)
    ∧ (∀ pre relativePath zipEntry post v1 t1 st1,
         files = pre ++ (relativePath, zipEntry) :: post ->
         forIn cleanTargetFolderPath pre st v = (v1, t1, Normal st1) ->
         isIgnored relativePath = true ∨ readable zipEntry ->
         ∃ v2 t2 st2 t3,
           extractEntry cleanTargetFolderPath st1 relativePath zipEntry v1
           = (v2, t2, Normal st2)
           ∧ forIn cleanTargetFolderPath post st2 v2 = (v', t3, c)
           ∧ t = t1 ++ t2 ++ t3
           ∧ ∀ k,
               fails cleanTargetFolderPath st1 relativePath zipEntry v1 k ->
               (∃ m, NewNotice m ∈ t2) ∧ (∃ m, ConsoleError m ∈ t2)
               ∧ fileCount st2 = fileCount st1 ∧ filesWritten t2 = [])
    ∧ (∀ e, c = Throw e ->
         ∃ pre relativePath zipEntry post st1,
           files = pre ++ (relativePath, zipEntry) :: post
           ∧ unreadable relativePath zipEntry e
           ∧ forIn cleanTargetFolderPath pre st v = (v', t, Normal st1)).
Proof.
  destruct (forIn cleanTargetFolderPath files st v) as [[v' t] c] eqn:Hrun.
  exists v', t, c. split; [done|]. split.
  - intros pre rel ze post v1 t1 st1 -> H1 Hr.
    assert (∃ v2 t2 st2,
              extractEntry cleanTargetFolderPath st1 rel ze v1
              = (v2, t2, Normal st2)) as (v2 & t2 & st2 & H2).
    { destruct Hr as [Hi|Hr].
      - destruct (extractEntry_ignored cleanTargetFolderPath st1 rel ze v1 Hi)
          as (tl & Heq & _). eauto.
      - by apply extractEntry_readable. }
    destruct (forIn cleanTargetFolderPath post st2 v2) as [[v3 t3] c3] eqn:H3.
    rewrite forIn_app in Hrun. unfold bind in Hrun. rewrite H1 in Hrun.
    simpl in Hrun. unfold bind in Hrun. rewrite H2, H3 in Hrun.
    injection Hrun as <- <- <-.
    exists v2, t2, st2, t3. split; [done|]. split; [done|]. split; [done|].
    intros k Hk. by eapply entry_failure_reported.
  - intros e ->. by apply forIn_throws.
Qed.

End Containment.

Lemma entry_failures_contained_witness :
  let broken :=
    {| dir := false; async := inl {| message := Some "Corrupted zip" |} |} in
  let host :=
    MemVault.host (MemVault.refusing "Course Modules/locked"
                     "Course Modules/b.txt") in
  let files :=
    [("notes", fileEntry [Byte.x42]);
     ("b.txt", fileEntry [Byte.x43]);
     ("ok.txt", fileEntry [Byte.x44]);
     ("broken.md", broken);
     ("late.txt", fileEntry [Byte.x45])] in
  let vault : gmap string MemVault.Node :=
    {["Course Modules" := MemVault.FolderNode;
      "Course Modules/notes" := MemVault.FolderNode]} in
  let before :=
    @forIn _ host "Course Modules" [("notes", fileEntry [Byte.x42])]
      initialLoopState vault in
  ∃ v' t c,
    @forIn _ host "Course Modules" files initialLoopState vault = (v', t, c)
    ∧ ∃ v2 t2 st2 t3,
        @extractEntry _ host "Course Modules" initialLoopState "b.txt"
          (fileEntry [Byte.x43]) before.1.1
        = (v2, t2, Normal st2)
        ∧ @forIn _ host "Course Modules"
            [("ok.txt", fileEntry [Byte.x44]);
             ("broken.md", broken);
             ("late.txt", fileEntry [Byte.x45])] st2 v2
          = (v', t3, c)
        ∧ t = before.1.2 ++ t2 ++ t3
        ∧ ∀ k,
            @fails _ host "Course Modules" initialLoopState "b.txt"
              (fileEntry [Byte.x43]) before.1.1 k ->
            (∃ m, NewNotice m ∈ t2) ∧ (∃ m, ConsoleError m ∈ t2)
            ∧ fileCount st2 = fileCount initialLoopState
            ∧ filesWritten t2 = [].
Proof.
  intros broken host files vault before.
  destruct (@entry_failures_contained _ host "Course Modules" files
              initialLoopState vault) as (v' & t & c & Hrun & Hreach & _).
  exists v', t, c. split; [exact Hrun|].
  apply (Hreach [("notes", fileEntry [Byte.x42])] "b.txt"
           (fileEntry [Byte.x43])
           [("ok.txt", fileEntry [Byte.x44]);
            ("broken.md", broken);
            ("late.txt", fileEntry [Byte.x45])]
           before.1.1 before.1.2 initialLoopState).
  - reflexivity.
  - vm_compute. reflexivity.
  - right. right. by eexists.
Defined.

(** C6, as stated, fails: the data of the second entry cannot be read; the
    loop ends there with the exception, and the third entry, which would
    have been written, is not processed. *)
Lemma unreadable_entry_drops_later_entries :
  let e := {| message := Some "Corrupted zip" |} in
  let broken := {| dir := false; async := inl e |} in
  let host := MemVault.host (MemVault.plain [] []) in
  let vault : gmap string MemVault.Node :=
    {["Course Modules" := MemVault.FolderNode]} in
  let run :=
    @forIn _ host "Course Modules"
      [("a.md", fileEntry [Byte.x41]); ("b.md", broken);
       ("c.md", fileEntry [Byte.x43])]
      initialLoopState vault in
  let alone :=
    @extractEntry _ host "Course Modules" initialLoopState "c.md"
      (fileEntry [Byte.x43]) run.1.1 in
  unreadable "b.md" broken e
  ∧ run.2 = Throw e
  ∧ filesWritten run.1.2 = ["Course Modules/a.md"]
  ∧ MemVault.contents run.1.1 "Course Modules/c.md" = None
  ∧ filesWritten alone.1.2 = ["Course Modules/c.md"].
Proof. vm_compute. repeat split. Qed.

(** ** Idempotence on a stable host *)

Section Idempotence.
Context {Vault : Type} `{Host Vault} `{!Stable}.

Lemma lookup_reach v w p x :
  reach v w ->
  getAbstractFileByPath v p = Some x -> getAbstractFileByPath w p = Some x.
Proof.
  induction 1 as [|v1 v2 v3 Hstep _ IH]; [done|]. intros Hx. apply IH.
  by eapply lookup_stable.
Qed.

Lemma isFolderIn_reach v w p : reach v w -> isFolderIn v p -> isFolderIn w p.
Proof.
  intros Hr [Hk|[d Hd]]; [by left|]. right. exists d. by eapply lookup_reach.
Qed.

Lemma sound_reach st v w : reach v w -> sound st v -> sound st w.
Proof. intros Hr Hs p Hp. eapply isFolderIn_reach; [done|]. by apply Hs. Qed.

Lemma settled_reach Q v w : reach v w -> settled Q v -> settled Q w.
Proof. intros Hr Hs u Hu. apply Hs. by etrans. Qed.

Lemma folder_ensureQuiet p w : isFolderIn w p -> ensureQuiet p w.
Proof.
  intros Hin. destruct (ensure_folder_present p w Hin) as (t & d & Heq & Hq).
  apply quiet_trace_notices in Hq as (_ & ? & ?).
  exists t, (Some d). done.
Qed.

Lemma file_ensureQuiet p w f :
  folderKey p ≠ "" ->
  getAbstractFileByPath w (folderKey p) = Some (AFile f) ->
  ensureQuiet p w.
Proof.
  intros Hk Hget.
  destruct (ensure_found_file p w f Hk Hget) as (t & Heq & _ & _ & Hc).
  apply no_creation_call_traces in Hc as [??].
  exists t, None. done.
Qed.

(** What [ensureFolderExists] did once, it need not do again. *)
Lemma ensure_settles p v v1 t r :
  ensureFolderExists p v = (v1, t, Normal r) ->
  settled (ensureQuiet p) v1
  ∧ (∀ d, r = Some d -> isFolderIn v1 p)
  ∧ (r = None -> ∀ w, reach v1 w -> ¬ isFolderIn w p).
Proof.
  intros Heq. destruct (ensure_cases p v) as (v2 & t2 & r2 & Heq2 & _ & Hc).
  rewrite Heq in Heq2. injection Heq2 as <- <- <-.
  destruct Hc as [(-> & _ & _ & [(Hk & _ & ->)|[(Hk & _ & d & Hget & _ & ->)
                                               |(Hk & -> & [f Hget] & _)]])
                 |(Hk & Hget & [(d & Hmk & -> & _)|(e & Hmk & -> & _)])].
  - split; [|split; [|done]].
    + intros w _. apply folder_ensureQuiet. by left.
    + intros _ _. by left.
  - assert (isFolderIn v p) as Hin by (right; eauto).
    split; [|split; [|done]]; [|done].
    intros w Hw. apply folder_ensureQuiet. by eapply isFolderIn_reach.
  - split; [|split; [done|]].
    + intros w Hw. eapply file_ensureQuiet; [done|]. by eapply lookup_reach.
    + intros _ w Hw [?|[d Hd]]; [done|].
      pose proof (lookup_reach _ _ _ _ Hw Hget). congruence.
  - destruct (created_folder_found _ _ _ _ Hmk) as [d' Hd'].
    assert (isFolderIn v1 p) as Hin by (right; eauto).
    split; [|split; [|done]]; [|done].
    intros w Hw. apply folder_ensureQuiet. by eapply isFolderIn_reach.
  - pose proof (refused_folder_unchanged _ _ _ _ Hmk) as ->.
    assert (recheck v p = None) as Hre by (unfold recheck; by rewrite Hget).
    rewrite Hre.
    assert (∀ d, getAbstractFileByPath v (folderKey p) ≠ Some (AFolder d))
      as Hnf by (intros d; by rewrite Hget).
    split; [|split; [done|]].
    + intros w Hw.
      destruct (refused_folder_stays _ _ _ _ _ Hmk Hnf Hw) as [Hnw Hrw].
      destruct (getAbstractFileByPath w (folderKey p)) as [[f|d]|] eqn:Hgw.
      * by eapply file_ensureQuiet.
      * by destruct (Hnw d).
      * destruct (Hrw eq_refl) as [e' Hmk'].
        destruct (ensure_refused p w w e' Hk Hgw Hmk')
          as (t' & Heq' & ? & ? & _).
        exists t', (recheck w p). split; [done|]. split; [done|].
        split; [done|]. intros d. unfold recheck. by rewrite Hgw.
    + intros _ w Hw [?|[d Hd]]; [done|].
      destruct (refused_folder_stays _ _ _ _ _ Hmk Hnf Hw) as [Hnw _].
      by destruct (Hnw d).
Qed.

Lemma no_call_traces t :
  Forall (fun ev => isCall ev = false) t ->
  filesWritten t = [] ∧ foldersCreated t = [].
Proof.
  intros Hc. apply no_creation_call_traces.
  eapply Forall_impl; [done|]. by intros [].
Qed.

Lemma occupied_writeQuiet dest data w x :
  truthy (pathToCheckOf dest) = true ->
  getAbstractFileByPath w (pathToCheckOf dest) = Some x ->
  writeQuiet dest data w.
Proof.
  intros Ht Hx st'. destruct x as [f|d].
  - rewrite (writeEntry_existing_file dest data st' w f) by done. by eexists.
  - rewrite (writeEntry_existing_folder dest data st' w d) by done.
    by eexists.
Qed.

Lemma refused_writeQuiet dest data w e :
  ¬ (pathToCheckOf dest = "" ∧ dest = "/") ->
  createBinary w dest data = (w, inl e) ->
  writeQuiet dest data w.
Proof.
  intros Hroot Hmk st'.
  destruct (truthy (pathToCheckOf dest)) eqn:Ht.
  - destruct (getAbstractFileByPath w (pathToCheckOf dest)) as [x|] eqn:Hx.
    { by eapply occupied_writeQuiet. }
    destruct (writeEntry_absent dest data st' w Hroot) as (te & _ & Hko);
      [done|].
    destruct (Hko w e Hmk) as (-> & Hcalls & _). eexists. split; [done|].
    rewrite foldersCreated_app, filesWritten_app.
    unfold checkTrace. rewrite Ht. simpl.
    by apply no_call_traces in Hcalls as [-> ->].
  - destruct (writeEntry_absent dest data st' w Hroot) as (te & _ & Hko);
      [by rewrite Ht|].
    destruct (Hko w e Hmk) as (-> & Hcalls & _). eexists. split; [done|].
    rewrite foldersCreated_app, filesWritten_app.
    unfold checkTrace. rewrite Ht. simpl.
    by apply no_call_traces in Hcalls as [-> ->].
Qed.

(** What [writeEntry] did once, it need not do again. *)
Lemma write_settles dest data st v v1 t r :
  isFolderIn v (parentPathOf dest) ->
  writeEntry dest data st v = (v1, t, r) ->
  settled (writeQuiet dest data) v1.
Proof.
  intros Hparent Heq.
  destruct (decide (pathToCheckOf dest = "" ∧ dest = "/")) as [[Hc Hd]|Hroot].
  { intros w _ st'. destruct (writeEntry_root dest data st' w Hc Hd) as [m ->].
    by eexists. }
  assert (∀ v', (∃ r', createBinary v dest data = (v', r')) ->
                settled (writeQuiet dest data) v') as Hcalled.
  { intros v' [r' Hmk] w Hw.
    destruct (binary_created_once _ _ _ _ _ _ Hmk Hparent Hw) as [e' Hmk'].
    by eapply refused_writeQuiet. }
  assert ((truthy (pathToCheckOf dest) = true ->
           getAbstractFileByPath v (pathToCheckOf dest) = None) ->
          settled (writeQuiet dest data) v1) as Habsent.
  { intros Hnone.
    destruct (writeEntry_absent dest data st v Hroot Hnone) as (te & Hok & Hko).
    destruct (createBinary v dest data) as [v' [e|[]]] eqn:Hmk.
    - destruct (Hko v' e eq_refl) as (Hw & _). rewrite Heq in Hw.
      injection Hw as -> _ _. apply Hcalled. eauto.
    - rewrite (Hok v' eq_refl) in Heq. injection Heq as <- _ _.
      apply Hcalled. eauto. }
  destruct (truthy (pathToCheckOf dest)) eqn:Ht; [|by apply Habsent].
  destruct (getAbstractFileByPath v (pathToCheckOf dest)) as [x|] eqn:Hx;
    [|by apply Habsent].
  assert (v1 = v) as ->.
  { destruct x as [f|d].
    - rewrite (writeEntry_existing_file dest data st v f) in Heq by done.
      by injection Heq.
    - rewrite (writeEntry_existing_folder dest data st v d) in Heq by done.
      by injection Heq. }
  intros w Hw. eapply occupied_writeQuiet; [done|]. by eapply lookup_reach.
Qed.

Lemma sound_addFolder st w p :
  sound st w -> isFolderIn w p -> sound (addFolder p st) w.
Proof.
  intros Hs Hin q Hq. simpl in Hq.
  apply elem_of_union in Hq as [->%elem_of_singleton|?]; [done|by apply Hs].
Qed.

Lemma ignored_entryQuiet cleanTargetFolderPath relativePath zipEntry w :
  isIgnored relativePath = true ->
  entryQuiet cleanTargetFolderPath relativePath zipEntry w.
Proof.
  intros Hi st Hs.
  destruct (extractEntry_ignored cleanTargetFolderPath st relativePath
              zipEntry w Hi) as (t & Heq & Hlogs).
  exists t, (Normal st). split; [done|].
  assert (filesWritten t = [] ∧ foldersCreated t = []) as [??].
  { apply no_call_traces. eapply Forall_impl; [done|]. by intros ? [? ->]. }
  split; [done|]. split; [done|]. split; [|done]. by intros ? [= <-].
Qed.

Lemma unreadable_entryQuiet cleanTargetFolderPath relativePath zipEntry e w :
  isIgnored relativePath = false ->
  dir zipEntry = false ->
  async zipEntry = inl e ->
  entryQuiet cleanTargetFolderPath relativePath zipEntry w.
Proof.
  intros Hi Hd Ha st Hs. rewrite (extractEntry_unreadable _ _ _ _ e) by done.
  exists [], (Throw e). split; [done|]. split; [done|]. split; [done|].
  split; [done|]. by intros ? [= <-].
Qed.

Lemma directory_entryQuiet cleanTargetFolderPath relativePath zipEntry w :
  isIgnored relativePath = false ->
  dir zipEntry = true ->
  (truthy (dirPathOf (normalizedDestPath cleanTargetFolderPath relativePath))
   = true ->
   ensureQuiet
     (dirPathOf (normalizedDestPath cleanTargetFolderPath relativePath)) w) ->
  entryQuiet cleanTargetFolderPath relativePath zipEntry w.
Proof.
  intros Hi Hd Hq st Hs. rewrite extractEntry_dir by done.
  set (dest := normalizedDestPath cleanTargetFolderPath relativePath) in *.
  destruct (truthy (dirPathOf dest)
            && negb (has (folderPathsCreated st) (dirPathOf dest)))%bool
    eqn:Hg.
  - destruct Hq as (t & r & Hens & Hfc & Hfw & Hin).
    { by apply andb_true_iff in Hg as [? _]. }
    destruct (extractDirectory_call dest st w w t r Hg Hens) as [m ->].
    eexists _, _. split; [reflexivity|].
    rewrite foldersCreated_app, filesWritten_app, Hfc, Hfw.
    split; [by destruct r|]. split; [by destruct r|]. split; [|done].
    intros st' [= <-]. destruct r as [d|]; [|done].
    split; [done|]. apply sound_addFolder; [done|]. by eapply Hin.
  - rewrite extractDirectory_skip by done. exists [], (Normal st).
    split; [done|]. split; [done|]. split; [done|]. split; [|done].
    by intros ? [= <-].
Qed.

Lemma file_entryQuiet cleanTargetFolderPath relativePath zipEntry data w :
  isIgnored relativePath = false ->
  dir zipEntry = false ->
  async zipEntry = inr data ->
  writeQuiet (normalizedDestPath cleanTargetFolderPath relativePath) data w ->
  (parentPathOf (normalizedDestPath cleanTargetFolderPath relativePath) ≠ "" ->
   parentPathOf (normalizedDestPath cleanTargetFolderPath relativePath)
   ≠ cleanTargetFolderPath ->
   ensureQuiet
     (parentPathOf (normalizedDestPath cleanTargetFolderPath relativePath)) w) ->
  entryQuiet cleanTargetFolderPath relativePath zipEntry w.
Proof.
  intros Hi Hd Ha Hwq Hq st Hs.
  rewrite (extractEntry_file _ _ _ _ data) by done.
  set (dest := normalizedDestPath cleanTargetFolderPath relativePath) in *.
  unfold bind.
  destruct (needsParent cleanTargetFolderPath dest st) eqn:Hneed.
  - pose proof Hneed as (Hne & Hclean & _)%needsParent_true.
    destruct (Hq Hne Hclean) as (t & r & Hens & Hfc & Hfw & Hin).
    destruct (ensureParent_call _ _ _ _ _ _ _ Hneed Hens) as [m ->].
    destruct r as [d|].
    + destruct (Hwq (addFolder (parentPathOf dest) st)) as (tw & -> & Hfc' & Hfw').
      eexists _, _. split; [reflexivity|].
      rewrite !foldersCreated_app, !filesWritten_app, Hfc, Hfw, Hfc', Hfw'.
      split; [done|]. split; [done|]. split; [|done].
      intros st' [= <-]. split; [done|].
      apply sound_addFolder; [done|]. by eapply Hin.
    + simpl. eexists _, _. split; [reflexivity|].
      rewrite !foldersCreated_app, !filesWritten_app, Hfc, Hfw.
      split; [done|]. split; [done|]. split; [|done]. by intros st' [= <-].
  - rewrite ensureParent_skip by done.
    destruct (Hwq st) as (tw & -> & Hfc' & Hfw').
    eexists _, _. split; [reflexivity|]. simpl.
    split; [done|]. split; [done|]. split; [|done]. by intros st' [= <-].
Qed.

Lemma orphan_entryQuiet cleanTargetFolderPath relativePath zipEntry data w :
  isIgnored relativePath = false ->
  dir zipEntry = false ->
  async zipEntry = inr data ->
  parentPathOf (normalizedDestPath cleanTargetFolderPath relativePath) ≠ "" ->
  parentPathOf (normalizedDestPath cleanTargetFolderPath relativePath)
  ≠ cleanTargetFolderPath ->
  ensureQuiet
    (parentPathOf (normalizedDestPath cleanTargetFolderPath relativePath)) w ->
  ¬ isFolderIn w
      (parentPathOf (normalizedDestPath cleanTargetFolderPath relativePath)) ->
  entryQuiet cleanTargetFolderPath relativePath zipEntry w.
Proof.
  intros Hi Hd Ha Hne Hclean (t & r & Hens & Hfc & Hfw & Hin) Hnot st Hs.
  rewrite (extractEntry_file _ _ _ _ data) by done.
  set (dest := normalizedDestPath cleanTargetFolderPath relativePath) in *.
  assert (needsParent cleanTargetFolderPath dest st = true) as Hneed.
  { apply needsParent_true. repeat split; try done.
    intros Hin'. apply Hnot. by apply Hs. }
  destruct (ensureParent_call _ _ _ _ _ _ _ Hneed Hens) as [m Hp].
  unfold bind. rewrite Hp. destruct r as [d|].
  { destruct Hnot. by eapply Hin. }
  simpl. eexists _, _. split; [reflexivity|].
  rewrite !foldersCreated_app, !filesWritten_app, Hfc, Hfw.
  split; [done|]. split; [done|]. split; [|done]. by intros st' [= <-].
Qed.

(** What an iteration did once, it need not do again; and the loop state
    it leaves is sound. *)
Lemma entry_settles cleanTargetFolderPath st relativePath zipEntry v v1 t r :
  isFolderIn v cleanTargetFolderPath ->
  sound st v ->
  extractEntry cleanTargetFolderPath st relativePath zipEntry v = (v1, t, r) ->
  settled (entryQuiet cleanTargetFolderPath relativePath zipEntry) v1
  ∧ (∀ st1, r = Normal st1 -> sound st1 v1).
Proof.
  intros Htarget Hs Heq.
  pose proof (extractEntry_reach _ _ _ _ _ _ _ _ Heq) as Hreach.
  destruct (isIgnored relativePath) eqn:Hi.
  { split; [intros w _; by apply ignored_entryQuiet|].
    destruct (extractEntry_ignored cleanTargetFolderPath st relativePath
                zipEntry v Hi) as (t1 & Heq1 & _).
    rewrite Heq in Heq1. injection Heq1 as -> _ ->. by intros ? [= <-]. }
  set (dest := normalizedDestPath cleanTargetFolderPath relativePath) in *.
  destruct (dir zipEntry) eqn:Hd.
  - rewrite extractEntry_dir in Heq by done. fold dest in Heq.
    destruct (truthy (dirPathOf dest)
              && negb (has (folderPathsCreated st) (dirPathOf dest)))%bool
      eqn:Hg.
    + destruct (ensure_cases (dirPathOf dest) v) as (v2 & t2 & r2 & Hens & _).
      destruct (extractDirectory_call dest st v v2 t2 r2 Hg Hens) as [m Hx].
      rewrite Heq in Hx. injection Hx as -> -> ->.
      destruct (ensure_settles _ _ _ _ _ Hens) as (Hset & Hin & _).
      split.
      * intros w Hw. apply directory_entryQuiet; try done. intros _.
        by apply Hset.
      * intros st1 [= <-]. destruct r2 as [d|].
        -- apply sound_addFolder; [by eapply sound_reach|]. by eapply Hin.
        -- by eapply sound_reach.
    + rewrite extractDirectory_skip in Heq by done.
      injection Heq as <- <- <-. split; [|by intros ? [= <-]].
      intros w Hw. apply directory_entryQuiet; try done. intros Ht.
      fold dest in Ht |- *. rewrite Ht in Hg. simpl in Hg. apply negb_false_iff, has_true in Hg.
      apply folder_ensureQuiet. eapply isFolderIn_reach; [done|]. by apply Hs.
  - destruct (async zipEntry) as [e|data] eqn:Ha.
    { rewrite (extractEntry_unreadable _ _ _ _ e) in Heq by done.
      injection Heq as <- <- <-. split; [|done].
      intros w _. by eapply unreadable_entryQuiet. }
    rewrite (extractEntry_file _ _ _ _ data) in Heq by done. fold dest in Heq.
    unfold bind in Heq.
    destruct (needsParent cleanTargetFolderPath dest st) eqn:Hneed.
    + pose proof Hneed as (Hne & Hclean & _)%needsParent_true.
      destruct (ensure_cases (parentPathOf dest) v) as (v2 & t2 & r2 & Hens & _).
      destruct (ensureParent_call _ _ _ _ _ _ _ Hneed Hens) as [m Hp].
      rewrite Hp in Heq.
      destruct (ensure_settles _ _ _ _ _ Hens) as (Hset & Hin & Hnever).
      pose proof (ensure_reach _ _ _ _ _ Hens) as Hr2.
      destruct r2 as [d|].
      * destruct (writeEntry dest data (addFolder (parentPathOf dest) st) v2)
          as [[v3 t3] r3] eqn:Hw.
        injection Heq as <- <- <-.
        pose proof (writeEntry_reach _ _ _ _ _ _ _ Hw) as Hr3.
        split.
        -- intros w Hw'. eapply file_entryQuiet; try done.
           ++ eapply write_settles; [|done|done]. by eapply Hin.
           ++ intros _ _. apply Hset. by etrans.
        -- intros st1 ->.
           destruct (writeEntry_cases dest data
                       (addFolder (parentPathOf dest) st) v2)
             as (v4 & t4 & st4 & Hw4 & _ & Hsame & _).
           rewrite Hw in Hw4. injection Hw4 as <- <- <-.
           intros p Hp'. rewrite Hsame in Hp'. simpl in Hp'.
           eapply isFolderIn_reach; [exact Hr3|].
           apply elem_of_union in Hp' as [->%elem_of_singleton|?];
             [by eapply Hin|].
           eapply isFolderIn_reach; [exact Hr2|]. by apply Hs.
      * simpl in Heq. injection Heq as <- <- <-. split.
        -- intros w Hw'. eapply orphan_entryQuiet; try done.
           ++ by apply Hset.
           ++ by apply Hnever.
        -- intros st1 [= <-]. by eapply sound_reach.
    + rewrite ensureParent_skip in Heq by done.
      destruct (writeEntry dest data st v) as [[v3 t3] r3] eqn:Hw.
      injection Heq as <- <- <-.
      pose proof (writeEntry_reach _ _ _ _ _ _ _ Hw) as Hr3.
      assert (isFolderIn v (parentPathOf dest)) as Hparent.
      { destruct (decide (parentPathOf dest = "")) as [->|Hne]; [by left|].
        destruct (decide (parentPathOf dest = cleanTargetFolderPath))
          as [->|Hclean]; [done|].
        destruct (decide (parentPathOf dest ∈ folderPathsCreated st))
          as [?|Hnin]; [by apply Hs|].
        assert (needsParent cleanTargetFolderPath dest st = true)
          by (by apply needsParent_true). congruence. }
      split.
      * intros w Hw'. eapply file_entryQuiet; try done.
        -- by eapply write_settles.
        -- intros Hne Hclean. apply folder_ensureQuiet.
           eapply (isFolderIn_reach v w); [by etrans|]. apply Hs.
           destruct (decide (parentPathOf dest ∈ folderPathsCreated st))
             as [?|Hnin]; [done|].
           assert (needsParent cleanTargetFolderPath dest st = true)
             by (by apply needsParent_true). congruence.
      * intros st1 ->.
        destruct (writeEntry_cases dest data st v)
          as (v4 & t4 & st4 & Hw4 & _ & Hsame & _).
        rewrite Hw in Hw4. injection Hw4 as <- <- <-.
        intros p Hp'. rewrite Hsame in Hp'.
        eapply isFolderIn_reach; [exact Hr3|]. by apply Hs.
Qed.

Lemma extractEntry_throws cleanTargetFolderPath st relativePath zipEntry
    v v1 t e :
  extractEntry cleanTargetFolderPath st relativePath zipEntry v
  = (v1, t, Throw e) ->
  isIgnored relativePath = false ∧ dir zipEntry = false
  ∧ async zipEntry = inl e.
Proof.
  intros Heq. destruct (isIgnored relativePath) eqn:Hi.
  { destruct (extractEntry_ignored cleanTargetFolderPath st relativePath
                zipEntry v Hi) as (t1 & Heq1 & _). congruence. }
  destruct (dir zipEntry) eqn:Hd.
  { destruct (extractEntry_readable cleanTargetFolderPath st relativePath
                zipEntry v) as (? & ? & ? & Heq1); [by left|congruence]. }
  destruct (async zipEntry) as [e'|data] eqn:Ha.
  - rewrite (extractEntry_unreadable _ _ _ _ e') in Heq by done.
    by injection Heq as _ _ ->.
  - destruct (extractEntry_readable cleanTargetFolderPath st relativePath
                zipEntry v) as (? & ? & ? & Heq1); [right; eauto|congruence].
Qed.

(** After a first pass over the entries, a second pass changes nothing. *)
Lemma forIn_settles cleanTargetFolderPath files st v v1 t r :
  isFolderIn v cleanTargetFolderPath ->
  sound st v ->
  forIn cleanTargetFolderPath files st v = (v1, t, r) ->
  ∀ w st2, reach v1 w -> sound st2 w ->
    ∃ t2 r2,
      forIn cleanTargetFolderPath files st2 w = (w, t2, r2)
      ∧ foldersCreated t2 = [] ∧ filesWritten t2 = []
      ∧ (∀ s2, r2 = Normal s2 -> fileCount s2 = fileCount st2)
      ∧ (∀ s, r = Normal s -> ∃ s2, r2 = Normal s2)
      ∧ (∀ e, r = Throw e -> r2 = Throw e).
Proof.
  revert st v t. induction files as [|[rel ze] files IH];
    intros st v t Htarget Hs Heq w st2 Hw Hs2.
  { simpl in *. unfold ret in *. injection Heq as <- <- <-.
    exists [], (Normal st2). split; [done|]. split; [done|]. split; [done|].
    split; [by intros ? [= <-]|]. split; [eauto|done]. }
  simpl in Heq |- *. unfold bind in Heq |- *.
  destruct (extractEntry cleanTargetFolderPath st rel ze v)
    as [[va ta] ra] eqn:He.
  destruct (entry_settles _ _ _ _ _ _ _ _ Htarget Hs He) as [Hset Hsa].
  pose proof (isFolderIn_reach _ _ _ (extractEntry_reach _ _ _ _ _ _ _ _ He)
                Htarget) as Htarget'.
  destruct ra as [sa|e].
  - destruct (forIn cleanTargetFolderPath files sa va)
      as [[vb tb] rb] eqn:Hf.
    injection Heq as <- <- <-.
    pose proof (forIn_reach _ _ _ _ _ _ _ Hf) as Hrb.
    destruct (Hset w (transitivity Hrb Hw) st2 Hs2)
      as (t' & r' & He' & Hfc' & Hfw' & Hn' & Ht').
    destruct r' as [s'|e'].
    + destruct (Hn' s' eq_refl) as [Hc' Hs'].
      destruct (IH sa va tb Htarget' (Hsa sa eq_refl) Hf w s' Hw Hs')
        as (t2 & r2 & Hf2 & Hfc2 & Hfw2 & Hn2 & Hk2 & Hk2').
      rewrite He', Hf2. eexists _, _. split; [reflexivity|].
      rewrite foldersCreated_app, filesWritten_app, Hfc', Hfw', Hfc2, Hfw2.
      split; [done|]. split; [done|]. split; [|done].
      intros s2 Hr2. rewrite (Hn2 s2 Hr2). done.
    + destruct (Ht' e' eq_refl) as (Hi & Hd & Ha).
      rewrite (extractEntry_unreadable _ _ _ _ e') in He by done. done.
  - injection Heq as <- <- <-.
    destruct (extractEntry_throws _ _ _ _ _ _ _ _ He) as (Hi & Hd & Ha).
    rewrite (extractEntry_unreadable _ _ _ _ e) by done.
    exists [], (Throw e). split; [done|]. split; [done|]. split; [done|].
    split; [done|]. split; [done|]. by intros ? [= <-].
Qed.

Lemma unzipAndWrite_undecoded target cleanTargetFolderPath zipData e v :
  loadAsync zipData = inl e ->
  ∃ t, unzipAndWrite target cleanTargetFolderPath zipData v = (v, t, Normal tt)
       ∧ foldersCreated t = [] ∧ filesWritten t = [].
Proof.
  intros Hload.
  unfold unzipAndWrite, tryCatch, bind, jszipLoadAsync. rewrite Hload. simpl.
  unfold bind, consoleError, consoleWarn, notice, emit.
  destruct (saysFileAlreadyExists e); simpl; eexists; done.
Qed.

Lemma unzipAndWrite_decoded target cleanTargetFolderPath zipData files
    v vf tf rf :
  loadAsync zipData = inr files ->
  forIn cleanTargetFolderPath files initialLoopState v = (vf, tf, rf) ->
  ∃ tail,
    unzipAndWrite target cleanTargetFolderPath zipData v
    = (vf, JSZipLoadAsync zipData true :: tf ++ tail, Normal tt)
    ∧ Forall (fun ev => isCall ev = false) tail
    ∧ (∀ st, rf = Normal st ->
         NewNotice (summaryNotice (fileCount st) target) ∈ tail).
Proof.
  intros Hload Hf.
  unfold unzipAndWrite, tryCatch, bind, jszipLoadAsync. rewrite Hload, Hf.
  destruct rf as [st|e]; simpl.
  - eexists. split; [reflexivity|]. split; [by repeat constructor|].
    intros ? [= <-]. rewrite !elem_of_cons. eauto.
  - unfold bind, consoleError, consoleWarn, notice, emit.
    destruct (saysFileAlreadyExists e); simpl;
      (eexists; split; [reflexivity|]; split; [by repeat constructor|done]).
Qed.

(** C2.  On a stable host, with a target folder that exists, extracting
    the same archive a second time into the vault the first extraction left
    changes nothing: the vault is the same, no file is written and no folder
    is created; and when the loop of the second run ends normally, the file
    count it reports is 0. *)
Theorem extraction_idempotent target cleanTargetFolderPath zipData v v1 t1 r1 :
  isFolderIn v cleanTargetFolderPath ->
  unzipAndWrite target cleanTargetFolderPath zipData v = (v1, t1, r1) ->
  ∃ t2,
    unzipAndWrite target cleanTargetFolderPath zipData v1 = (v1, t2, Normal tt)
    ∧ filesWritten t2 = [] ∧ foldersCreated t2 = []
    ∧ (∀ files w tl st',
         loadAsync zipData = inr files ->
         forIn cleanTargetFolderPath files initialLoopState v1
         = (w, tl, Normal st') ->
         fileCount st' = 0%nat
         ∧ NewNotice (summaryNotice 0 target) ∈ t2).
Proof.
  intros Htarget Hrun. destruct (loadAsync zipData) as [e|files] eqn:Hload.
  - destruct (unzipAndWrite_undecoded target cleanTargetFolderPath zipData e v
                Hload) as (t & Heq & _).
    rewrite Hrun in Heq. injection Heq as -> _ _.
    destruct (unzipAndWrite_undecoded target cleanTargetFolderPath zipData e v
                Hload) as (t2 & Heq2 & ? & ?).
    exists t2. split; [done|]. split; [done|]. split; [done|]. done.
  - destruct (forIn cleanTargetFolderPath files initialLoopState v)
      as [[vf tf] rf] eqn:Hf.
    destruct (unzipAndWrite_decoded target _ _ _ _ _ _ _ Hload Hf)
      as (tail & Heq & _).
    rewrite Hrun in Heq. injection Heq as -> _ _.
    assert (sound initialLoopState v) as Hs0 by (by intros p Hp).
    assert (sound initialLoopState vf) as Hs1 by (by intros p Hp).
    destruct (forIn_settles _ _ _ _ _ _ _ Htarget Hs0 Hf vf initialLoopState
                (rtc_refl _ _) Hs1)
      as (t2 & r2 & Hf2 & Hfc2 & Hfw2 & Hn2 & _).
    destruct (unzipAndWrite_decoded target _ _ _ _ _ _ _ Hload Hf2)
      as (tail2 & Heq2 & Hcalls2 & Hsum2).
    apply no_call_traces in Hcalls2 as [Hfw3 Hfc3].
    eexists. split; [exact Heq2|]. simpl.
    rewrite filesWritten_app, foldersCreated_app, Hfc2, Hfw2, Hfc3, Hfw3.
    split; [done|]. split; [done|].
    intros files' w tl st' [= <-] Hf'. rewrite Hf2 in Hf'.
    injection Hf' as <- <- ->. rewrite (Hn2 st' eq_refl). split; [done|].
    apply elem_of_cons. right. apply elem_of_app. right.
    specialize (Hsum2 st' eq_refl). by rewrite (Hn2 st' eq_refl) in Hsum2.
Qed.

End Idempotence.

(** ** The in-memory vault is stable when no creation races *)

Section MemVaultStable.
Context (cfg : MemVault.Config).
Hypothesis no_race : ∀ p, MemVault.racesFolder cfg p = false.

Lemma MemVault_lookup_fresh (v : gmap string MemVault.Node) p' n p x :
  MemVault.lookupNode v p' = None ->
  MemVault.lookupNode v p = Some x ->
  MemVault.lookupNode (<[p' := n]> v) p = Some x.
Proof.
  intros Hfresh Hx. destruct (decide (p = p')) as [->|Hne]; [congruence|].
  unfold MemVault.lookupNode in *. by rewrite lookup_insert_ne.
Qed.

Lemma MemVault_mkdir_cases (v : gmap string MemVault.Node) p :
  (∃ e, MemVault.mkdir cfg v p = (v, inl e)
        ∧ (is_Some (MemVault.lookupNode v p)
           ∨ MemVault.refusesFolder cfg p = true))
  ∨ (MemVault.lookupNode v p = None ∧ MemVault.refusesFolder cfg p = false
     ∧ MemVault.mkdir cfg v p
       = (<[p := MemVault.FolderNode]> v, inr {| path := p |})).
Proof.
  unfold MemVault.mkdir. rewrite no_race.
  destruct (MemVault.lookupNode v p) eqn:Hl; [left; eauto|].
  destruct (MemVault.refusesFolder cfg p); [left; eauto|right; eauto].
Qed.

Lemma MemVault_write_cases (v : gmap string MemVault.Node) p d :
  (∃ e, MemVault.writeBinary cfg v p d = (v, inl e)
        ∧ (is_Some (MemVault.lookupNode v p)
           ∨ is_Some (MemVault.refusesBinary cfg p)))
  ∨ (MemVault.lookupNode v p = None ∧ MemVault.refusesBinary cfg p = None
     ∧ MemVault.writeBinary cfg v p d
       = (<[p := MemVault.FileNode d]> v, inr tt)).
Proof.
  unfold MemVault.writeBinary.
  destruct (MemVault.lookupNode v p) eqn:Hl; [left; eauto|].
  destruct (MemVault.refusesBinary cfg p) eqn:Hr; [left; eauto|right; eauto].
Qed.

Lemma MemVault_lookup_step v w p x :
  @step _ (MemVault.host cfg) v w ->
  MemVault.lookupNode v p = Some x -> MemVault.lookupNode w p = Some x.
Proof.
  intros Hstep Hx. destruct Hstep as [v p'|v p' d]; simpl.
  - destruct (MemVault_mkdir_cases v p') as [(e & -> & _)|(Hf & _ & ->)];
      [done|]. by apply MemVault_lookup_fresh.
  - destruct (MemVault_write_cases v p' d) as [(e & -> & _)|(Hf & _ & ->)];
      [done|]. by apply MemVault_lookup_fresh.
Qed.

Lemma MemVault_lookup_reach v w p x :
  @reach _ (MemVault.host cfg) v w ->
  MemVault.lookupNode v p = Some x -> MemVault.lookupNode w p = Some x.
Proof.
  induction 1 as [|v1 v2 v3 Hstep _ IH]; [done|]. intros Hx. apply IH.
  by eapply MemVault_lookup_step.
Qed.

Lemma MemVault_inserted_folder (v : gmap string MemVault.Node) p :
  MemVault.lookupNode (<[p := MemVault.FolderNode]> v) p
  = Some (AFolder {| path := p |}).
Proof. unfold MemVault.lookupNode. by rewrite lookup_insert_eq. Qed.

Lemma MemVault_inserted_file (v : gmap string MemVault.Node) p d :
  MemVault.lookupNode (<[p := MemVault.FileNode d]> v) p = Some (AFile p).
Proof. unfold MemVault.lookupNode. by rewrite lookup_insert_eq. Qed.

Lemma MemVault_refused_never_folder v w p :
  MemVault.refusesFolder cfg p = true ->
  @reach _ (MemVault.host cfg) v w ->
  (∀ d, MemVault.lookupNode v p ≠ Some (AFolder d)) ->
  ∀ d, MemVault.lookupNode w p ≠ Some (AFolder d).
Proof.
  intros Href. induction 1 as [|v1 v2 v3 Hstep _ IH]; [done|].
  intros Hno. apply IH. clear IH. intros d.
  destruct Hstep as [v p'|v p' b]; simpl.
  - destruct (MemVault_mkdir_cases v p') as [(e & -> & _)|(Hf & Hok & ->)];
      [done|].
    cbn [fst]. destruct (decide (p = p')) as [->|Hne]; [congruence|].
    unfold MemVault.lookupNode in *. by rewrite lookup_insert_ne.
  - destruct (MemVault_write_cases v p' b) as [(e & -> & _)|(Hf & Hok & ->)];
      [done|].
    cbn [fst]. destruct (decide (p = p')) as [->|Hne].
    + by rewrite MemVault_inserted_file.
    + unfold MemVault.lookupNode in *. by rewrite lookup_insert_ne.
Qed.

Lemma MemVault_stable : @Stable _ (MemVault.host cfg).
Proof.
  split; simpl.
  - intros v p v' e Hmk.
    destruct (MemVault_mkdir_cases v p) as [(e' & Heq & _)|(_ & _ & Heq)];
      congruence.
  - intros v p d v' e Hmk.
    destruct (MemVault_write_cases v p d) as [(e' & Heq & _)|(_ & _ & Heq)];
      congruence.
  - intros v w p x. apply MemVault_lookup_step.
  - intros v p v' d Hmk.
    destruct (MemVault_mkdir_cases v p) as [(e' & Heq & _)|(_ & _ & Heq)];
      [congruence|].
    rewrite Hmk in Heq. injection Heq as -> _. eexists.
    apply MemVault_inserted_folder.
  - intros v p v' e w Hmk Hno Hw.
    destruct (MemVault_mkdir_cases v p) as [(e' & Heq & Hwhy)|(_ & _ & Heq)];
      [|congruence].
    rewrite Hmk in Heq. injection Heq as -> _.
    destruct Hwhy as [[x Hx]|Href].
    + pose proof (MemVault_lookup_reach _ _ _ _ Hw Hx) as Hxw.
      split; [|congruence]. intros d Hd. apply (Hno d). congruence.
    + split; [by eapply MemVault_refused_never_folder|].
      intros Hnone. unfold MemVault.mkdir. rewrite Hnone, no_race, Href. eauto.
  - intros v p d v' r w Hmk _ Hw.
    assert (∀ x, MemVault.lookupNode w p = Some x ->
                 ∃ e', MemVault.writeBinary cfg w p d = (w, inl e')) as Hocc.
    { intros x Hx. unfold MemVault.writeBinary. rewrite Hx. eauto. }
    destruct (MemVault_write_cases v p d) as [(e' & Heq & Hwhy)|(_ & _ & Heq)].
    + rewrite Hmk in Heq. injection Heq as -> _.
      destruct Hwhy as [[x Hx]|[e'' Href]].
      * eapply Hocc. by eapply MemVault_lookup_reach.
      * destruct (MemVault.lookupNode w p) as [x|] eqn:Hx; [by eapply Hocc|].
        unfold MemVault.writeBinary. rewrite Hx, Href. eauto.
    + rewrite Hmk in Heq. injection Heq as -> _.
      eapply Hocc. eapply MemVault_lookup_reach; [done|].
      apply MemVault_inserted_file.
Qed.

End MemVaultStable.

Lemma extraction_idempotent_witness :
  let cfg :=
    MemVault.plain [Byte.x50]
      [("week1/", dirEntry);
       ("week1/slides.pdf", fileEntry [Byte.x01; Byte.x02]);
       ("__MACOSX/._slides.pdf", fileEntry []);
       (".DS_Store", fileEntry [])] in
  let host := MemVault.host cfg in
  let target := {| path := "Course Modules" |} in
  let first :=
    @unzipAndWrite _ host target "Course Modules" [Byte.x50]
      {["Course Modules" := MemVault.FolderNode]} in
  ∃ t2,
    @unzipAndWrite _ host target "Course Modules" [Byte.x50] first.1.1
    = (first.1.1, t2, Normal tt)
    ∧ filesWritten t2 = [] ∧ foldersCreated t2 = []
    ∧ (∀ files w tl st',
         @loadAsync _ host [Byte.x50] = inr files ->
         @forIn _ host "Course Modules" files initialLoopState first.1.1
         = (w, tl, Normal st') ->
         fileCount st' = 0%nat
         ∧ NewNotice (summaryNotice 0 target) ∈ t2).
Proof.
  intros cfg host target first.
  apply (@extraction_idempotent _ host
           (MemVault_stable cfg (fun _ => eq_refl))
           target "Course Modules" [Byte.x50]
           {["Course Modules" := MemVault.FolderNode]}
           first.1.1 first.1.2 first.2).
  - right. by eexists.
  - vm_compute. reflexivity.
Defined.

(** The two runs of the witness, evaluated. *)
Example extraction_twice :
  let host :=
    MemVault.host
      (MemVault.plain [Byte.x50]
         [("week1/", dirEntry);
          ("week1/slides.pdf", fileEntry [Byte.x01; Byte.x02]);
          ("__MACOSX/._slides.pdf", fileEntry []);
          (".DS_Store", fileEntry [])]) in
  let target := {| path := "Course Modules" |} in
  let first :=
    @unzipAndWrite _ host target "Course Modules" [Byte.x50]
      {["Course Modules" := MemVault.FolderNode]} in
  let second :=
    @unzipAndWrite _ host target "Course Modules" [Byte.x50] first.1.1 in
  filesWritten first.1.2 = ["Course Modules/week1/slides.pdf"]
  ∧ foldersCreated first.1.2 = ["Course Modules/week1"]
  ∧ notices first.1.2
    = ["Created folder: Course Modules/week1";
       "Successfully extracted 1 new file(s) to 'Course Modules'."]
  ∧ second.1.1 = first.1.1
  ∧ filesWritten second.1.2 = []
  ∧ notices second.1.2
    = ["Successfully extracted 0 new file(s) to 'Course Modules'."].
Proof. vm_compute. repeat split. Qed.

(** ** Where the destination path leads *)

Section Resolver.

Lemma entrySegments_plain p :
  JS.replaceBackslashes p = p ->
  PathSemantics.entrySegments p = PathSemantics.segments p.
Proof. unfold PathSemantics.entrySegments. by intros ->. Qed.

Lemma locate_normalizedDestPath cleanTargetFolderPath relativePath r :
  JS.replaceBackslashes cleanTargetFolderPath = cleanTargetFolderPath ->
  PathSemantics.locate cleanTargetFolderPath = Some r ->
  PathSemantics.locate (normalizedDestPath cleanTargetFolderPath relativePath)
  = reverse <$> PathSemantics.walk (reverse r)
                  (PathSemantics.entrySegments relativePath).
Proof.
  intros Hclean Hr. unfold PathSemantics.locate in *.
  rewrite segments_normalizedDestPath, walk_app.
  rewrite (entrySegments_plain cleanTargetFolderPath) by done.
  destruct (PathSemantics.walk [] (PathSemantics.segments cleanTargetFolderPath))
    as [there|]; [|done].
  simpl in Hr. injection Hr as <-. simpl. by rewrite reverse_involutive.
Qed.

(** C1, as the code has it.  The destination is the target path followed by
    the entry name, and it denotes the location reached from the target by
    walking the segments of the entry name, [..] included: no segment is
    rejected or rewritten.  For a target path without backslashes that
    denotes a location of the vault, an entry name without a [..] segment
    leads to a location inside the target's subtree. *)
Theorem destination_follows_entry_segments cleanTargetFolderPath relativePath r :
  JS.replaceBackslashes cleanTargetFolderPath = cleanTargetFolderPath ->
  PathSemantics.locate cleanTargetFolderPath = Some r ->
  PathSemantics.segments (normalizedDestPath cleanTargetFolderPath relativePath)
  = PathSemantics.segments cleanTargetFolderPath
    ++ PathSemantics.entrySegments relativePath
  ∧ PathSemantics.locate (normalizedDestPath cleanTargetFolderPath relativePath)
    = reverse <$> PathSemantics.walk (reverse r)
                    (PathSemantics.entrySegments relativePath)
  ∧ (".." ∉ PathSemantics.entrySegments relativePath ->
     PathSemantics.inside cleanTargetFolderPath
       (normalizedDestPath cleanTargetFolderPath relativePath)).
Proof.
  intros Hclean Hr. split; [|split].
  - rewrite segments_normalizedDestPath.
    by rewrite (entrySegments_plain cleanTargetFolderPath).
  - by apply locate_normalizedDestPath.
  - intros Hno. exists r. eexists. split; [done|].
    rewrite (locate_normalizedDestPath _ _ r) by done.
    rewrite walk_no_dotdot by done. simpl.
    by rewrite reverse_app, !reverse_involutive.
Qed.

End Resolver.

Lemma destination_follows_entry_segments_witness :
  PathSemantics.segments (normalizedDestPath "Course Modules" "week1\.\slides.pdf")
  = ["Course Modules"; "week1"; "."; "slides.pdf"]
  ∧ PathSemantics.locate (normalizedDestPath "Course Modules" "week1\.\slides.pdf")
    = Some ["Course Modules"; "week1"; "slides.pdf"]
  ∧ PathSemantics.inside "Course Modules"
      (normalizedDestPath "Course Modules" "week1\.\slides.pdf").
Proof.
  destruct (destination_follows_entry_segments "Course Modules"
              "week1\.\slides.pdf" ["Course Modules"] eq_refl eq_refl)
    as (Hseg & Hloc & Hin).
  split; [exact Hseg|]. split; [exact Hloc|]. apply Hin.
  vm_compute. intros Hin'. 
  repeat (apply elem_of_cons in Hin' as [Hin'|Hin']; [discriminate|]).
  by apply elem_of_nil in Hin'.
Defined.

(** C1, as stated, fails: the entry [../../escape.txt] is not ignored, its
    destination keeps both [..] segments and denotes a location outside the
    target folder, and the loop writes the file there. *)
Lemma dotdot_entry_escapes :
  let dest := normalizedDestPath "Courses/Modules" "../../escape.txt" in
  let run :=
    @extractEntry _ (MemVault.host (MemVault.plain [] []))
      "Courses/Modules" initialLoopState "../../escape.txt"
      (fileEntry [Byte.x41])
      {["Courses" := MemVault.FolderNode;
        "Courses/Modules" := MemVault.FolderNode]} in
  isIgnored "../../escape.txt" = false
  ∧ dest = "Courses/Modules/../../escape.txt"
  ∧ PathSemantics.locate "Courses/Modules" = Some ["Courses"; "Modules"]
  ∧ PathSemantics.locate dest = Some ["escape.txt"]
  ∧ ¬ PathSemantics.inside "Courses/Modules" dest
  ∧ filesWritten run.1.2 = ["Courses/Modules/../../escape.txt"].
Proof.
  repeat split; try (vm_compute; reflexivity).
  intros (r & q & Hr & Hq). vm_compute in Hr, Hq.
  injection Hr as <-. discriminate.
Qed.

(** ** The whole of [downloadAndUnzip] on an archive that does not decode *)

Section WholeRun.
Context {Vault : Type} `{Host Vault}.

(** With a valid URL, a target folder that exists and a download that
    succeeds, a buffer that the decoder rejects leaves the vault as
    [downloadAndUnzip] found it. *)
Lemma downloadAndUnzip_undecoded settings url v d zipData e :
  (JS.startsWith url "http://" || JS.startsWith url "https://")%bool = true ->
  folderKey (targetFolder settings) ≠ "" ->
  getAbstractFileByPath v (folderKey (targetFolder settings))
  = Some (AFolder d) ->
  requestUrl (dropboxFix url) = inr zipData ->
  loadAsync zipData = inl e ->
  ∃ t, downloadAndUnzip settings url v = (v, t, Normal tt)
       ∧ filesWritten t = [] ∧ foldersCreated t = [].
Proof.
  intros Hurl Hk Hget Hreq Hload. unfold downloadAndUnzip.
  assert ((negb (JS.startsWith url "http://")
           && negb (JS.startsWith url "https://"))%bool = false) as ->.
  { by destruct (JS.startsWith url "http://"),
      (JS.startsWith url "https://"). }
  unfold bind at 1. rewrite (ensure_found_folder _ v d) by done.
  unfold bind at 1.
  assert (∃ tq, download (dropboxFix url) v = (v, tq, Normal (Some zipData))
                ∧ filesWritten tq = [] ∧ foldersCreated tq = [])
    as (tq & -> & Hq1 & Hq2).
  { unfold download, tryCatch, bind, doRequestUrl, notice, consoleLog, emit.
    rewrite Hreq. simpl. eexists. done. }
  destruct (unzipAndWrite_undecoded d (cleanTargetFolderPathOf d) zipData e v
              Hload) as (tu & -> & Hu1 & Hu2).
  eexists. split; [reflexivity|]. simpl.
  by rewrite filesWritten_app, foldersCreated_app, Hq1, Hq2, Hu1, Hu2.
Qed.

End WholeRun.

(** ** More facts about the strings of the plugin *)

Section MoreStrings.

Lemma startsWith_cons d s c p :
  JS.startsWith (String d s) (String c p) = (Ascii.eqb c d && JS.startsWith s p)%bool.
Proof. cbn [JS.startsWith]. by destruct (Ascii.eqb c d). Qed.

Lemma startsWith_nil s : JS.startsWith s "" = true.
Proof. by destruct s. Qed.

Lemma includes_cons d s p :
  JS.includes (String d s) p = (JS.startsWith (String d s) p || JS.includes s p)%bool.
Proof. cbn [JS.includes]. by destruct (JS.startsWith (String d s) p). Qed.

Lemma includes_nil p : JS.includes "" p = JS.startsWith "" p.
Proof. cbn [JS.includes]. by destruct (JS.startsWith "" p). Qed.

Lemma startsWith_spec s p :
  JS.startsWith s p = true <-> ∃ r, s = p +:+ r.
Proof.
  revert s. induction p as [|c p IH]; intros s.
  - rewrite startsWith_nil. split; [eauto|done].
  - destruct s as [|d s].
    + split; [done|]. by intros [r ?].
    + rewrite startsWith_cons, andb_true_iff, IH. split.
      * intros [->%Ascii.eqb_eq [r ->]]. by exists r.
      * intros [r [= -> ->]]. split; [apply Ascii.eqb_refl|eauto].
Qed.

Lemma startsWith_app s r : JS.startsWith (s +:+ r) s = true.
Proof. apply startsWith_spec. eauto. Qed.

Lemma includes_app_r a s p :
  JS.includes s p = true -> JS.includes (a +:+ s) p = true.
Proof.
  intros Hs. induction a as [|c a IH]; [done|].
  change (String c a +:+ s) with (String c (a +:+ s)).
  rewrite includes_cons, IH. apply orb_true_r.
Qed.

Lemma includes_starts s p : JS.startsWith s p = true -> JS.includes s p = true.
Proof.
  intros Hs. destruct s; [by rewrite includes_nil|].
  by rewrite includes_cons, Hs.
Qed.

Lemma string_app_assoc (a b c : string) : (a +:+ b) +:+ c = a +:+ (b +:+ c).
Proof.
  induction a as [|x a IH]; [done|].
  change (String x ((a +:+ b) +:+ c) = String x (a +:+ b +:+ c)). by f_equal.
Qed.

(** A string that includes [a ++ b] includes [b]. *)
Lemma includes_suffix s a b :
  JS.includes s (a +:+ b) = true -> JS.includes s b = true.
Proof.
  induction s as [|d s IH].
  - rewrite includes_nil. intros [r Hr]%startsWith_spec.
    destruct a; [|done]. destruct b; [|done]. done.
  - rewrite includes_cons. intros [Hst|Hin]%orb_true_iff.
    + apply startsWith_spec in Hst as [r Hr]. rewrite Hr.
      rewrite string_app_assoc.
      apply includes_app_r, includes_starts, startsWith_app.
    + rewrite includes_cons, (IH Hin). apply orb_true_r.
Qed.

Lemma replaceFirst_eq s p r :
  JS.replaceFirst s p r
  = if JS.startsWith s p
    then r +:+ String.substring (String.length p) (String.length s) s
    else match s with
         | EmptyString => EmptyString
         | String c s' => String c (JS.replaceFirst s' p r)
         end.
Proof. by destruct s. Qed.

(** [replace] leaves a string without the pattern as it is. *)
Lemma replaceFirst_absent s p r :
  JS.includes s p = false -> JS.replaceFirst s p r = s.
Proof.
  induction s as [|c s IH]; intros Hin; rewrite replaceFirst_eq.
  - rewrite includes_nil in Hin. by rewrite Hin.
  - rewrite includes_cons in Hin. apply orb_false_iff in Hin as [-> Hin].
    by rewrite IH.
Qed.

Lemma replaceBackslashes_absent s :
  JS.includes s "\" = false -> JS.replaceBackslashes s = s.
Proof.
  induction s as [|c s IH]; [done|].
  rewrite includes_cons, startsWith_cons, startsWith_nil, andb_true_r.
  intros [Hc Hin]%orb_false_iff. cbn [JS.replaceBackslashes].
  rewrite IH by done.
  rewrite Ascii.eqb_sym in Hc. unfold JS.backslash. by rewrite Hc.
Qed.

Lemma replaceBackslashes_clean s :
  JS.includes (JS.replaceBackslashes s) "\" = false.
Proof.
  induction s as [|c s IH]; [done|]. cbn [JS.replaceBackslashes].
  rewrite includes_cons, startsWith_cons, startsWith_nil, andb_true_r, IH.
  rewrite orb_false_r. unfold JS.backslash, JS.slash.
  destruct (Ascii.eqb_spec c "\") as [->|Hne]; [done|].
  by apply Ascii.eqb_neq.
Qed.

Lemma collapse_cons_other c s :
  Ascii.eqb c JS.slash = false ->
  JS.collapseSlashes (String c s) = String c (JS.collapseSlashes s).
Proof. simpl. by intros ->. Qed.

Lemma collapse_slash_slash s :
  JS.collapseSlashes (String JS.slash (String JS.slash s))
  = JS.collapseSlashes (String JS.slash s).
Proof. done. Qed.

Lemma collapse_slash_other d s :
  Ascii.eqb d JS.slash = false ->
  JS.collapseSlashes (String JS.slash (String d s))
  = String JS.slash (String d (JS.collapseSlashes s)).
Proof.
  intros Hd.
  change (JS.collapseSlashes (String JS.slash (String d s)))
    with (if Ascii.eqb d JS.slash then JS.collapseSlashes (String d s)
          else String JS.slash (JS.collapseSlashes (String d s))).
  rewrite Hd. by rewrite collapse_cons_other.
Qed.

(** The three shapes of a string, as [collapseSlashes] reads it. *)
Lemma collapse_ind (P : string -> Prop) :
  P "" ->
  P (String JS.slash "") ->
  (∀ s, P (String JS.slash s) -> P (String JS.slash (String JS.slash s))) ->
  (∀ d s, Ascii.eqb d JS.slash = false -> P (String d s) ->
          P (String JS.slash (String d s))) ->
  (∀ c s, Ascii.eqb c JS.slash = false -> P s -> P (String c s)) ->
  ∀ s, P s.
Proof.
  intros H0 H1 H2 H3 H4 s. induction s as [|c s IH]; [done|].
  destruct (Ascii.eqb c JS.slash) eqn:Hc; [|by apply H4].
  apply Ascii.eqb_eq in Hc as ->. destruct s as [|d s]; [done|].
  destruct (Ascii.eqb d JS.slash) eqn:Hd.
  - apply Ascii.eqb_eq in Hd as ->. by apply H2.
  - by apply H3.
Qed.

Lemma collapse_head_slash s :
  ∃ r, JS.collapseSlashes (String JS.slash s) = String JS.slash r.
Proof.
  induction s as [|d s IH]; [by exists ""|].
  destruct (Ascii.eqb d JS.slash) eqn:Hd.
  - apply Ascii.eqb_eq in Hd as ->. by rewrite collapse_slash_slash.
  - rewrite collapse_slash_other by done. eauto.
Qed.

Lemma collapse_no_double s :
  JS.includes (JS.collapseSlashes s) "//" = false.
Proof.
  induction s using collapse_ind.
  - done.
  - done.
  - by rewrite collapse_slash_slash.
  - rewrite collapse_slash_other by done.
    rewrite collapse_cons_other in IHs by done.
    rewrite includes_cons, IHs, startsWith_cons, startsWith_cons.
    rewrite (Ascii.eqb_sym "/" d). unfold JS.slash in *. rewrite H.
    by rewrite andb_false_r.
  - rewrite collapse_cons_other by done.
    rewrite includes_cons, IHs, startsWith_cons.
    rewrite (Ascii.eqb_sym "/" c). unfold JS.slash in *. by rewrite H.
Qed.

Lemma collapse_keeps_no_backslash s :
  JS.includes s "\" = false ->
  JS.includes (JS.collapseSlashes s) "\" = false.
Proof.
  assert (∀ c x, JS.includes (String c x) "\"
                 = (Ascii.eqb "\" c || JS.includes x "\")%bool) as Hc.
  { intros c x.
    by rewrite includes_cons, startsWith_cons, startsWith_nil, andb_true_r. }
  induction s using collapse_ind.
  - done.
  - by intros _.
  - rewrite collapse_slash_slash. rewrite (Hc JS.slash). intros Hs. by apply IHs.
  - rewrite collapse_slash_other by done. rewrite !Hc.
    intros [? [? ?]%orb_false_iff]%orb_false_iff.
    rewrite collapse_cons_other in IHs by done. rewrite !Hc in IHs.
    apply orb_false_iff. split; [done|]. apply IHs. by apply orb_false_iff.
  - rewrite collapse_cons_other by done. rewrite !Hc.
    intros [? ?]%orb_false_iff. apply orb_false_iff. split; [done|]. by apply IHs.
Qed.

(** X1.  Whatever the target and the entry name, the destination of line
    365 holds no backslash and no two slashes in a row. *)
Theorem destination_is_normalized cleanTargetFolderPath relativePath :
  JS.includes (normalizedDestPath cleanTargetFolderPath relativePath) "\" = false
  ∧ JS.includes (normalizedDestPath cleanTargetFolderPath relativePath) "//"
    = false.
Proof.
  unfold normalizedDestPath. split.
  - apply collapse_keeps_no_backslash, replaceBackslashes_clean.
  - apply collapse_no_double.
Qed.

Lemma sliceInit_no_trailing s :
  JS.includes s "//" = false ->
  JS.endsWithChar s JS.slash = true ->
  JS.endsWithChar (JS.sliceInit s) JS.slash = false.
Proof.
  induction s as [|c s IH]; [done|]. destruct s as [|d s]; [done|].
  rewrite includes_cons. intros [Hst Hin]%orb_false_iff.
  destruct s as [|e s].
  - cbn [JS.endsWithChar JS.sliceInit]. intros ->%Ascii.eqb_eq.
    rewrite !startsWith_cons, startsWith_nil in Hst.
    unfold JS.slash in *. rewrite Ascii.eqb_refl, !andb_true_r in Hst.
    by rewrite Ascii.eqb_sym.
  - intros Hend. specialize (IH Hin Hend). revert IH.
    cbn [JS.sliceInit]. destruct (JS.sliceInit (String e s)); done.
Qed.

(** X2.  The folder path that a directory entry hands to
    [ensureFolderExists] (line 370) never ends with a slash. *)
Theorem directory_path_has_no_trailing_slash cleanTargetFolderPath relativePath :
  JS.endsWithChar
    (dirPathOf (normalizedDestPath cleanTargetFolderPath relativePath))
    JS.slash = false.
Proof.
  unfold dirPathOf.
  destruct (JS.endsWithChar (normalizedDestPath _ _) JS.slash) eqn:Hend;
    [|done].
  apply sliceInit_no_trailing; [|done]. apply collapse_no_double.
Qed.

Lemma endsWithChar_cons c s ch :
  JS.endsWithChar (String c s) ch
  = match s with
    | EmptyString => Ascii.eqb c ch
    | _ => JS.endsWithChar s ch
    end.
Proof. by destruct s. Qed.

Lemma collapse_app_plain a b :
  JS.includes a "//" = false ->
  JS.endsWithChar a JS.slash = false ->
  JS.collapseSlashes (a +:+ b) = a +:+ JS.collapseSlashes b.
Proof.
  induction a as [| |s IHa|d s Hd IHa|c s Hc IHa] using collapse_ind.
  - done.
  - done.
  - intros Hin. rewrite includes_cons, !startsWith_cons, startsWith_nil in Hin.
    unfold JS.slash in Hin. by rewrite !Ascii.eqb_refl in Hin.
  - rewrite includes_cons. intros [_ Hin]%orb_false_iff Hend.
    change (String JS.slash (String d s) +:+ b)
      with (String JS.slash (String d (s +:+ b))).
    rewrite collapse_slash_other by done.
    rewrite <- (collapse_cons_other d) by done.
    change (String d (s +:+ b)) with (String d s +:+ b).
    by rewrite IHa.
  - rewrite includes_cons. intros [_ Hin]%orb_false_iff Hend.
    change (String c s +:+ b) with (String c (s +:+ b)).
    rewrite collapse_cons_other by done. rewrite IHa; [done|done|].
    rewrite endsWithChar_cons in Hend. by destruct s.
Qed.

Lemma normalizedDestPath_under cleanTargetFolderPath relativePath :
  plainPath cleanTargetFolderPath ->
  normalizedDestPath cleanTargetFolderPath relativePath
  = cleanTargetFolderPath
    +:+ JS.collapseSlashes ("/" +:+ JS.replaceBackslashes relativePath)
  ∧ JS.startsWith (normalizedDestPath cleanTargetFolderPath relativePath)
      (cleanTargetFolderPath +:+ "/") = true.
Proof.
  intros (Hne & Hbs & Hdbl & Hend).
  assert (normalizedDestPath cleanTargetFolderPath relativePath
          = cleanTargetFolderPath
            +:+ JS.collapseSlashes ("/" +:+ JS.replaceBackslashes relativePath))
    as Heq.
  { unfold normalizedDestPath, fullDestPath.
    apply truthy_true in Hne. rewrite Hne.
    rewrite !replaceBackslashes_app, replaceBackslashes_absent by done.
    by apply collapse_app_plain. }
  split; [done|]. rewrite Heq.
  destruct (collapse_head_slash (JS.replaceBackslashes relativePath)) as [r Hr].
  change ("/" +:+ JS.replaceBackslashes relativePath)
    with (String JS.slash (JS.replaceBackslashes relativePath)).
  rewrite Hr. change (String JS.slash r) with ("/" +:+ r).
  rewrite <- string_app_assoc. apply startsWith_app.
Qed.

(** X3.  For a target path as the vault names its folders, the destination
    is the target path followed by a slash and by what is left of the entry
    name: it starts with the target path and a slash. *)
Theorem destination_starts_with_target cleanTargetFolderPath relativePath :
  plainPath cleanTargetFolderPath ->
  normalizedDestPath cleanTargetFolderPath relativePath
  = cleanTargetFolderPath
    +:+ JS.collapseSlashes ("/" +:+ JS.replaceBackslashes relativePath)
  ∧ JS.startsWith (normalizedDestPath cleanTargetFolderPath relativePath)
      (cleanTargetFolderPath +:+ "/") = true.
Proof. apply normalizedDestPath_under. Qed.

Lemma includes_slash_cons c s :
  JS.includes (String c s) "/" = (Ascii.eqb "/" c || JS.includes s "/")%bool.
Proof.
  by rewrite includes_cons, startsWith_cons, startsWith_nil, andb_true_r.
Qed.

Lemma lastIndexOfFrom_splits s i acc :
  acc < i ->
  (JS.lastIndexOfFrom JS.slash s i acc = acc ∧ JS.includes s "/" = false)
  ∨ (i <= JS.lastIndexOfFrom JS.slash s i acc
     ∧ ∃ name,
         s = JS.substring0
               (Z.to_nat (JS.lastIndexOfFrom JS.slash s i acc - i)) s
             +:+ "/" +:+ name
         ∧ JS.includes name "/" = false).
Proof.
  revert i acc. induction s as [|c s IH]; intros i acc Hlt; [by left|].
  cbn [JS.lastIndexOfFrom]. rewrite includes_slash_cons.
  destruct (Ascii.eqb_spec c JS.slash) as [->|Hne].
  - right. destruct (IH (i + 1) i) as [[Hk Hno]|(Hle & name & Heq & Hno)]; [lia| |].
    + rewrite Hk. split; [lia|]. exists s. rewrite Z.sub_diag. done.
    + split; [lia|]. exists name. split; [|done].
      set (k := JS.lastIndexOfFrom JS.slash s (i + 1) i) in *.
      replace (Z.to_nat (k - i)) with (S (Z.to_nat (k - (i + 1)))) by lia.
      cbn [JS.substring0].
      change (String JS.slash ?x +:+ ?y) with (String JS.slash (x +:+ y)).
      by rewrite <- Heq.
  - destruct (IH (i + 1) acc) as [[Hk Hno]|(Hle & name & Heq & Hno)]; [lia| |].
    + left. split; [done|]. rewrite Hno, orb_false_r.
      apply Ascii.eqb_neq. unfold JS.slash in Hne. congruence.
    + right. split; [lia|]. exists name. split; [|done].
      set (k := JS.lastIndexOfFrom JS.slash s (i + 1) acc) in *.
      replace (Z.to_nat (k - i)) with (S (Z.to_nat (k - (i + 1)))) by lia.
      cbn [JS.substring0].
      change (String c ?x +:+ ?y) with (String c (x +:+ y)).
      by rewrite <- Heq.
Qed.

(** X4.  The parent path of lines 384-385 is the destination up to its last
    slash: the destination is the parent path, a slash, and a name without
    slash; the parent is [/] when the only slash leads, and empty when
    there is no slash. *)
Theorem parent_and_name_make_destination dest :
  (0 < JS.lastIndexOf dest JS.slash ->
   ∃ name, dest = parentPathOf dest +:+ "/" +:+ name
           ∧ JS.includes name "/" = false)
  ∧ (JS.lastIndexOf dest JS.slash = 0 ->
     parentPathOf dest = "/"
     ∧ ∃ name, dest = "/" +:+ name ∧ JS.includes name "/" = false)
  ∧ (JS.lastIndexOf dest JS.slash < 0 ->
     parentPathOf dest = "" ∧ JS.includes dest "/" = false).
Proof.
  unfold parentPathOf, JS.lastIndexOf.
  destruct (lastIndexOfFrom_splits dest 0 (-1))
    as [[Hk Hno]|(Hle & name & Heq & Hno)]; [lia| |].
  - rewrite Hk. repeat split; try lia; done.
  - set (k := JS.lastIndexOfFrom JS.slash dest 0 (-1)) in *.
    rewrite Z.sub_0_r in Heq. split; [|split]; intros Hk.
    + assert ((0 <? k) = true) as -> by lia. eauto.
    + rewrite Hk in *. split; [done|]. exists name. split; [|done].
      rewrite Heq at 1. by destruct dest.
    + lia.
Qed.

Lemma sliceInit_empty s : JS.sliceInit s = "" -> s = "" ∨ ∃ c, s = String c "".
Proof. destruct s as [|c [|d s]]; [by left|eauto|done]. Qed.

(** The paths that [ensureFolderExists] takes for the root. *)
Lemma folderKey_empty p :
  folderKey p = "" <-> p = "" ∨ p = "/" ∨ p = "//".
Proof.
  split; [|by intros [->|[->| ->]]].
  unfold folderKey, JS.trimSlashes.
  destruct (JS.startsWith p "/") eqn:Hs.
  - apply startsWith_slash in Hs as [s ->]. cbn [JS.substring1].
    destruct (JS.endsWithChar s JS.slash) eqn:He.
    + intros [->|[c ->]]%sliceInit_empty; [done|].
      cbn [JS.endsWithChar] in He. apply Ascii.eqb_eq in He as ->. eauto.
    + intros ->. eauto.
  - destruct (JS.endsWithChar p JS.slash) eqn:He.
    + intros [->|[c ->]]%sliceInit_empty; [eauto|].
      cbn [JS.endsWithChar] in He. apply Ascii.eqb_eq in He as ->. done.
    + eauto.
Qed.

End MoreStrings.

(** ** The Dropbox rewriting of the URL *)

Section Dropbox.

Lemma substring_whole s m :
  (String.length s <= m)%nat -> String.substring 0 m s = s.
Proof.
  revert m. induction s as [|c s IH]; intros m Hm; [by destruct m|].
  destruct m as [|m]; [simpl in Hm; lia|].
  cbn [String.substring]. rewrite IH; [done|]. simpl in Hm. lia.
Qed.

Lemma substring_after p s m :
  (String.length s <= m)%nat ->
  String.substring (String.length p) m (p +:+ s) = s.
Proof.
  intros Hm. induction p as [|c p IH]; [by apply substring_whole|].
  change (String c p +:+ s) with (String c (p +:+ s)). by cbn.
Qed.

Lemma length_string_app (a b : string) :
  String.length (a +:+ b) = (String.length a + String.length b)%nat.
Proof.
  induction a as [|c a IH]; [done|].
  change (String c a +:+ b) with (String c (a +:+ b)). cbn. by rewrite IH.
Qed.

Lemma replaceFirst_here p s r : JS.replaceFirst (p +:+ s) p r = r +:+ s.
Proof.
  rewrite replaceFirst_eq, startsWith_app, substring_after; [done|].
  rewrite length_string_app. lia.
Qed.

Lemma replaceFirst_skip c s p0 p r :
  Ascii.eqb p0 c = false ->
  JS.replaceFirst (String c s) (String p0 p) r
  = String c (JS.replaceFirst s (String p0 p) r).
Proof. intros Hc. by rewrite replaceFirst_eq, startsWith_cons, Hc. Qed.

Lemma includes_app_l s b p :
  JS.includes s p = true -> JS.includes (s +:+ b) p = true.
Proof.
  induction s as [|c s IH].
  - rewrite includes_nil. intros [r Hr]%startsWith_spec.
    destruct p; [|done]. apply includes_starts, startsWith_nil.
  - rewrite includes_cons. intros [Hst|Hin]%orb_true_iff.
    + apply includes_starts. apply startsWith_spec in Hst as [r ->].
      rewrite string_app_assoc. apply startsWith_app.
    + change (String c s +:+ b) with (String c (s +:+ b)).
      rewrite includes_cons, IH by done. apply orb_true_r.
Qed.

Lemma includes_skip c s p0 p :
  Ascii.eqb p0 c = false ->
  JS.includes (String c s) (String p0 p) = JS.includes s (String p0 p).
Proof. intros Hc. by rewrite includes_cons, startsWith_cons, Hc. Qed.

(** X5.  A URL that does not mention [dropbox.com] is requested exactly as
    it was entered. *)
Theorem dropboxFix_leaves_other_hosts url :
  JS.includes url "dropbox.com" = false -> dropboxFix url = url.
Proof.
  intros Hno. unfold dropboxFix.
  rewrite replaceFirst_absent.
  - by rewrite Hno.
  - destruct (JS.includes url "www.dropbox.com") eqn:Hw; [|done].
    apply (includes_suffix url "www." "dropbox.com") in Hw. congruence.
Qed.

(** X6.  A URL that still mentions [dropbox.com] after the rewriting carries
    the parameter [dl=1]. *)
Theorem dropboxFix_asks_for_direct_download url :
  JS.includes (dropboxFix url) "dropbox.com" = true ->
  JS.includes (dropboxFix url) "dl=1" = true.
Proof.
  unfold dropboxFix.
  set (u := JS.replaceFirst url "www.dropbox.com" "dl.dropboxusercontent.com").
  destruct (JS.includes u "dropbox.com") eqn:Hd;
    destruct (JS.includes u "dl=1") eqn:Hl; cbn [andb negb]; try congruence.
  intros _. destruct (JS.includes u "?"); by apply includes_app_r.
Qed.

(** X7.  A link to the host [www.dropbox.com] whose path does not mention
    [dropbox.com] is requested from [dl.dropboxusercontent.com] with its
    path and query unchanged: the rewritten host does not contain
    [dropbox.com], so that no [dl=1] is appended. *)
Theorem dropboxFix_www_host scheme rest :
  scheme = "http://" ∨ scheme = "https://" ->
  JS.includes rest "dropbox.com" = false ->
  dropboxFix (scheme +:+ "www.dropbox.com" +:+ rest)
  = scheme +:+ "dl.dropboxusercontent.com" +:+ rest.
Proof.
  intros Hs Hno.
  assert (JS.replaceFirst (scheme +:+ "www.dropbox.com" +:+ rest)
            "www.dropbox.com" "dl.dropboxusercontent.com"
          = scheme +:+ "dl.dropboxusercontent.com" +:+ rest) as Hrep.
  { destruct Hs as [-> | ->].
    - change ("http://" +:+ ?x)
        with (String "h" (String "t" (String "t" (String "p"
               (String ":" (String "/" (String "/" x))))))).
      rewrite !replaceFirst_skip by done. by rewrite replaceFirst_here.
    - change ("https://" +:+ ?x)
        with (String "h" (String "t" (String "t" (String "p" (String "s"
               (String ":" (String "/" (String "/" x)))))))).
      rewrite !replaceFirst_skip by done. by rewrite replaceFirst_here. }
  unfold dropboxFix. rewrite Hrep.
  assert (JS.includes (scheme +:+ "dl.dropboxusercontent.com" +:+ rest)
            "dropbox.com" = false) as ->; [|done].
  assert (JS.includes ("dl.dropboxusercontent.com" +:+ rest) "dropbox.com"
          = false) as Hhost.
  { change ("dl.dropboxusercontent.com" +:+ rest)
      with (String "d" (String "l" (String "." (String "d" (String "r"
        (String "o" (String "p" (String "b" (String "o" (String "x"
        (String "u" (String "s" (String "e" (String "r" (String "c"
        (String "o" (String "n" (String "t" (String "e" (String "n"
        (String "t" (String "." (String "c" (String "o" (String "m"
         rest))))))))))))))))))))))))).
    rewrite includes_cons, !startsWith_cons. cbn [Ascii.eqb Bool.eqb andb orb].
    rewrite !includes_skip by done.
    rewrite includes_cons, !startsWith_cons. cbn [Ascii.eqb Bool.eqb andb orb].
    by rewrite !includes_skip by done. }
  destruct Hs as [-> | ->].
  - change ("http://" +:+ ?x)
      with (String "h" (String "t" (String "t" (String "p"
             (String ":" (String "/" (String "/" x))))))).
    by rewrite !includes_skip by done.
  - change ("https://" +:+ ?x)
      with (String "h" (String "t" (String "t" (String "p" (String "s"
             (String ":" (String "/" (String "/" x)))))))).
    by rewrite !includes_skip by done.
Qed.

(** X8.  The rewriting keeps the scheme: the URL requested starts with
    [http://] or [https://] as the URL entered does. *)
Theorem dropboxFix_keeps_scheme scheme url :
  scheme = "http://" ∨ scheme = "https://" ->
  JS.startsWith url scheme = true ->
  JS.startsWith (dropboxFix url) scheme = true.
Proof.
  intros Hs [r ->]%startsWith_spec.
  assert (∃ r', JS.replaceFirst (scheme +:+ r)
                  "www.dropbox.com" "dl.dropboxusercontent.com"
                = scheme +:+ r') as [r' Hrep].
  { destruct Hs as [-> | ->].
    - change ("http://" +:+ ?x)
        with (String "h" (String "t" (String "t" (String "p"
               (String ":" (String "/" (String "/" x))))))).
      rewrite !replaceFirst_skip by done. eauto.
    - change ("https://" +:+ ?x)
        with (String "h" (String "t" (String "t" (String "p" (String "s"
               (String ":" (String "/" (String "/" x)))))))).
      rewrite !replaceFirst_skip by done. eauto. }
  unfold dropboxFix. rewrite Hrep.
  destruct (_ && _)%bool; [|apply startsWith_app].
  destruct (JS.includes _ "?"); rewrite string_app_assoc; apply startsWith_app.
Qed.

End Dropbox.

Lemma dropboxFix_leaves_other_hosts_witness :
  dropboxFix "https://example.org/course.zip" = "https://example.org/course.zip".
Proof. by apply dropboxFix_leaves_other_hosts. Defined.

Lemma dropboxFix_asks_for_direct_download_witness :
  JS.includes (dropboxFix "https://dropbox.com/s/abc/course.zip?raw=1") "dl=1"
  = true.
Proof. by apply dropboxFix_asks_for_direct_download. Defined.

Lemma dropboxFix_www_host_witness :
  dropboxFix ("https://" +:+ "www.dropbox.com" +:+ "/s/abc/course.zip?dl=0")
  = "https://" +:+ "dl.dropboxusercontent.com" +:+ "/s/abc/course.zip?dl=0".
Proof. apply dropboxFix_www_host; [by right|reflexivity]. Defined.

Lemma dropboxFix_keeps_scheme_witness :
  JS.startsWith (dropboxFix "http://dropbox.com/s/abc/course.zip") "http://"
  = true.
Proof. apply dropboxFix_keeps_scheme; [by left|reflexivity]. Defined.

(** ** More on [ensureFolderExists] *)

Section EnsureFolderCalls.
Context {Vault : Type} `{Host Vault}.

Ltac ensure_branches p v :=
  let Hk := fresh "Hk" in
  destruct (decide (folderKey p = "")) as [Hk|Hk];
  [ rewrite (ensure_root p v Hk)
  | let E1 := fresh "E1" in
    let E2 := fresh "E2" in
    destruct (folderKey_nonroot p Hk) as [E1 E2];
    unfold ensureFolderExists; unfold folderKey in *; rewrite E1, E2;
    unfold tryCatch, bind, vaultGetAbstractFileByPath, vaultCreateFolder;
    let Hget := fresh "Hget" in
    destruct (getAbstractFileByPath v (JS.trimSlashes p)) as [[?|?]|] eqn:Hget;
    simpl;
    [ | | let Hmk := fresh "Hmk" in
          let v1 := fresh "v1" in
          destruct (createFolder v (JS.trimSlashes p)) as [v1 [?|?]] eqn:Hmk;
          simpl;
          [ let Hre := fresh "Hre" in
            destruct (getAbstractFileByPath v1 (JS.trimSlashes p))
              as [[?|?]|] eqn:Hre; simpl
          | ] ] ].

(** X9.  For the paths [/], the empty path and [//] the root folder is
    returned without any call or message; for every other path the first
    thing done is the look-up of the path without its leading and trailing
    slash. *)
Theorem root_paths_need_no_call p v :
  (p = "" ∨ p = "/" ∨ p = "//" ->
   ensureFolderExists p v = (v, [], Normal (Some (getRoot v))))
  ∧ (¬ (p = "" ∨ p = "/" ∨ p = "//") ->
     ∃ v' t r,
       ensureFolderExists p v
       = (v', VaultGetAbstractFileByPath (folderKey p)
                (getAbstractFileByPath v (folderKey p)) :: t, Normal r)).
Proof.
  split.
  - intros Hp%folderKey_empty. by apply ensure_root.
  - intros Hp. rewrite <- folderKey_empty in Hp.
    destruct (folderKey_nonroot p Hp) as [E1 E2].
    unfold ensureFolderExists; unfold folderKey in *; rewrite E1, E2.
    unfold tryCatch, bind, vaultGetAbstractFileByPath, vaultCreateFolder.
    destruct (getAbstractFileByPath v (JS.trimSlashes p)) as [[?|?]|]; simpl;
      [by eexists _, _, _..|].
    destruct (createFolder v (JS.trimSlashes p)) as [v1 [?|?]]; simpl;
      [|by eexists _, _, _].
    destruct (getAbstractFileByPath v1 (JS.trimSlashes p)) as [[?|?]|]; simpl;
      by eexists _, _, _.
Qed.

(** X10.  [ensureFolderExists] never throws; its calls are look-ups and
    creations of one path, the given path without its leading and trailing
    slash; it issues at most one creation call, and without one the vault is
    as before. *)
Theorem ensureFolderExists_calls p v :
  ∃ v' t r,
    ensureFolderExists p v = (v', t, Normal r)
    ∧ Forall (folderEvent p) t
    ∧ (length (creationCalls t) <= 1)%nat
    ∧ (creationCalls t = [] -> v' = v).
Proof.
  ensure_branches p v; eexists _, _, _; (split; [reflexivity|]);
    (split; [by repeat constructor|]); (split; [simpl; lia|]); done.
Qed.

(** X11.  When [ensureFolderExists] returns [null] it has shown exactly one
    notice and created nothing; when it returns a folder, it has shown the
    notice [Created folder: ...] for the folder it created, and no other. *)
Theorem ensureFolderExists_reports p v :
  ∃ v' t r,
    ensureFolderExists p v = (v', t, Normal r)
    ∧ match r with
      | None => folderKey p ≠ "" ∧ foldersCreated t = []
                ∧ ∃ m, notices t = [m]
      | Some _ =>
          notices t = (fun q => "Created folder: " +:+ q) <$> foldersCreated t
      end.
Proof.
  ensure_branches p v; eexists _, _, _; (split; [reflexivity|]);
    try done; (split; [done|]); (split; [done|]); by eexists.
Qed.

Lemma endsWithChar_app_char p c :
  JS.endsWithChar (p +:+ String c "") c = true.
Proof.
  induction p as [|d p IH]; [cbn; apply Ascii.eqb_refl|].
  change (String d p +:+ String c "") with (String d (p +:+ String c "")).
  rewrite endsWithChar_cons. by destruct p.
Qed.

Lemma sliceInit_app_char p c : JS.sliceInit (p +:+ String c "") = p.
Proof.
  induction p as [|d p IH]; [done|].
  change (String d p +:+ String c "") with (String d (p +:+ String c "")).
  cbn [JS.sliceInit]. rewrite IH. by destruct p.
Qed.

Lemma folderKey_plain p :
  JS.startsWith p "/" = false -> JS.endsWithChar p JS.slash = false ->
  folderKey p = p.
Proof. unfold folderKey, JS.trimSlashes. by intros -> ->. Qed.

Lemma folderKey_slashes p :
  JS.startsWith p "/" = false -> JS.endsWithChar p JS.slash = false ->
  folderKey ("/" +:+ p) = p ∧ folderKey (p +:+ "/") = p
  ∧ folderKey ("/" +:+ p +:+ "/") = p.
Proof.
  intros Hs He. unfold folderKey, JS.trimSlashes. split; [|split].
  - change ("/" +:+ p) with (String JS.slash p).
    rewrite (proj2 (startsWith_slash _)) by eauto.
    cbn [JS.substring1]. by rewrite He.
  - destruct (JS.startsWith (p +:+ "/") "/") eqn:Hs'.
    + destruct p as [|c p]; [done|].
      change (String c p +:+ "/") with (String c (p +:+ "/")) in Hs'.
      rewrite startsWith_cons in *. rewrite startsWith_nil in *.
      congruence.
    + unfold JS.slash.
      by rewrite (endsWithChar_app_char p "/"), sliceInit_app_char.
  - change ("/" +:+ p +:+ "/") with (String JS.slash (p +:+ "/")).
    rewrite (proj2 (startsWith_slash _)) by eauto.
    cbn [JS.substring1]. unfold JS.slash.
    by rewrite (endsWithChar_app_char p "/"), sliceInit_app_char.
Qed.

Lemma ensureFolderExists_by_key p q v :
  folderKey p = folderKey q ->
  ensureFolderExists p v = ensureFolderExists q v.
Proof.
  intros Hpq. destruct (decide (folderKey p = "")) as [Hk|Hk].
  - rewrite !ensure_root; [done|congruence|done].
  - destruct (folderKey_nonroot p Hk) as [E1 E2].
    destruct (folderKey_nonroot q) as [F1 F2]; [congruence|].
    unfold ensureFolderExists. unfold folderKey in *.
    by rewrite E1, E2, F1, F2, Hpq.
Qed.

(** X12.  A leading slash and a trailing slash of the path make no
    difference to [ensureFolderExists]: the same calls, messages and
    result. *)
Theorem leading_and_trailing_slash_ignored p v :
  JS.startsWith p "/" = false -> JS.endsWithChar p JS.slash = false ->
  ensureFolderExists ("/" +:+ p) v = ensureFolderExists p v
  ∧ ensureFolderExists (p +:+ "/") v = ensureFolderExists p v
  ∧ ensureFolderExists ("/" +:+ p +:+ "/") v = ensureFolderExists p v.
Proof.
  intros Hs He. destruct (folderKey_slashes p Hs He) as (K1 & K2 & K3).
  pose proof (folderKey_plain p Hs He) as K.
  split; [|split]; apply ensureFolderExists_by_key; congruence.
Qed.

End EnsureFolderCalls.

Section EnsureFolderTwice.
Context {Vault : Type} `{Host Vault} `{!Stable}.

(** X13.  On a host without transient behaviour, a second call of
    [ensureFolderExists] for the same path leaves the vault as the first
    call left it, creates nothing, and returns [null] exactly when the first
    call did. *)
Theorem ensureFolderExists_twice p v v1 t1 r1 :
  ensureFolderExists p v = (v1, t1, Normal r1) ->
  ∃ t2 r2,
    ensureFolderExists p v1 = (v1, t2, Normal r2)
    ∧ foldersCreated t2 = []
    ∧ (r2 = None <-> r1 = None).
Proof.
  intros Hfirst.
  destruct (ensure_settles p v v1 t1 r1 Hfirst) as (Hq & Hsome & Hnone).
  destruct r1 as [d1|].
  - destruct (ensure_folder_present p v1 (Hsome d1 eq_refl))
      as (t2 & d2 & Heq & Hquiet).
    apply quiet_trace_notices in Hquiet as (_ & ? & ?).
    exists t2, (Some d2). done.
  - destruct (Hq v1 (rtc_refl _ _)) as (t2 & r2 & Heq & Hf & _ & Hin).
    exists t2, r2. split; [done|]. split; [done|]. split; [done|]. intros _.
    destruct r2 as [d2|]; [|done].
    destruct (Hnone eq_refl v1 (rtc_refl _ _)). by apply (Hin d2).
Qed.

End EnsureFolderTwice.

Lemma root_paths_need_no_call_witness :
  @ensureFolderExists _ (MemVault.host (MemVault.plain [] [])) "//" ∅
  = (∅, [], Normal (Some {| path := "/" |}))
  ∧ ∃ v' t r,
      @ensureFolderExists _ (MemVault.host (MemVault.plain [] [])) "/a/" ∅
      = (v', VaultGetAbstractFileByPath (folderKey "/a/")
               (@getAbstractFileByPath _
                  (MemVault.host (MemVault.plain [] [])) ∅ (folderKey "/a/"))
             :: t, Normal r).
Proof.
  split.
  - apply (proj1 (@root_paths_need_no_call _
                    (MemVault.host (MemVault.plain [] [])) "//" ∅)).
    by right; right.
  - apply (proj2 (@root_paths_need_no_call _
                    (MemVault.host (MemVault.plain [] [])) "/a/" ∅)).
    by intros [?|[?|?]].
Defined.

Lemma leading_and_trailing_slash_ignored_witness :
  @ensureFolderExists _ (MemVault.host (MemVault.plain [] []))
    ("/" +:+ "Course Modules" +:+ "/") ∅
  = @ensureFolderExists _ (MemVault.host (MemVault.plain [] []))
      "Course Modules" ∅.
Proof.
  by apply (@leading_and_trailing_slash_ignored _
              (MemVault.host (MemVault.plain [] [])) "Course Modules" ∅).
Defined.

Lemma ensureFolderExists_twice_witness :
  let host := MemVault.host (MemVault.refusing "locked" "") in
  let first := @ensureFolderExists _ host "locked" ∅ in
  ∃ t2 r2,
    @ensureFolderExists _ host "locked" first.1.1 = (first.1.1, t2, Normal r2)
    ∧ foldersCreated t2 = []
    ∧ (r2 = None <-> None = (None : option TFolder)).
Proof.
  intros host first.
  apply (@ensureFolderExists_twice _ host
           (MemVault_stable (MemVault.refusing "locked" "") (fun _ => eq_refl))
           "locked" ∅ first.1.1 first.1.2 None).
  vm_compute. reflexivity.
Defined.

(** ** The calls and the counter of the extraction loop *)

Section LoopFacts.
Context {Vault : Type} `{Host Vault}.

Lemma ensure_events p v v' t c :
  ensureFolderExists p v = (v', t, c) ->
  Forall (folderEvent p) t ∧ filesWritten t = [] ∧ ∃ r, c = Normal r.
Proof.
  destruct (decide (folderKey p = "")) as [Hk|Hk].
  { rewrite (ensure_root p v Hk). intros [= <- <- <-]. eauto. }
  destruct (folderKey_nonroot p Hk) as [E1 E2].
  unfold ensureFolderExists; unfold folderKey in *; rewrite E1, E2.
  unfold tryCatch, bind, vaultGetAbstractFileByPath, vaultCreateFolder.
  destruct (getAbstractFileByPath v (JS.trimSlashes p)) as [[?|?]|]; simpl.
  - intros [= <- <- <-]. split; [by repeat constructor|eauto].
  - intros [= <- <- <-]. split; [by repeat constructor|eauto].
  - destruct (createFolder v (JS.trimSlashes p)) as [v1 [?|?]]; simpl.
    + destruct (getAbstractFileByPath v1 (JS.trimSlashes p)) as [[?|?]|];
        simpl; intros [= <- <- <-]; (split; [by repeat constructor|eauto]).
    + intros [= <- <- <-]. split; [by repeat constructor|eauto].
Qed.

Lemma writeEntry_summary dest data st v :
  ∃ v' t st',
    writeEntry dest data st v = (v', t, Normal st')
    ∧ Forall (writeEvent dest data) t
    ∧ fileCount st' = (fileCount st + length (filesWritten t))%nat
    ∧ folderPathsCreated st' = folderPathsCreated st.
Proof.
  unfold writeEntry.
  destruct (String.eqb (pathToCheckOf dest) "" && String.eqb dest "/")%bool.
  { eexists _, _, _. split; [reflexivity|]. split; [by repeat constructor|].
    simpl. split; [lia|done]. }
  unfold bind, tryCatch, vaultGetAbstractFileByPath, vaultCreateBinary,
    consoleLog, consoleWarn, consoleError, notice, emit, ret.
  destruct (truthy (pathToCheckOf dest)) eqn:Ht.
  - destruct (getAbstractFileByPath v (pathToCheckOf dest)) as [[f|d]|];
      simpl.
    + eexists _, _, _. split; [reflexivity|].
      split; [by repeat constructor|]. simpl. split; [lia|done].
    + eexists _, _, _. split; [reflexivity|].
      split; [by repeat constructor|]. simpl. split; [lia|done].
    + destruct (createBinary v dest data) as [v1 [e|[]]]; simpl.
      * destruct (saysFileAlreadyExists e); eexists _, _, _;
          (split; [reflexivity|]); (split; [by repeat constructor|]);
          simpl; (split; [lia|done]).
      * eexists _, _, _. split; [reflexivity|].
        split; [by repeat constructor|]. simpl. split; [lia|done].
  - simpl. destruct (createBinary v dest data) as [v1 [e|[]]]; simpl.
    + destruct (saysFileAlreadyExists e); eexists _, _, _;
        (split; [reflexivity|]); (split; [by repeat constructor|]);
        simpl; (split; [lia|done]).
    + eexists _, _, _. split; [reflexivity|].
      split; [by repeat constructor|]. simpl. split; [lia|done].
Qed.

Lemma folderEvent_no_file p t :
  Forall (folderEvent p) t -> filesWritten t = [].
Proof.
  induction 1 as [|ev t Hev _ IH]; [done|]. by destruct ev.
Qed.

Lemma ensureParent_summary cleanTargetFolderPath dest st v :
  ∃ v' t r,
    ensureParent cleanTargetFolderPath dest st v = (v', t, Normal r)
    ∧ Forall (folderEvent (parentPathOf dest)) t
    ∧ match r with
      | Some st1 =>
          fileCount st1 = fileCount st
          ∧ folderPathsCreated st ⊆ folderPathsCreated st1
          ∧ (parentPathOf dest = ""
             ∨ parentPathOf dest = cleanTargetFolderPath
             ∨ parentPathOf dest ∈ folderPathsCreated st1)
      | None => True
      end.
Proof.
  destruct (needsParent cleanTargetFolderPath dest st) eqn:Hneed.
  - destruct (ensureFolderExists (parentPathOf dest) v) as [[v1 t1] c1] eqn:Hens.
    destruct (ensure_events _ _ _ _ _ Hens) as (Hev & _ & r1 & ->).
    destruct (ensureParent_call _ _ _ _ _ _ _ Hneed Hens) as [m Hp].
    rewrite Hp. eexists _, _, _. split; [reflexivity|]. split.
    + apply Forall_app. split; [done|]. destruct r1; by repeat constructor.
    + destruct r1; [|done]. simpl. split; [done|].
      split; [set_solver|]. right; right. set_solver.
  - rewrite ensureParent_skip by done. eexists _, _, _.
    split; [reflexivity|]. split; [done|]. split; [done|]. split; [done|].
    unfold needsParent in Hneed.
    destruct (truthy (parentPathOf dest)) eqn:Ht;
      [|left; by apply truthy_false].
    destruct (String.eqb_spec (parentPathOf dest) cleanTargetFolderPath);
      [by right; left|].
    right; right. simpl in Hneed. apply negb_false_iff in Hneed.
    by apply has_true.
Qed.

Lemma folderEvent_callOfEntry cleanTargetFolderPath relativePath zipEntry ev :
  isIgnored relativePath = false ->
  folderEvent
    (if dir zipEntry
     then dirPathOf (normalizedDestPath cleanTargetFolderPath relativePath)
     else parentPathOf (normalizedDestPath cleanTargetFolderPath relativePath))
    ev ->
  isCall ev = true ->
  callOfEntry cleanTargetFolderPath relativePath zipEntry ev.
Proof.
  intros Hi Hev Hc. split; [done|]. destruct ev; try done; simpl in *; eauto.
Qed.

Lemma writeEvent_callOfEntry cleanTargetFolderPath relativePath zipEntry
    data ev :
  isIgnored relativePath = false ->
  dir zipEntry = false ->
  async zipEntry = inr data ->
  writeEvent (normalizedDestPath cleanTargetFolderPath relativePath) data ev ->
  isCall ev = true ->
  callOfEntry cleanTargetFolderPath relativePath zipEntry ev.
Proof.
  intros Hi Hd Ha Hev Hc. split; [done|].
  destruct ev; try done; simpl in *.
  - eauto.
  - destruct Hev as [-> ->]. eauto.
Qed.

(** One iteration: where its calls come from, what it counts, and how it
    can fail. *)
Lemma extractEntry_summary cleanTargetFolderPath st relativePath zipEntry v :
  ∃ v' t c,
    extractEntry cleanTargetFolderPath st relativePath zipEntry v = (v', t, c)
    ∧ Forall (fun ev =>
                isCall ev = true ->
                callOfEntry cleanTargetFolderPath relativePath zipEntry ev) t
    ∧ match c with
      | Normal st' =>
          fileCount st' = (fileCount st + length (filesWritten t))%nat
          ∧ folderPathsCreated st ⊆ folderPathsCreated st'
          ∧ (filesWritten t ≠ [] ->
             let parentPath :=
               parentPathOf
                 (normalizedDestPath cleanTargetFolderPath relativePath) in
             parentPath = "" ∨ parentPath = cleanTargetFolderPath
             ∨ parentPath ∈ folderPathsCreated st')
      | Throw e => v' = v ∧ t = [] ∧ unreadable relativePath zipEntry e
      end.
Proof.
  destruct (isIgnored relativePath) eqn:Hi.
  { destruct (extractEntry_ignored cleanTargetFolderPath st relativePath
                zipEntry v Hi) as (t & Heq & Hlog).
    exists v, t, (Normal st). split; [done|].
    assert (filesWritten t = []) as Hfw.
    { clear Heq. induction Hlog as [|ev t [m ->] _ IH]; [done|]. done. }
    split.
    - eapply Forall_impl; [exact Hlog|]. by intros ev [m ->].
    - rewrite Hfw. simpl. split; [lia|]. split; [done|]. done. }
  set (dest := normalizedDestPath cleanTargetFolderPath relativePath).
  destruct (dir zipEntry) eqn:Hd.
  - rewrite extractEntry_dir by done. fold dest.
    destruct (truthy (dirPathOf dest)
              && negb (has (folderPathsCreated st) (dirPathOf dest)))%bool
      eqn:Hg.
    + destruct (ensureFolderExists (dirPathOf dest) v) as [[v1 t1] c1] eqn:Hens.
      destruct (ensure_events _ _ _ _ _ Hens) as (Hev & Hfw & r1 & ->).
      destruct (extractDirectory_call dest st v v1 t1 r1 Hg Hens) as [m Hx].
      rewrite Hx. eexists _, _, _. split; [reflexivity|].
      assert (filesWritten
                (t1 ++ match r1 with
                       | Some _ => []
                       | None => [ConsoleWarn m]
                       end) = []) as Hfw'.
      { rewrite filesWritten_app, Hfw. by destruct r1. }
      split.
      * apply Forall_app. split; [|destruct r1; by repeat constructor].
        eapply Forall_impl; [exact Hev|]. intros ev Hfe Hc.
        apply folderEvent_callOfEntry; [done| |done]. by rewrite Hd.
      * rewrite Hfw'. simpl. destruct r1; simpl;
          (split; [lia|]); (split; [set_solver|done]).
    + rewrite extractDirectory_skip by done. eexists _, _, _.
      split; [reflexivity|]. split; [done|]. simpl.
      split; [lia|]. split; [done|]. done.
  - destruct (async zipEntry) as [e|data] eqn:Ha.
    { rewrite (extractEntry_unreadable _ _ _ _ e) by done.
      eexists _, _, _. split; [reflexivity|]. split; [done|]. done. }
    rewrite (extractEntry_file _ _ _ _ data) by done. fold dest.
    destruct (ensureParent_summary cleanTargetFolderPath dest st v)
      as (v1 & t1 & r1 & Hp & Hev1 & Hr1).
    pose proof (folderEvent_no_file _ _ Hev1) as Hfw1.
    assert (Forall (fun ev =>
                      isCall ev = true ->
                      callOfEntry cleanTargetFolderPath relativePath
                        zipEntry ev) t1) as Hcalls1.
    { eapply Forall_impl; [exact Hev1|]. intros ev Hfe Hc.
      apply folderEvent_callOfEntry; [done| |done]. by rewrite Hd. }
    unfold bind. rewrite Hp. destruct r1 as [st1|].
    + destruct (writeEntry_summary dest data st1 v1)
        as (v2 & t2 & st2 & Hw & Hev2 & Hcount & Hset).
      rewrite Hw. eexists _, _, _. split; [reflexivity|].
      destruct Hr1 as (Hc1 & Hsub & Hparent). split.
      * apply Forall_app. split; [done|].
        eapply Forall_impl; [exact Hev2|]. intros ev Hwe Hc.
        by eapply writeEvent_callOfEntry.
      * rewrite filesWritten_app, Hfw1. simpl.
        split; [lia|]. rewrite Hset. split; [done|]. done.
    + simpl. eexists _, _, _. split; [reflexivity|].
      rewrite app_nil_r. split; [done|]. rewrite Hfw1. simpl.
      split; [lia|]. split; [done|]. done.
Qed.

Lemma forIn_cons cleanTargetFolderPath relativePath zipEntry rest st v :
  forIn cleanTargetFolderPath ((relativePath, zipEntry) :: rest) st v
  = match extractEntry cleanTargetFolderPath st relativePath zipEntry v with
    | (v1, t1, Normal st1) =>
        match forIn cleanTargetFolderPath rest st1 v1 with
        | (v2, t2, c) => (v2, t1 ++ t2, c)
        end
    | (v1, t1, Throw e) => (v1, t1, Throw e)
    end.
Proof. done. Qed.

(** The loop: where its calls come from, what it counts, and how it can
    fail. *)
Lemma forIn_summary cleanTargetFolderPath files st v :
  ∃ v' t c,
    forIn cleanTargetFolderPath files st v = (v', t, c)
    ∧ Forall (fun ev =>
                isCall ev = true ->
                ∃ relativePath zipEntry,
                  (relativePath, zipEntry) ∈ files
                  ∧ callOfEntry cleanTargetFolderPath relativePath zipEntry ev)
        t
    ∧ match c with
      | Normal st' =>
          fileCount st' = (fileCount st + length (filesWritten t))%nat
          ∧ folderPathsCreated st ⊆ folderPathsCreated st'
      | Throw e =>
          ∃ relativePath zipEntry,
            (relativePath, zipEntry) ∈ files
            ∧ unreadable relativePath zipEntry e
      end.
Proof.
  revert st v. induction files as [|[rel ze] files IH]; intros st v.
  { exists v, [], (Normal st). split; [done|]. split; [done|]. simpl.
    split; [lia|done]. }
  rewrite forIn_cons.
  destruct (extractEntry_summary cleanTargetFolderPath st rel ze v)
    as (v1 & t1 & c1 & He & Hcalls1 & Hc1).
  rewrite He.
  assert (Forall (fun ev =>
                    isCall ev = true ->
                    ∃ relativePath zipEntry,
                      (relativePath, zipEntry) ∈ (rel, ze) :: files
                      ∧ callOfEntry cleanTargetFolderPath relativePath
                          zipEntry ev) t1) as Hcalls1'.
  { eapply Forall_impl; [exact Hcalls1|]. intros ev Hev Hc.
    exists rel, ze. split; [by left|by apply Hev]. }
  destruct c1 as [st1|e].
  - destruct (IH st1 v1) as (v2 & t2 & c2 & Hf & Hcalls2 & Hc2).
    rewrite Hf. eexists _, _, _. split; [reflexivity|]. split.
    + apply Forall_app. split; [done|].
      eapply Forall_impl; [exact Hcalls2|]. intros ev Hev Hc.
      destruct (Hev Hc) as (rel' & ze' & Hin & Hcall).
      exists rel', ze'. split; [by right|done].
    + destruct Hc1 as (Hn1 & Hs1 & _). destruct c2 as [st2|e2].
      * destruct Hc2 as [Hn2 Hs2]. rewrite filesWritten_app, length_app.
        split; [lia|set_solver].
      * destruct Hc2 as (rel' & ze' & Hin & Hun).
        exists rel', ze'. split; [by right|done].
  - eexists _, _, _. split; [reflexivity|]. split; [done|].
    destruct Hc1 as (_ & _ & Hun). exists rel, ze. split; [by left|done].
Qed.

End LoopFacts.

Lemma destination_starts_with_target_witness :
  normalizedDestPath "Course Modules" "week1\\notes//a.md"
  = "Course Modules"
    +:+ JS.collapseSlashes ("/" +:+ JS.replaceBackslashes "week1\\notes//a.md")
  ∧ JS.startsWith (normalizedDestPath "Course Modules" "week1\\notes//a.md")
      ("Course Modules" +:+ "/") = true.
Proof.
  apply destination_starts_with_target.
  split; [done|]. split; [reflexivity|]. split; reflexivity.
Defined.

Lemma parent_and_name_make_destination_witness :
  ∃ name, "Course Modules/week1/a.md"
          = parentPathOf "Course Modules/week1/a.md" +:+ "/" +:+ name
          ∧ JS.includes name "/" = false.
Proof.
  apply (proj1 (parent_and_name_make_destination "Course Modules/week1/a.md")).
  vm_compute. reflexivity.
Defined.

(** ** The extraction loop as a whole *)

Section LoopExtras.
Context {Vault : Type} `{Host Vault}.

(** X14.  Every call of the extraction loop comes from an entry of the
    archive that is not ignored: a look-up or a creation of the entry's
    folder (the directory itself, or the parent of a file), the look-up of
    a file's path, or the creation of a file at its destination with the
    data of the entry.  The loop never requests a URL and never decodes an
    archive. *)
Theorem calls_come_from_entries cleanTargetFolderPath files st v :
  ∃ v' t c,
    forIn cleanTargetFolderPath files st v = (v', t, c)
    ∧ Forall (fun ev =>
                isCall ev = true ->
                ∃ relativePath zipEntry,
                  (relativePath, zipEntry) ∈ files
                  ∧ callOfEntry cleanTargetFolderPath relativePath zipEntry ev)
        t.
Proof.
  destruct (forIn_summary cleanTargetFolderPath files st v)
    as (v' & t & c & Heq & Hcalls & _).
  by exists v', t, c.
Qed.

Lemma written_is_called t p :
  p ∈ filesWritten t -> ∃ d, VaultCreateBinary p d true ∈ t.
Proof.
  induction t as [|ev t IH]; [by intros ?%elem_of_nil|].
  destruct ev as [| | | | | |q d [|]| |]; simpl;
    try (intros Hp; destruct (IH Hp) as [d' ?]; exists d'; by right).
  intros [->|Hp]%elem_of_cons.
  - exists d. by left.
  - destruct (IH Hp) as [d' ?]. exists d'. by right.
Qed.

(** X15.  When the target path is a folder path as the vault names them,
    the path of every file that the loop writes starts with the target path
    and a slash. *)
Theorem files_written_under_target cleanTargetFolderPath files st v :
  plainPath cleanTargetFolderPath ->
  ∃ v' t c,
    forIn cleanTargetFolderPath files st v = (v', t, c)
    ∧ Forall (fun p => JS.startsWith p (cleanTargetFolderPath +:+ "/") = true)
        (filesWritten t).
Proof.
  intros Hplain.
  destruct (forIn_summary cleanTargetFolderPath files st v)
    as (v' & t & c & Heq & Hcalls & _).
  exists v', t, c. split; [done|]. apply Forall_forall. intros p Hp.
  apply written_is_called in Hp as [d Hd].
  rewrite Forall_forall in Hcalls.
  destruct (Hcalls _ Hd eq_refl) as (rel & ze & _ & _ & _ & _ & ->).
  by apply normalizedDestPath_under.
Qed.

(** X16.  When the loop ends, the number of the summary notice is the
    number of files that this run created. *)
Theorem summary_counts_files_written target cleanTargetFolderPath zipData
    files v v' tf st' :
  loadAsync zipData = inr files ->
  forIn cleanTargetFolderPath files initialLoopState v = (v', tf, Normal st') ->
  unzipAndWrite target cleanTargetFolderPath zipData v
  = (v', JSZipLoadAsync zipData true
         :: tf ++ [NewNotice (summaryNotice (length (filesWritten tf)) target);
                   ConsoleLog ("Extraction complete to folder: "
                               +:+ path target)],
     Normal tt).
Proof.
  intros Hload Hf.
  destruct (forIn_summary cleanTargetFolderPath files initialLoopState v)
    as (v2 & t2 & c2 & Heq & _ & Hc).
  rewrite Hf in Heq. injection Heq as <- <- <-. destruct Hc as [Hn _].
  simpl in Hn. rewrite <- Hn.
  unfold unzipAndWrite, tryCatch, bind, jszipLoadAsync. by rewrite Hload, Hf.
Qed.

Lemma logs_invisible t :
  Forall (fun ev => ∃ m, ev = ConsoleLog m) t ->
  List.filter (fun ev => match ev with ConsoleLog _ => false | _ => true end) t
  = [].
Proof. induction 1 as [|ev t [m ->] _ IH]; [done|]. done. Qed.

(** X17.  The ignored entries (macOS metadata and empty names) are
    transparent: the loop over the archive without them ends with the same
    vault and the same completion, and its trace differs by [console.log]
    lines only. *)
Theorem ignored_entries_transparent cleanTargetFolderPath files st v :
  ∃ v' t t' c,
    forIn cleanTargetFolderPath files st v = (v', t, c)
    ∧ forIn cleanTargetFolderPath
        (List.filter (fun entry => negb (isIgnored entry.1)) files) st v
      = (v', t', c)
    ∧ List.filter
        (fun ev => match ev with ConsoleLog _ => false | _ => true end) t
      = List.filter
          (fun ev => match ev with ConsoleLog _ => false | _ => true end) t'.
Proof.
  revert st v. induction files as [|[rel ze] files IH]; intros st v.
  { by exists v, [], [], (Normal st). }
  cbn [List.filter fst]. destruct (isIgnored rel) eqn:Hi; cbn [negb].
  - rewrite forIn_cons.
    destruct (extractEntry_ignored cleanTargetFolderPath st rel ze v Hi)
      as (tl & -> & Hlog).
    destruct (IH st v) as (v' & t & t' & c & Hf & Hf' & Ht).
    rewrite Hf. exists v', (tl ++ t), t', c. split; [done|]. split; [done|].
    by rewrite List.filter_app, logs_invisible.
  - rewrite !forIn_cons.
    destruct (extractEntry cleanTargetFolderPath st rel ze v)
      as [[v1 t1] [st1|e]].
    + destruct (IH st1 v1) as (v' & t & t' & c & Hf & Hf' & Ht).
      rewrite Hf, Hf'. exists v', (t1 ++ t), (t1 ++ t'), c.
      split; [done|]. split; [done|]. by rewrite !List.filter_app, Ht.
    + by exists v1, t1, t1, (Throw e).
Qed.

Lemma forIn_all_ignored cleanTargetFolderPath files st v :
  Forall (fun entry => isIgnored entry.1 = true) files ->
  ∃ t, forIn cleanTargetFolderPath files st v = (v, t, Normal st)
       ∧ Forall (fun ev => ∃ m, ev = ConsoleLog m) t.
Proof.
  induction 1 as [|[rel ze] files Hi _ IH]; [by exists []|].
  rewrite forIn_cons.
  destruct (extractEntry_ignored cleanTargetFolderPath st rel ze v Hi)
    as (tl & -> & Hlog).
  destruct IH as (t & -> & Hlog'). exists (tl ++ t). split; [done|].
  by apply Forall_app.
Qed.

(** X18.  An archive that is empty, or holds ignored entries only, leaves
    the vault as it is: the only call is the decoding, and the only notice
    reports 0 new files. *)
Theorem archive_without_content target cleanTargetFolderPath zipData files v :
  loadAsync zipData = inr files ->
  Forall (fun entry => isIgnored entry.1 = true) files ->
  ∃ t,
    unzipAndWrite target cleanTargetFolderPath zipData v = (v, t, Normal tt)
    ∧ List.filter isCall t = [JSZipLoadAsync zipData true]
    ∧ notices t = [summaryNotice 0 target].
Proof.
  intros Hload Hall.
  destruct (forIn_all_ignored cleanTargetFolderPath files initialLoopState v
              Hall) as (tl & Hf & Hlog).
  unfold unzipAndWrite, tryCatch, bind, jszipLoadAsync. rewrite Hload, Hf.
  simpl. eexists. split; [reflexivity|].
  assert (List.filter isCall tl = [] ∧ notices tl = []) as [Hc Hn].
  { clear Hf. induction Hlog as [|ev t [m ->] _ IH]; [done|]. done. }
  split.
  - cbn [List.filter isCall]. by rewrite List.filter_app, Hc.
  - change (notices (JSZipLoadAsync zipData true :: ?x)) with (notices x).
    by rewrite notices_app, Hn.
Qed.

(** X19.  An entry whose data cannot be read ends the extraction: what the
    entries before it did stays, the entries after it are not processed, no
    summary is shown, and the one notice that follows names the error. *)
Theorem unreadable_entry_aborts target cleanTargetFolderPath zipData
    pre relativePath zipEntry post e v v1 t1 st1 :
  loadAsync zipData = inr (pre ++ (relativePath, zipEntry) :: post) ->
  unreadable relativePath zipEntry e ->
  forIn cleanTargetFolderPath pre initialLoopState v = (v1, t1, Normal st1) ->
  ∃ tail,
    unzipAndWrite target cleanTargetFolderPath zipData v
    = (v1, JSZipLoadAsync zipData true :: t1 ++ tail, Normal tt)
    ∧ Forall (fun ev => isCall ev = false) tail
    ∧ notices tail
      = [if saysFileAlreadyExists e
         then "An unexpected 'File already exists' error occurred during processing. Some files might not have been processed correctly. Check console."
         else "Failed to unzip or write files: " +:+ messageText e
              +:+ ". Check console."].
Proof.
  intros Hload (Hi & Hd & Ha) Hpre.
  assert (forIn cleanTargetFolderPath
            (pre ++ (relativePath, zipEntry) :: post) initialLoopState v
          = (v1, t1 ++ [], Throw e)) as Hf.
  { rewrite forIn_app. unfold bind. rewrite Hpre, forIn_cons.
    by rewrite (extractEntry_unreadable _ _ _ _ e). }
  unfold unzipAndWrite, tryCatch, bind, jszipLoadAsync. rewrite Hload, Hf.
  rewrite app_nil_r. unfold consoleError, consoleWarn, notice, emit.
  destruct (saysFileAlreadyExists e); simpl;
    (eexists; split; [reflexivity|]; split; [by repeat constructor|done]).
Qed.

(** X20.  A file is written by an iteration only at the destination of its
    entry, and only when the parent path of the destination is empty, is
    the target path, or is among the paths remembered as ensured. *)
Theorem file_written_under_ensured_parent cleanTargetFolderPath st
    relativePath zipEntry v :
  ∃ v' t c,
    extractEntry cleanTargetFolderPath st relativePath zipEntry v = (v', t, c)
    ∧ ∀ p, p ∈ filesWritten t ->
        p = normalizedDestPath cleanTargetFolderPath relativePath
        ∧ ∃ st', c = Normal st'
                 ∧ (parentPathOf p = "" ∨ parentPathOf p = cleanTargetFolderPath
                    ∨ parentPathOf p ∈ folderPathsCreated st').
Proof.
  destruct (extractEntry_summary cleanTargetFolderPath st relativePath
              zipEntry v) as (v' & t & c & Heq & Hcalls & Hc).
  exists v', t, c. split; [done|]. intros p Hp.
  assert (filesWritten t ≠ []) as Hne.
  { intros Hnil. rewrite Hnil in Hp. by apply elem_of_nil in Hp. }
  apply written_is_called in Hp as [d Hd].
  rewrite Forall_forall in Hcalls.
  destruct (Hcalls _ Hd eq_refl) as (_ & _ & _ & ->).
  split; [done|]. destruct c as [st'|e].
  - exists st'. split; [done|]. by apply Hc.
  - destruct Hc as (_ & -> & _). by apply elem_of_nil in Hd.
Qed.

End LoopExtras.

Lemma files_written_under_target_witness :
  ∃ v' t c,
    @forIn _ (MemVault.host (MemVault.plain [] [])) "Course Modules"
      [("week1/a.md", fileEntry [Byte.x41])] initialLoopState
      {["Course Modules" := MemVault.FolderNode]}
    = (v', t, c)
    ∧ Forall (fun p => JS.startsWith p ("Course Modules" +:+ "/") = true)
        (filesWritten t).
Proof.
  apply files_written_under_target.
  split; [done|]. split; [reflexivity|]. split; reflexivity.
Defined.

Lemma summary_counts_files_written_witness :
  let host :=
    MemVault.host (MemVault.plain [Byte.x50] [("a.md", fileEntry [Byte.x41])]) in
  let target := {| path := "Course Modules" |} in
  let loop :=
    @forIn _ host "Course Modules" [("a.md", fileEntry [Byte.x41])]
      initialLoopState {["Course Modules" := MemVault.FolderNode]} in
  @unzipAndWrite _ host target "Course Modules" [Byte.x50]
    {["Course Modules" := MemVault.FolderNode]}
  = (loop.1.1,
     JSZipLoadAsync [Byte.x50] true
     :: loop.1.2
        ++ [NewNotice (summaryNotice (length (filesWritten loop.1.2)) target);
            ConsoleLog ("Extraction complete to folder: " +:+ path target)],
     Normal tt).
Proof.
  intros host target loop.
  apply (@summary_counts_files_written _ host target "Course Modules"
           [Byte.x50] [("a.md", fileEntry [Byte.x41])]
           {["Course Modules" := MemVault.FolderNode]}
           loop.1.1 loop.1.2 {| fileCount := 1; folderPathsCreated := ∅ |}).
  - reflexivity.
  - vm_compute. reflexivity.
Defined.

Lemma archive_without_content_witness :
  let host :=
    MemVault.host
      (MemVault.plain [Byte.x50]
         [("__MACOSX/._a.md", fileEntry []); ("week1/.DS_Store", fileEntry [])]) in
  let target := {| path := "Course Modules" |} in
  ∃ t,
    @unzipAndWrite _ host target "Course Modules" [Byte.x50]
      {["Course Modules" := MemVault.FolderNode]}
    = ({["Course Modules" := MemVault.FolderNode]}, t, Normal tt)
    ∧ List.filter isCall t = [JSZipLoadAsync [Byte.x50] true]
    ∧ notices t = [summaryNotice 0 target].
Proof.
  intros host target.
  apply (@archive_without_content _ host target "Course Modules" [Byte.x50]
           [("__MACOSX/._a.md", fileEntry []);
            ("week1/.DS_Store", fileEntry [])]).
  - reflexivity.
  - repeat (apply Forall_cons_2; [vm_compute; reflexivity|]).
    apply Forall_nil_2.
Defined.

Lemma unreadable_entry_aborts_witness :
  let broken :=
    {| dir := false; async := inl {| message := Some "Corrupted zip" |} |} in
  let files :=
    [("a.md", fileEntry [Byte.x41]); ("b.md", broken);
     ("c.md", fileEntry [Byte.x43])] in
  let host := MemVault.host (MemVault.plain [Byte.x50] files) in
  let target := {| path := "Course Modules" |} in
  let before :=
    @forIn _ host "Course Modules" [("a.md", fileEntry [Byte.x41])]
      initialLoopState {["Course Modules" := MemVault.FolderNode]} in
  ∃ tail,
    @unzipAndWrite _ host target "Course Modules" [Byte.x50]
      {["Course Modules" := MemVault.FolderNode]}
    = (before.1.1, JSZipLoadAsync [Byte.x50] true :: before.1.2 ++ tail,
       Normal tt)
    ∧ Forall (fun ev => isCall ev = false) tail
    ∧ notices tail
      = [if saysFileAlreadyExists {| message := Some "Corrupted zip" |}
         then "An unexpected 'File already exists' error occurred during processing. Some files might not have been processed correctly. Check console."
         else "Failed to unzip or write files: "
              +:+ messageText {| message := Some "Corrupted zip" |}
              +:+ ". Check console."].
Proof.
  intros broken files host target before.
  apply (@unreadable_entry_aborts _ host target "Course Modules" [Byte.x50]
           [("a.md", fileEntry [Byte.x41])] "b.md" broken
           [("c.md", fileEntry [Byte.x43])]
           {| message := Some "Corrupted zip" |}
           {["Course Modules" := MemVault.FolderNode]}
           before.1.1 before.1.2
           {| fileCount := 1; folderPathsCreated := ∅ |}).
  - reflexivity.
  - split; [vm_compute; reflexivity|]. split; reflexivity.
  - vm_compute. reflexivity.
Defined.

(** ** The run as a whole *)

Section RunExtras.
Context {Vault : Type} `{Host Vault}.

Lemma requests_app t1 t2 : requests (t1 ++ t2) = requests t1 ++ requests t2.
Proof. unfold requests. by rewrite omap_app. Qed.

Lemma folderEvent_no_request p t :
  Forall (folderEvent p) t -> requests t = [].
Proof. induction 1 as [|ev t Hev _ IH]; [done|]. by destruct ev. Qed.

Lemma entry_calls_no_request cleanTargetFolderPath
    (files : list (string * ZipObject)) t :
  Forall (fun ev =>
            isCall ev = true ->
            ∃ relativePath zipEntry,
              (relativePath, zipEntry) ∈ files
              ∧ callOfEntry cleanTargetFolderPath relativePath zipEntry ev) t ->
  requests t = [].
Proof.
  induction 1 as [|ev t Hev _ IH]; [done|].
  destruct ev; try done. destruct (Hev eq_refl) as (? & ? & _ & _ & []).
Qed.

Lemma download_ok url data v :
  requestUrl url = inr data ->
  download url v
  = (v, [NewNotice "Downloading module...";
         ConsoleLog ("Requesting URL: " +:+ url);
         RequestUrl url true;
         NewNotice "Download complete. Unzipping...";
         ConsoleLog ("Downloaded " +:+ JS.numberToString (length data)
                     +:+ " bytes.")],
     Normal (Some data)).
Proof.
  intros Hreq. unfold download, tryCatch, bind, doRequestUrl.
  by rewrite Hreq.
Qed.

Lemma download_failed url e v :
  requestUrl url = inl e ->
  download url v
  = (v, [NewNotice "Downloading module...";
         ConsoleLog ("Requesting URL: " +:+ url);
         RequestUrl url false;
         ConsoleError "Download Error:";
         NewNotice ("Failed to download file: " +:+ messageText e
                    +:+ ". Check console (Ctrl+Shift+I or Cmd+Opt+I).")],
     Normal None).
Proof.
  intros Hreq. unfold download, tryCatch, bind, doRequestUrl.
  by rewrite Hreq.
Qed.

Lemma unzipAndWrite_normal target cleanTargetFolderPath zipData v :
  ∃ v' t,
    unzipAndWrite target cleanTargetFolderPath zipData v = (v', t, Normal tt)
    ∧ requests t = [].
Proof.
  unfold unzipAndWrite, tryCatch, bind, jszipLoadAsync.
  destruct (loadAsync zipData) as [e|files].
  { unfold consoleError, consoleWarn, notice, emit.
    destruct (saysFileAlreadyExists e); simpl; by eexists _, _. }
  destruct (forIn_summary cleanTargetFolderPath files initialLoopState v)
    as (v1 & t1 & c1 & -> & Hcalls & _).
  apply entry_calls_no_request in Hcalls.
  destruct c1 as [st1|e]; simpl.
  - eexists _, _. split; [reflexivity|].
    change (requests (JSZipLoadAsync zipData true :: ?x)) with (requests x).
    by rewrite requests_app, Hcalls.
  - unfold bind, consoleError, consoleWarn, notice, emit.
    destruct (saysFileAlreadyExists e); simpl; eexists _, _;
      (split; [reflexivity|]);
      change (requests (JSZipLoadAsync zipData true :: ?x)) with (requests x);
      by rewrite requests_app, Hcalls.
Qed.

Lemma downloadAndUnzip_valid settings url v :
  (JS.startsWith url "http://" || JS.startsWith url "https://")%bool = true ->
  downloadAndUnzip settings url v
  = bind (ensureFolderExists (targetFolder settings))
      (fun target =>
         match target with
         | None =>
             notice ("Target folder " +:+ dquote +:+ targetFolder settings
                     +:+ dquote +:+ " could not be found or created. Aborting.")
         | Some target =>
             bind (download (dropboxFix url))
               (fun zipData =>
                  match zipData with
                  | None => ret tt
                  | Some zipData =>
                      unzipAndWrite target (cleanTargetFolderPathOf target)
                        zipData
                  end)
         end) v.
Proof.
  intros Hv. unfold downloadAndUnzip.
  destruct (JS.startsWith url "http://"), (JS.startsWith url "https://");
    done.
Qed.

Lemma downloadAndUnzip_summary settings url v :
  ∃ v' t,
    downloadAndUnzip settings url v = (v', t, Normal tt)
    ∧ (requests t = [] ∨ requests t = [dropboxFix url]).
Proof.
  destruct (JS.startsWith url "http://" || JS.startsWith url "https://")%bool
    eqn:Hv.
  - rewrite downloadAndUnzip_valid by done. unfold bind.
    destruct (ensureFolderExists (targetFolder settings) v)
      as [[v1 t1] c1] eqn:Hens.
    destruct (ensure_events _ _ _ _ _ Hens) as (Hev & _ & r1 & ->).
    apply folderEvent_no_request in Hev.
    destruct r1 as [target|]; simpl.
    + destruct (requestUrl (dropboxFix url)) as [e|data] eqn:Hreq.
      * rewrite (download_failed _ e) by done. simpl.
        eexists _, _. split; [reflexivity|]. right.
        by rewrite requests_app, Hev.
      * rewrite (download_ok _ data) by done.
        destruct (unzipAndWrite_normal target (cleanTargetFolderPathOf target)
                    data v1) as (v2 & t2 & -> & Hr2).
        eexists _, _. split; [reflexivity|]. right.
        rewrite !requests_app, Hev.
        change (requests [?a; ?b; RequestUrl ?u true; ?c; ?d]) with [u].
        by rewrite Hr2.
    + eexists _, _. split; [reflexivity|]. left.
      by rewrite requests_app, Hev.
  - unfold downloadAndUnzip.
    destruct (JS.startsWith url "http://"), (JS.startsWith url "https://");
      try done.
    eexists _, _. split; [reflexivity|]. by left.
Qed.

(** X21.  Every error object that the vault, the network, the decoder or
    an entry of the archive throws is caught inside [downloadAndUnzip]:
    whatever these collaborators answer or reject with, the call completes.
    (What they throw is an error object, see [Error]; a rejection with
    [null] or [undefined], whose [message] the handlers of lines 342, 433
    and 451 read, is outside this statement.) *)
Theorem downloadAndUnzip_catches_thrown_errors settings url v :
  ∃ v' t, downloadAndUnzip settings url v = (v', t, Normal tt).
Proof.
  destruct (downloadAndUnzip_summary settings url v) as (v' & t & Heq & _).
  by exists v', t.
Qed.

(** X22.  A run requests at most one URL, and it is the URL entered after
    the Dropbox rewriting. *)
Theorem at_most_one_request settings url v :
  ∃ v' t c,
    downloadAndUnzip settings url v = (v', t, c)
    ∧ (requests t = [] ∨ requests t = [dropboxFix url]).
Proof.
  destruct (downloadAndUnzip_summary settings url v) as (v' & t & Heq & Hr).
  by exists v', t, (Normal tt).
Qed.

(** X23.  When the download fails, the run ends after the notice that
    names the error: the vault is as the check of the target folder left
    it, nothing is decoded and nothing is written. *)
Theorem download_failure_stops settings url v v1 t1 target e :
  (JS.startsWith url "http://" || JS.startsWith url "https://")%bool = true ->
  ensureFolderExists (targetFolder settings) v
  = (v1, t1, Normal (Some target)) ->
  requestUrl (dropboxFix url) = inl e ->
  downloadAndUnzip settings url v
  = (v1,
     t1 ++ [NewNotice "Downloading module...";
            ConsoleLog ("Requesting URL: " +:+ dropboxFix url);
            RequestUrl (dropboxFix url) false;
            ConsoleError "Download Error:";
            NewNotice ("Failed to download file: " +:+ messageText e
                       +:+ ". Check console (Ctrl+Shift+I or Cmd+Opt+I).")],
     Normal tt).
Proof.
  intros Hv Hens Hreq. rewrite downloadAndUnzip_valid by done.
  unfold bind. rewrite Hens. by rewrite (download_failed _ e).
Qed.

(** X24.  When the target folder can be neither found nor created, the run
    ends with the notice that names it: no URL is requested. *)
Theorem missing_target_aborts settings url v v1 t1 :
  (JS.startsWith url "http://" || JS.startsWith url "https://")%bool = true ->
  ensureFolderExists (targetFolder settings) v = (v1, t1, Normal None) ->
  downloadAndUnzip settings url v
  = (v1,
     t1 ++ [NewNotice ("Target folder " +:+ dquote +:+ targetFolder settings
                       +:+ dquote
                       +:+ " could not be found or created. Aborting.")],
     Normal tt).
Proof.
  intros Hv Hens. rewrite downloadAndUnzip_valid by done.
  unfold bind. by rewrite Hens.
Qed.

(** X25.  When [createBinary] throws an error whose message says, in any
    letter case, that the file already exists, the entry is skipped with
    a console warning only: no notice, no console error, and the counter
    stays. *)
Theorem name_collision_only_warns dest data st v v' e :
  truthy (pathToCheckOf dest) = true ->
  getAbstractFileByPath v (pathToCheckOf dest) = None ->
  createBinary v dest data = (v', inl e) ->
  saysFileAlreadyExists e = true ->
  writeEntry dest data st v
  = (v', [VaultGetAbstractFileByPath (pathToCheckOf dest) None;
          ConsoleLog ("Creating new file: " +:+ dest);
          VaultCreateBinary dest data false;
          ConsoleWarn ("Caught 'File already exists' on createBinary for "
                       +:+ dest +:+ ". Skipping.")],
     Normal st).
Proof.
  intros Ht Hget Hmk Hsays. unfold writeEntry.
  apply truthy_true in Ht as Hne.
  assert (String.eqb (pathToCheckOf dest) "" = false) as ->
    by by apply String.eqb_neq.
  cbn [andb]. rewrite Ht.
  unfold bind, tryCatch, vaultGetAbstractFileByPath, vaultCreateBinary,
    consoleLog, consoleWarn, emit, ret.
  rewrite Hget. simpl. rewrite Hmk. simpl. by rewrite Hsays.
Qed.

End RunExtras.

Lemma download_failure_stops_witness :
  let host := MemVault.host MemVault.offline in
  let url := "https://example.org/course.zip" in
  let e := {| message := Some "net::ERR_INTERNET_DISCONNECTED" |} in
  let first :=
    @ensureFolderExists _ host "Course Modules"
      {["Course Modules" := MemVault.FolderNode]} in
  @downloadAndUnzip _ host DEFAULT_SETTINGS url
    {["Course Modules" := MemVault.FolderNode]}
  = (first.1.1,
     first.1.2
     ++ [NewNotice "Downloading module...";
         ConsoleLog ("Requesting URL: " +:+ dropboxFix url);
         RequestUrl (dropboxFix url) false;
         ConsoleError "Download Error:";
         NewNotice ("Failed to download file: " +:+ messageText e
                    +:+ ". Check console (Ctrl+Shift+I or Cmd+Opt+I).")],
     Normal tt).
Proof.
  intros host url e first.
  apply (@download_failure_stops _ host DEFAULT_SETTINGS url
           {["Course Modules" := MemVault.FolderNode]}
           first.1.1 first.1.2 {| path := "Course Modules" |} e).
  - reflexivity.
  - vm_compute. reflexivity.
  - vm_compute. reflexivity.
Defined.

Lemma missing_target_aborts_witness :
  let host := MemVault.host (MemVault.plain [] []) in
  let url := "https://example.org/course.zip" in
  let first :=
    @ensureFolderExists _ host "Course Modules"
      {["Course Modules" := MemVault.FileNode []]} in
  @downloadAndUnzip _ host DEFAULT_SETTINGS url
    {["Course Modules" := MemVault.FileNode []]}
  = (first.1.1,
     first.1.2
     ++ [NewNotice ("Target folder " +:+ dquote
                    +:+ targetFolder DEFAULT_SETTINGS +:+ dquote
                    +:+ " could not be found or created. Aborting.")],
     Normal tt).
Proof.
  intros host url first.
  apply (@missing_target_aborts _ host DEFAULT_SETTINGS url
           {["Course Modules" := MemVault.FileNode []]} first.1.1 first.1.2).
  - reflexivity.
  - vm_compute. reflexivity.
Defined.

Lemma name_collision_only_warns_witness :
  let host := MemVault.host (MemVault.colliding "Course Modules/a.md") in
  let dest := "Course Modules/a.md" in
  @writeEntry _ host dest [Byte.x41] initialLoopState
    {["Course Modules" := MemVault.FolderNode]}
  = ({["Course Modules" := MemVault.FolderNode]},
     [VaultGetAbstractFileByPath (pathToCheckOf dest) None;
      ConsoleLog ("Creating new file: " +:+ dest);
      VaultCreateBinary dest [Byte.x41] false;
      ConsoleWarn ("Caught 'File already exists' on createBinary for "
                   +:+ dest +:+ ". Skipping.")],
     Normal initialLoopState).
Proof.
  intros host dest.
  apply (@name_collision_only_warns _ host dest [Byte.x41] initialLoopState
           {["Course Modules" := MemVault.FolderNode]}
           {["Course Modules" := MemVault.FolderNode]}
           {| message := Some "File already exists." |}).
  - reflexivity.
  - vm_compute. reflexivity.
  - vm_compute. reflexivity.
  - vm_compute. reflexivity.
Defined.

(** ** The dialogs *)

Section DialogExtras.
Context {Vault : Type} `{Host Vault}.

Lemma stripOne_white w r :
  w ∈ JS.whiteSpace -> JS.stripOne JS.whiteSpace (w +:+ r) = Some r.
Proof.
  intros Hw. unfold JS.whiteSpace in Hw.
  repeat (apply elem_of_cons in Hw as [->|Hw];
          [destruct r; vm_compute; reflexivity|]).
  by apply elem_of_nil in Hw.
Qed.

Lemma white_nonempty w : w ∈ JS.whiteSpace -> (1 <= String.length w)%nat.
Proof.
  intros Hw. unfold JS.whiteSpace in Hw.
  repeat (apply elem_of_cons in Hw as [->|Hw]; [simpl; lia|]).
  by apply elem_of_nil in Hw.
Qed.

Lemma stripAll_blank ws n :
  Forall (fun w => w ∈ JS.whiteSpace) ws ->
  (String.length (foldr String.append "" ws) <= n)%nat ->
  JS.stripAll JS.whiteSpace n (foldr String.append "" ws) = "".
Proof.
  intros Hall. revert n. induction Hall as [|w ws Hw _ IH]; intros n Hn.
  - by destruct n.
  - cbn [foldr] in *. rewrite length_string_app in Hn.
    pose proof (white_nonempty w Hw) as Hlen.
    destruct n as [|n]; [lia|]. cbn [JS.stripAll].
    rewrite (stripOne_white w _ Hw). apply IH. lia.
Qed.

Lemma trim_blank value : blank value -> JS.trim value = "".
Proof.
  intros (ws & Hall & ->). unfold JS.trim, JS.trimStart.
  by rewrite stripAll_blank.
Qed.

Lemma dropChars_app w r : JS.dropChars (String.length w) (w +:+ r) = r.
Proof.
  induction w as [|c w IH]; [by destruct r|].
  change (String c w +:+ r) with (String c (w +:+ r)). by cbn.
Qed.

Lemma stripOne_shorter s s' :
  JS.stripOne JS.whiteSpace s = Some s' ->
  (String.length s' < String.length s)%nat.
Proof.
  unfold JS.stripOne.
  destruct (List.find _ JS.whiteSpace) as [w|] eqn:Hfind; [|done].
  apply List.find_some in Hfind as [Hw Hs]. intros [= <-].
  apply list_elem_of_In, white_nonempty in Hw.
  apply startsWith_spec in Hs as [r ->].
  rewrite dropChars_app, length_string_app. lia.
Qed.

(** The length of the string is fuel enough: what [trimStart] returns
    does not start with white space. *)
Lemma trimStart_no_leading_white s :
  JS.stripOne JS.whiteSpace (JS.trimStart s) = None.
Proof.
  unfold JS.trimStart.
  assert (∀ n x, (String.length x <= n)%nat ->
                 JS.stripOne JS.whiteSpace (JS.stripAll JS.whiteSpace n x)
                 = None) as Hfuel; [|by apply Hfuel].
  induction n as [|n IH]; intros x Hx.
  - destruct x; [done|simpl in Hx; lia].
  - cbn [JS.stripAll].
    destruct (JS.stripOne JS.whiteSpace x) as [x'|] eqn:Hx'; [|done].
    apply IH. apply stripOne_shorter in Hx'. lia.
Qed.

(** [trim] on some inputs: spaces around a text; a no-break space, U+FEFF
    and a line feed around [x]; a letter whose encoding ends with the byte
    of the no-break space; a zero-width space, which is no white space;
    U+2028 and U+3000 around a text that holds U+2000. *)
Example trim_examples :
  JS.trim "  a b  " = "a b"
  ∧ JS.trim "" = ""
  ∧ JS.trim (JS.utf8 [194; 160; 120; 239; 187; 191; 10]%nat) = "x"
  ∧ JS.trim (JS.utf8 [120; 195; 160]%nat) = JS.utf8 [120; 195; 160]%nat
  ∧ JS.trim (JS.utf8 [32; 226; 128; 139; 32]%nat)
    = JS.utf8 [226; 128; 139]%nat
  ∧ JS.trim
      (JS.utf8 [226; 128; 168; 104; 226; 128; 128; 105; 227; 128; 128]%nat)
    = JS.utf8 [104; 226; 128; 128; 105]%nat.
Proof. vm_compute. repeat split. Qed.

(** X26.  An input of white space only (any sequence of the white space
    and line terminator code points of ECMAScript, the no-break space and
    U+FEFF included) is no URL: it is trimmed to the empty string, and the
    button and the Enter key answer [Please enter a URL.] and do nothing
    else. *)
Theorem blank_input_asks_for_url settings value v :
  blank value ->
  onClick settings (onChange value) v
  = (v, [NewNotice "Please enter a URL."], Normal tt)
  ∧ onKeypress settings "Enter" (onChange value) v
    = (v, [NewNotice "Please enter a URL."], Normal tt).
Proof.
  intros Hblank. unfold onClick, onKeypress, onChange.
  by rewrite (trim_blank value Hblank).
Qed.

(** X27.  An input that does not start with [http://] or [https://] leads
    to one notice and to nothing else: no call to the vault, to the network
    or to the decoder, from the button as from the Enter key. *)
Theorem dialog_rejects_other_input settings result v :
  JS.startsWith result "http://" = false ->
  JS.startsWith result "https://" = false ->
  ∃ m,
    onClick settings result v = (v, [NewNotice m], Normal tt)
    ∧ onKeypress settings "Enter" result v = (v, [NewNotice m], Normal tt).
Proof.
  intros H1 H2. unfold onClick, onKeypress.
  assert (String.eqb "Enter" "Enter" = true) as -> by reflexivity.
  destruct (truthy result); [|by eexists].
  unfold downloadAndUnzip. rewrite H1, H2. by eexists.
Qed.

End DialogExtras.

(** ** The folder list of the settings tab *)

Section FolderList.

Lemma someRoot_cons f folders :
  someRoot (f :: folders) = (String.eqb (path f) "/" || someRoot folders)%bool.
Proof. done. Qed.

(** X28.  The folder list offered by the settings tab holds the root of the
    vault, and otherwise the loaded folders in their order: the root is put
    in front exactly when no loaded folder has the path [/].  A list
    fetched beforehand is shown as it is. *)
Theorem folder_list_offers_root loaded root preFetched :
  path root = "/" ->
  someRoot (currentFolders loaded root) = true
  ∧ currentFolders loaded root
    = (if someRoot (omap asFolder loaded) then [] else [root])
      ++ omap asFolder loaded
  ∧ getItems None loaded root = currentFolders loaded root
  ∧ getItems (Some preFetched) loaded root = preFetched.
Proof.
  intros Hroot. unfold currentFolders, getItems.
  destruct (someRoot (omap asFolder loaded)) eqn:Hs; cbn [negb].
  - done.
  - split; [|done]. rewrite someRoot_cons, Hroot. done.
Qed.

End FolderList.

Lemma blank_input_asks_for_url_witness :
  let value :=
    foldr String.append ""
      [" "; JS.utf8 [194; 160]%nat; JS.utf8 [9]%nat;
       JS.utf8 [239; 187; 191]%nat; JS.utf8 [226; 128; 168]%nat] in
  @onClick _ (MemVault.host (MemVault.plain [] [])) DEFAULT_SETTINGS
    (onChange value) ∅
  = (∅, [NewNotice "Please enter a URL."], Normal tt)
  ∧ @onKeypress _ (MemVault.host (MemVault.plain [] [])) DEFAULT_SETTINGS
      "Enter" (onChange value) ∅
    = (∅, [NewNotice "Please enter a URL."], Normal tt).
Proof.
  intros value.
  apply (@blank_input_asks_for_url _ (MemVault.host (MemVault.plain [] []))).
  exists [" "; JS.utf8 [194; 160]%nat; JS.utf8 [9]%nat;
          JS.utf8 [239; 187; 191]%nat; JS.utf8 [226; 128; 168]%nat].
  split; [|reflexivity].
  repeat (apply Forall_cons_2;
          [apply list_elem_of_In; vm_compute;
           repeat (first [left; reflexivity | right])|]).
  apply Forall_nil_2.
Defined.

Lemma dialog_rejects_other_input_witness :
  ∃ m,
    @onClick _ (MemVault.host (MemVault.plain [] [])) DEFAULT_SETTINGS
      "ftp://example.org/course.zip" ∅
    = (∅, [NewNotice m], Normal tt)
    ∧ @onKeypress _ (MemVault.host (MemVault.plain [] [])) DEFAULT_SETTINGS
        "Enter" "ftp://example.org/course.zip" ∅
      = (∅, [NewNotice m], Normal tt).
Proof.
  apply (@dialog_rejects_other_input _ (MemVault.host (MemVault.plain [] [])));
    reflexivity.
Defined.

Lemma folder_list_offers_root_witness :
  let loaded := [AFile "a.md"; AFolder {| path := "Course Modules" |}] in
  let root := {| path := "/" |} in
  someRoot (currentFolders loaded root) = true
  ∧ currentFolders loaded root
    = (if someRoot (omap asFolder loaded) then [] else [root])
      ++ omap asFolder loaded
  ∧ getItems None loaded root = currentFolders loaded root
  ∧ getItems (Some []) loaded root = [].
Proof.
  intros loaded root. by apply (folder_list_offers_root loaded root []).
Defined.
